(** * 0list: signup intake, confirmation, rate limiting, origin matching,
      CSV export and daily statistics

    A shallow embedding of the API worker of the 0list waitlist service
    (apps/api/src) and the properties its specification states about it.

    Conventions of the embedding.
    - JavaScript strings are [string]s whose characters are 8-bit code
      units; [toLowerCase] and [trim] act on that range.
    - Integers (positions, counters, epoch times) are [Z].
    - The two tables of the database are lists of rows in insertion
      order; [findFirst] is the first row that satisfies the condition.
    - What the handlers draw from the platform (the clock, fresh ids,
      random tokens, whether the mail provider accepts a message) is an
      explicit [Oracle] argument, and what they do to the outside world
      (mails sent, console lines, webhooks) is returned as a list of
      [Effect]s next to the new database and the HTTP outcome. *)

From Stdlib Require Import ZArith String Ascii List Lia.
From Stdlib Require Import DecimalString DecimalPos DecimalZ Sorted.
From stdpp Require Import gmap strings list fin_maps.
From Equations Require Import Equations.

Open Scope string_scope.
Open Scope list_scope.
Open Scope Z_scope.

(** ** JavaScript string primitives *)

Module Js.

Definition code (c : ascii) : nat := nat_of_ascii c.

(** White space of [String.prototype.trim] and of the regex class [\s],
    restricted to 8-bit code units. *)
Definition isSpace (c : ascii) : bool :=
  let n := code c in
  ((9 <=? n)%nat && (n <=? 13)%nat) || (n =? 32)%nat || (n =? 160)%nat.

Definition lowerChar (c : ascii) : ascii :=
  let n := code c in
  if ((65 <=? n)%nat && (n <=? 90)%nat)
     || ((192 <=? n)%nat && (n <=? 222)%nat && negb (n =? 215)%nat)
  then ascii_of_nat (n + 32) else c.

Fixpoint toLowerCase (s : string) : string :=
  match s with
  | EmptyString => EmptyString
  | String c r => String (lowerChar c) (toLowerCase r)
  end.

Fixpoint trimStart (s : string) : string :=
  match s with
  | String c r => if isSpace c then trimStart r else s
  | EmptyString => EmptyString
  end.

Definition trimEnd (s : string) : string :=
  String.rev (trimStart (String.rev s)).

Definition trim (s : string) : string := trimEnd (trimStart s).

Fixpoint startsWith (s p : string) {struct p} : bool :=
  match p, s with
  | EmptyString, _ => true
  | String a p', String b s' => Ascii.eqb a b && startsWith s' p'
  | String _ _, EmptyString => false
  end.

Definition endsWith (s p : string) : bool :=
  startsWith (String.rev s) (String.rev p).

(** [s.slice(n)] for a non-negative [n]. *)
Fixpoint slice (n : nat) (s : string) : string :=
  match n, s with
  | O, _ => s
  | S n', String _ r => slice n' r
  | S _, EmptyString => EmptyString
  end.

(** Position of the first occurrence of [p] in [s], as [indexOf]. *)
Fixpoint indexOf (s p : string) : option nat :=
  if startsWith s p then Some O
  else match s with
       | EmptyString => None
       | String _ r => S <$> indexOf r p
       end.

Definition includes (s p : string) : bool :=
  match indexOf s p with Some _ => true | None => false end.

Fixpoint take (n : nat) (s : string) : string :=
  match n, s with
  | S n', String c r => String c (take n' r)
  | _, _ => EmptyString
  end.

Fixpoint join (sep : string) (l : list string) : string :=
  match l with
  | [] => EmptyString
  | [x] => x
  | x :: r => x +:+ sep +:+ join sep r
  end.

(** Truthiness of a nullable string: [null], [undefined] and the empty
    string are falsy. *)
Definition truthy (o : option string) : bool :=
  match o with
  | Some s => negb (String.eqb s EmptyString)
  | None => false
  end.

(** [o || null] on a nullable string. *)
Definition orNull (o : option string) : option string :=
  if truthy o then o else None.

(** Truthiness of a nullable boolean column. *)
Definition truthyb (o : option bool) : bool :=
  match o with Some b => b | None => false end.

(** [Number.prototype.toString] on an integer. *)
Definition numToString (z : Z) : string :=
  NilZero.string_of_int (Z.to_int z).

End Js.

(** ** lib/utils.ts *)

(** The class [[^\s@]] of the email regex. *)
Definition emailChar (c : ascii) : bool :=
  negb (Js.isSpace c) && negb (Ascii.eqb c "@"%char).

Fixpoint allEmailChars (s : string) : bool :=
  match s with
  | EmptyString => true
  | String c r => emailChar c && allEmailChars r
  end.

(** [[^\s@]+\.[^\s@]+] anchored at both ends: every character is in the
    class and some dot has a character before it and one after it. *)
Fixpoint dotInside (s : string) (seen : bool) : bool :=
  match s with
  | EmptyString => false
  | String c r =>
      (seen && Ascii.eqb c "."%char && negb (String.eqb r EmptyString))
      || dotInside r true
  end.

(** [/^[^\s@]+@[^\s@]+\.[^\s@]+$/.test(email) && email.length <= 254] *)
Definition isValidEmail (email : string) : bool :=
  match Js.indexOf email "@" with
  | Some i =>
      let loc := Js.take i email in
      let dom := Js.slice (S i) email in
      negb (String.eqb loc EmptyString) && allEmailChars loc
      && allEmailChars dom && dotInside dom false
      && (String.length email <=? 254)%nat
  | None => false
  end.

Definition normalizeEmail (email : string) : string :=
  Js.trim (Js.toLowerCase email).

(** ** lib/errors.ts *)

Record AppError := mkAppError { status : Z; code : string; errMessage : string }.

Module Errors.
Definition Forbidden (m : string) := mkAppError 403 "FORBIDDEN" m.
Definition ValidationError (m : string) := mkAppError 400 "VALIDATION_ERROR" m.
Definition InvalidEmail := mkAppError 400 "INVALID_EMAIL" "Invalid email address".
Definition NotFound (resource : string) :=
  mkAppError 404 "NOT_FOUND" (resource +:+ " not found").
Definition WaitlistNotFound :=
  mkAppError 404 "WAITLIST_NOT_FOUND" "Waitlist not found".
Definition SignupNotFound :=
  mkAppError 404 "SIGNUP_NOT_FOUND" "Signup not found".
Definition AlreadySignedUp :=
  mkAppError 409 "ALREADY_SIGNED_UP" "This email is already on the waitlist".
Definition RateLimited :=
  mkAppError 429 "RATE_LIMITED" "Too many requests. Please try again later.".
End Errors.

(** How a handler ends: with a value, with an [AppError] it threw, or
    with some other exception (which the application's [onError] turns
    into a 500). *)
Inductive Outcome (A : Type) : Type :=
| Ok (a : A)
| Fail (e : AppError)
| Throw (msg : string).
Arguments Ok {A} a.
Arguments Fail {A} e.
Arguments Throw {A} msg.

Definition isOk {A} (o : Outcome A) : bool :=
  match o with Ok _ => true | _ => false end.

(** [app.onError] of index.tsx: status and machine code sent to the caller. *)
Definition onError {A} (o : Outcome A) : option (Z * string) :=
  match o with
  | Ok _ => None
  | Fail e => Some (status e, code e)
  | Throw msg =>
      if Js.includes msg "Validation" then Some (400, "VALIDATION_ERROR")
      else Some (500, "INTERNAL_ERROR")
  end.

(** ** db/schema.ts *)

Inductive Status := pending | confirmed | invited.

#[global] Instance Status_eq_dec : EqDecision Status.
Proof. solve_decision. Defined.

Definition statusText (s : Status) : string :=
  match s with
  | pending => "pending"
  | confirmed => "confirmed"
  | invited => "invited"
  end.

Inductive FieldType := text | textarea | select.

Record CustomField := {
  key : string;
  label : string;
  type : FieldType;
  required : bool;
  placeholder : option string;
  options : option (list string)
}.

Module Waitlist.
Record t := {
  id : string;
  name : string;
  slug : string;
  logoUrl : option string;
  primaryColor : option string;
  doubleOptIn : option bool;
  redirectUrl : option string;
  customFields : list CustomField;
  notifyOnSignup : option bool;
  notifyEmail : option string;
  webhookUrl : option string;
  allowedOrigins : list string;
  createdAt : Z
}.
End Waitlist.

Module Signup.
Record t := {
  id : string;
  waitlistId : string;
  email : string;
  position : Z;
  status : Status;
  customData : gmap string string;
  referralSource : option string;
  ipAddress : option string;
  userAgent : option string;
  confirmationToken : option string;
  confirmedAt : option Z;
  createdAt : Z
}.

(** [.set({ confirmationToken })] *)
Definition setToken (tok : option string) (s : t) : t :=
  {| id := id s; waitlistId := waitlistId s; email := email s;
     position := position s; status := status s;
     customData := customData s; referralSource := referralSource s;
     ipAddress := ipAddress s; userAgent := userAgent s;
     confirmationToken := tok; confirmedAt := confirmedAt s;
     createdAt := createdAt s |}.

(** [.set({ status })] *)
Definition setStatus (st : Status) (s : t) : t :=
  {| id := id s; waitlistId := waitlistId s; email := email s;
     position := position s; status := st;
     customData := customData s; referralSource := referralSource s;
     ipAddress := ipAddress s; userAgent := userAgent s;
     confirmationToken := confirmationToken s; confirmedAt := confirmedAt s;
     createdAt := createdAt s |}.

(** [.set({ confirmedAt })] *)
Definition setConfirmedAt (d : option Z) (s : t) : t :=
  {| id := id s; waitlistId := waitlistId s; email := email s;
     position := position s; status := status s;
     customData := customData s; referralSource := referralSource s;
     ipAddress := ipAddress s; userAgent := userAgent s;
     confirmationToken := confirmationToken s; confirmedAt := d;
     createdAt := createdAt s |}.
End Signup.

(** The database: both tables, rows in insertion order. *)
Record Db := { waitlists : list Waitlist.t; signups : list Signup.t }.

Definition withSignups (db : Db) (rows : list Signup.t) : Db :=
  {| waitlists := waitlists db; signups := rows |}.

(** [db.query.waitlists.findFirst({ where: eq(waitlists.slug, slug) })] *)
Definition findWaitlistBySlug (db : Db) (slug : string) : option Waitlist.t :=
  List.find (fun w => bool_decide (Waitlist.slug w = slug)) (waitlists db).

(** Rows of one waitlist: [where(eq(signups.waitlistId, id))]. *)
Definition signupsOf (db : Db) (wid : string) : list Signup.t :=
  List.filter (fun s => bool_decide (Signup.waitlistId s = wid)) (signups db).

(** [findFirst({ where: and(eq(waitlistId, wid), eq(email, e)) })] *)
Definition findSignupByEmail (db : Db) (wid e : string) : option Signup.t :=
  List.find (fun s => bool_decide (Signup.waitlistId s = wid)
                      && bool_decide (Signup.email s = e)) (signups db).

(** [findFirst({ where: and(eq(waitlistId, wid), eq(confirmationToken, tok)) })];
    a NULL token equals nothing. *)
Definition findSignupByToken (db : Db) (wid tok : string) : option Signup.t :=
  List.find (fun s => bool_decide (Signup.waitlistId s = wid)
                      && bool_decide (Signup.confirmationToken s = Some tok))
            (signups db).

(** [findFirst({ where: and(eq(id, sid), eq(waitlistId, wid)) })] *)
Definition findSignupById (db : Db) (sid wid : string) : option Signup.t :=
  List.find (fun s => bool_decide (Signup.id s = sid)
                      && bool_decide (Signup.waitlistId s = wid)) (signups db).

(** [update(signups).set(f).where(eq(signups.id, sid))] *)
Definition updateSignup (db : Db) (sid : string) (f : Signup.t -> Signup.t) : Db :=
  withSignups db
    (List.map (fun s => if bool_decide (Signup.id s = sid) then f s else s)
              (signups db)).

(** [insert(signups).values(row)]: the primary key and the unique index
    [waitlist_email_unique] reject a clashing row. *)
Definition clashes (row s : Signup.t) : bool :=
  bool_decide (Signup.id s = Signup.id row)
  || (bool_decide (Signup.waitlistId s = Signup.waitlistId row)
      && bool_decide (Signup.email s = Signup.email row)).

Definition insertSignup (db : Db) (row : Signup.t) : option Db :=
  if List.existsb (clashes row) (signups db) then None
  else Some (withSignups db (signups db ++ [row])).

(** [COALESCE(MAX(position), 0)] over the rows of one waitlist. *)
Definition maxPosition (rows : list Signup.t) : Z :=
  match List.map Signup.position rows with
  | [] => 0
  | p :: ps => List.fold_left Z.max ps p
  end.

(** ** Platform: bindings, oracle, effects *)

Record Env := {
  RESEND_API_KEY : option string;
  RESEND_FROM_EMAIL : option string
}.

(** What one request draws from the platform. [confirmationSends],
    [welcomeSends] and [adminSends] tell whether rendering and handing
    the message to the provider resolves ([true]) or rejects, and
    [mailError] is the message of the exception a rejection throws. *)
Record Oracle := {
  now : Z;
  randomUUID : string;
  generateToken : string;
  confirmationSends : bool;
  welcomeSends : bool;
  adminSends : bool;
  mailError : string
}.

Inductive Effect :=
| ConfirmationEmail (to token : string)
| WelcomeEmail (to : string)
| AdminNotification (about : string)
| Webhook (url event : string)
| ConsoleLog (line : string).

(** ** emails/send.ts *)

Definition isEmailConfigured (env : Env) : bool :=
  Js.truthy (RESEND_API_KEY env) && Js.truthy (RESEND_FROM_EMAIL env).

Definition sendConfirmationEmail (env : Env) (o : Oracle) (s : Signup.t)
  : list Effect * Outcome unit :=
  if negb (Js.truthy (RESEND_API_KEY env)) || negb (Js.truthy (RESEND_FROM_EMAIL env))
  then ([], Throw "Email not configured. Set RESEND_API_KEY and RESEND_FROM_EMAIL to enable double opt-in.")
  else if confirmationSends o
  then ([ConfirmationEmail (Signup.email s)
           (default "null" (Signup.confirmationToken s))], Ok tt)
  else ([], Throw (mailError o)).

Definition sendWelcomeEmail (env : Env) (o : Oracle) (s : Signup.t)
  : list Effect * Outcome unit :=
  if negb (Js.truthy (RESEND_API_KEY env)) || negb (Js.truthy (RESEND_FROM_EMAIL env))
  then ([ConsoleLog "[Email] Resend not configured, skipping welcome email"], Ok tt)
  else if welcomeSends o
  then ([WelcomeEmail (Signup.email s)], Ok tt)
  else ([], Throw (mailError o)).

Definition sendAdminNotificationEmail (w : Waitlist.t) (o : Oracle) (s : Signup.t)
  : list Effect * Outcome unit :=
  if negb (Js.truthyb (Waitlist.notifyOnSignup w)) then ([], Ok tt)
  else if adminSends o
  then ([AdminNotification (Signup.email s)], Ok tt)
  else ([], Throw (mailError o)).

(** The [try { welcome; admin } catch { console.error }] block shared by
    the signup and the confirmation handlers: it never throws. *)
Definition sendWelcomeAndNotify (tag : string) (env : Env) (w : Waitlist.t)
    (o : Oracle) (s : Signup.t) : list Effect :=
  match sendWelcomeEmail env o s with
  | (e1, Ok _) =>
      match sendAdminNotificationEmail w o s with
      | (e2, Ok _) => e1 ++ e2
      | (e2, _) => e1 ++ e2 ++ [ConsoleLog tag]
      end
  | (e1, _) => e1 ++ [ConsoleLog tag]
  end.

Definition triggerWebhook (w : Waitlist.t) (event : string) : list Effect :=
  if Js.truthy (Waitlist.webhookUrl w)
  then [Webhook (default EmptyString (Waitlist.webhookUrl w)) event]
  else [].

(** ** HTTP requests and responses *)

Module Req.
Record body := {
  email : string;
  customData : option (gmap string string);
  referralSource : option string
}.

Record t := {
  slug : string;
  json : body;
  cfConnectingIp : option string;
  xForwardedFor : option string;
  userAgent : option string
}.
End Req.

Inductive JVal :=
| JNull
| JBool (b : bool)
| JNum (z : Z)
| JStr (s : string)
| JFields (fs : list CustomField).

Inductive Response :=
| Json (fields : list (string * JVal))
| Redirect (url : string)
| SignupJson (s : Signup.t).

(** Member of a JSON body; [None] when the response is not such a body or
    has no such key. *)
Definition field (k : string) (r : Response) : option JVal :=
  match r with
  | Json fs => snd <$> List.find (fun kv => String.eqb (fst kv) k) fs
  | _ => None
  end.

Definition nullable (o : option string) : JVal :=
  match o with Some s => JStr s | None => JNull end.

(** What a handler returns: the database after it, what it did to the
    outside world, and how the request ended. *)
Definition Handled : Type := Db * list Effect * Outcome Response.

Definition dbOf (h : Handled) : Db := fst (fst h).
Definition effectsOf (h : Handled) : list Effect := snd (fst h).
Definition outcomeOf (h : Handled) : Outcome Response := snd h.

(** [s.split(",")[0]] *)
Fixpoint beforeComma (s : string) : string :=
  match s with
  | EmptyString => EmptyString
  | String c r => if Ascii.eqb c ","%char then EmptyString else String c (beforeComma r)
  end.

Definition getClientIp (r : Req.t) : option string :=
  if Js.truthy (Req.cfConnectingIp r) then Req.cfConnectingIp r
  else Js.orNull (Js.trim <$> (beforeComma <$> Req.xForwardedFor r)).

(** ** api/public.ts: POST /:slug/signup *)

(** The loop over the waitlist's custom fields. *)
Definition validateField (data : option (gmap string string))
    (acc : Outcome (gmap string string)) (f : CustomField)
  : Outcome (gmap string string) :=
  match acc with
  | Ok cd =>
      let value := data ≫= (fun m => m !! key f) in
      if required f
         && (negb (Js.truthy value) || String.eqb (Js.trim (default EmptyString value)) EmptyString)
      then Fail (Errors.ValidationError (label f +:+ " is required"))
      else if Js.truthy value
           then Ok (<[key f := Js.trim (default EmptyString value)]> cd)
           else Ok cd
  | other => other
  end.

Definition validateCustomFields (fields : list CustomField)
    (data : option (gmap string string)) : Outcome (gmap string string) :=
  List.fold_left (validateField data) fields (Ok ∅).

Definition isConfirmedOrInvited (st : Status) : bool :=
  bool_decide (st = confirmed) || bool_decide (st = invited).

(** [(positionResult[0]?.maxPosition || 0) + 1] *)
Definition nextPosition (db : Db) (wid : string) : Z :=
  let m := maxPosition (signupsOf db wid) in
  (if m =? 0 then 0 else m) + 1.

Definition newSignupRow (o : Oracle) (w : Waitlist.t) (req : Req.t)
    (email : string) (cd : gmap string string) (useDoubleOptIn : bool)
    (position : Z) : Signup.t :=
  {| Signup.id := randomUUID o;
     Signup.waitlistId := Waitlist.id w;
     Signup.email := email;
     Signup.position := position;
     Signup.status := if useDoubleOptIn then pending else confirmed;
     Signup.customData := cd;
     Signup.referralSource := Js.orNull (Req.referralSource (Req.json req));
     Signup.ipAddress := getClientIp req;
     Signup.userAgent := Js.orNull (Req.userAgent req);
     Signup.confirmationToken := if useDoubleOptIn then Some (generateToken o) else None;
     Signup.confirmedAt := if useDoubleOptIn then None else Some (now o);
     Signup.createdAt := now o |}.

(** The branch taken when the email is already on the waitlist. *)
Definition signupExisting (env : Env) (o : Oracle) (db : Db)
    (w : Waitlist.t) (existing : Signup.t) : Handled :=
  if isConfirmedOrInvited (Signup.status existing)
  then (db, [], Fail Errors.AlreadySignedUp)
  else if Js.truthyb (Waitlist.doubleOptIn w)
          && bool_decide (Signup.status existing = pending)
          && isEmailConfigured env
  then
    let confirmationToken := generateToken o in
    let db' := updateSignup db (Signup.id existing)
                 (Signup.setToken (Some confirmationToken)) in
    let updatedSignup := Signup.setToken (Some confirmationToken) existing in
    match sendConfirmationEmail env o updatedSignup with
    | (eff, Ok _) =>
        (db', eff,
         Ok (Json [("success", JBool true);
                   ("message", JStr "Confirmation email resent. Please check your inbox.");
                   ("position", JNum (Signup.position existing));
                   ("requiresConfirmation", JBool true)]))
    | (eff, Fail e) => (db', eff, Fail e)
    | (eff, Throw m) => (db', eff, Throw m)
    end
  else (db, [], Fail Errors.AlreadySignedUp).

(** The branch that creates a new row. *)
Definition signupNew (env : Env) (o : Oracle) (db : Db) (w : Waitlist.t)
    (req : Req.t) (email : string) (cd : gmap string string) : Handled :=
  let emailConfigured := isEmailConfigured env in
  let useDoubleOptIn := Js.truthyb (Waitlist.doubleOptIn w) && emailConfigured in
  let warn :=
    if Js.truthyb (Waitlist.doubleOptIn w) && negb emailConfigured
    then [ConsoleLog "[Signup] Double opt-in enabled but email not configured, falling back to direct confirmation"]
    else [] in
  let position := nextPosition db (Waitlist.id w) in
  let newSignup := newSignupRow o w req email cd useDoubleOptIn position in
  match insertSignup db newSignup with
  | None => (db, warn, Throw "UNIQUE constraint failed")
  | Some db' =>
      let reply :=
        Json [("success", JBool true);
              ("message", JStr (if useDoubleOptIn
                                then "Please check your email to confirm your spot."
                                else "You're on the list!"));
              ("position", JNum position);
              ("requiresConfirmation", JBool useDoubleOptIn);
              ("redirectUrl", nullable (Js.orNull (Waitlist.redirectUrl w)))] in
      if useDoubleOptIn then
        match sendConfirmationEmail env o newSignup with
        | (eff, Ok _) =>
            (db', warn ++ eff ++ triggerWebhook w "signup.created", Ok reply)
        | (eff, Fail e) => (db', warn ++ eff, Fail e)
        | (eff, Throw m) => (db', warn ++ eff, Throw m)
        end
      else
        let mails :=
          if emailConfigured
          then sendWelcomeAndNotify
                 "[Signup] Failed to send welcome/notification email:" env w o newSignup
          else [] in
        (db', warn ++ mails ++ triggerWebhook w "signup.created", Ok reply)
  end.

(** The handler proper; the route's CORS check, rate limiter and schema
    validator have let the request through. *)
Definition signup (env : Env) (o : Oracle) (db : Db) (req : Req.t) : Handled :=
  match findWaitlistBySlug db (Req.slug req) with
  | None => (db, [], Fail Errors.WaitlistNotFound)
  | Some w =>
      let email := normalizeEmail (Req.email (Req.json req)) in
      if negb (isValidEmail email) then (db, [], Fail Errors.InvalidEmail)
      else
        match validateCustomFields (Waitlist.customFields w)
                (Req.customData (Req.json req)) with
        | Fail e => (db, [], Fail e)
        | Throw m => (db, [], Throw m)
        | Ok cd =>
            match findSignupByEmail db (Waitlist.id w) email with
            | Some existing => signupExisting env o db w existing
            | None => signupNew env o db w req email cd
            end
        end
  end.

(** ** api/public.ts: GET /:slug/confirm/:token *)

(** [.set({ status: "confirmed", confirmedAt: new Date(), confirmationToken: null })] *)
Definition redeem (t : Z) (s : Signup.t) : Signup.t :=
  Signup.setToken None (Signup.setConfirmedAt (Some t) (Signup.setStatus confirmed s)).

Definition confirmReply (w : Waitlist.t) (msg : string) (s : Signup.t) : Response :=
  if Js.truthy (Waitlist.redirectUrl w)
  then Redirect (default EmptyString (Waitlist.redirectUrl w))
  else Json [("success", JBool true);
             ("message", JStr msg);
             ("position", JNum (Signup.position s))].

Definition confirm (env : Env) (o : Oracle) (db : Db) (slug token : string)
  : Handled :=
  match findWaitlistBySlug db slug with
  | None => (db, [], Fail Errors.WaitlistNotFound)
  | Some w =>
      match findSignupByToken db (Waitlist.id w) token with
      | None => (db, [], Fail (Errors.NotFound "Confirmation link"))
      | Some s =>
          if isConfirmedOrInvited (Signup.status s)
          then (db, [], Ok (confirmReply w "Your email is already confirmed." s))
          else
            let db' := updateSignup db (Signup.id s) (redeem (now o)) in
            let confirmedSignup :=
              Signup.setConfirmedAt (Some (now o)) (Signup.setStatus confirmed s) in
            (db',
             sendWelcomeAndNotify "[Confirm] Failed to send emails:" env w o confirmedSignup
               ++ triggerWebhook w "signup.confirmed",
             Ok (confirmReply w "Your email has been confirmed!" s))
      end
  end.

(** ** api/public.ts: GET /:slug/status *)

(** [COUNT( * ) ... WHERE waitlist_id = id AND status = 'confirmed'] *)
Definition countConfirmed (db : Db) (wid : string) : Z :=
  Z.of_nat (List.length
    (List.filter (fun s => bool_decide (Signup.waitlistId s = wid)
                           && bool_decide (Signup.status s = confirmed))
                 (signups db))).

Definition statusEndpoint (db : Db) (slug : string) : Outcome Response :=
  match findWaitlistBySlug db slug with
  | None => Fail Errors.WaitlistNotFound
  | Some w =>
      Ok (Json [("name", JStr (Waitlist.name w));
                ("slug", JStr (Waitlist.slug w));
                ("logoUrl", nullable (Waitlist.logoUrl w));
                ("primaryColor", nullable (Waitlist.primaryColor w));
                ("customFields", JFields (Waitlist.customFields w));
                ("signupCount", JNum (countConfirmed db (Waitlist.id w)))])
  end.

(** ** api/admin.ts: PATCH /waitlists/:id/signups/:signupId *)

(** The [updates] object built from the body and the row found. *)
Definition patchUpdates (bodyStatus : option Status) (signup : Signup.t) (t : Z)
  : option (Signup.t -> Signup.t) :=
  match bodyStatus with
  | Some st =>
      if bool_decide (st = confirmed)
         && negb (bool_decide (is_Some (Signup.confirmedAt signup)))
      then Some (fun r => Signup.setConfirmedAt (Some t) (Signup.setStatus st r))
      else Some (Signup.setStatus st)
  | None => None
  end.

Definition patchSignup (o : Oracle) (db : Db) (id signupId : string)
    (bodyStatus : option Status) : Db * Outcome Response :=
  match findSignupById db signupId id with
  | None => (db, Fail Errors.SignupNotFound)
  | Some signup =>
      match patchUpdates bodyStatus signup (now o) with
      | None => (db, Ok (SignupJson signup))
      | Some set =>
          let db' := updateSignup db signupId set in
          match List.find (fun s => bool_decide (Signup.id s = signupId)) (signups db') with
          | Some updated => (db', Ok (SignupJson updated))
          | None => (db', Ok (Json []))
          end
      end
  end.

(** ** middleware/rate-limit.ts *)

Record RateRecord := { count : Z; resetAt : Z }.

Record RateLimitOptions := { windowMs : Z; max : Z }.

(** [Math.ceil(x / d)] on integers, [d] positive. *)
Definition ceilDiv (x d : Z) : Z := - ((- x) / d).

(** The sweep runs only when the store holds more than 1000 keys. *)
Definition cleanupExpiredIfNeeded (t : Z) (store : gmap string RateRecord)
  : gmap string RateRecord :=
  if 1000 <? Z.of_nat (size store)
  then filter (fun kv => ¬ (resetAt kv.2 < t)) store
  else store.

(** The middleware returned by [rateLimit(options)], run for the key the
    key generator produced. [tSweep] is the clock read by the sweep and
    [t] the one read by the middleware itself. The result is the store
    after the request, the response headers set, and whether the request
    goes on to the next handler. *)
Definition rateLimit (opts : RateLimitOptions) (key : string) (tSweep t : Z)
    (store : gmap string RateRecord)
  : gmap string RateRecord * list (string * string) * Outcome unit :=
  let store1 := cleanupExpiredIfNeeded tSweep store in
  let fresh := {| count := 1; resetAt := t + windowMs opts |} in
  let record :=
    match store1 !! key with
    | Some r => if resetAt r <? t then fresh
                else {| count := count r + 1; resetAt := resetAt r |}
    | None => fresh
    end in
  let store2 := <[key := record]> store1 in
  let headers :=
    [("X-RateLimit-Limit", Js.numToString (max opts));
     ("X-RateLimit-Remaining", Js.numToString (Z.max 0 (max opts - count record)));
     ("X-RateLimit-Reset", Js.numToString (ceilDiv (resetAt record) 1000))] in
  if max opts <? count record
  then (store2,
        headers ++ [("Retry-After", Js.numToString (ceilDiv (resetAt record - t) 1000))],
        Fail Errors.RateLimited)
  else (store2, headers, Ok tt).

Definition signupOptions : RateLimitOptions :=
  {| windowMs := 60 * 60 * 1000; max := 10 |}.

Definition signupKey (r : Req.t) : string :=
  "signup:" +:+ default "unknown" (getClientIp r).

Definition signupRateLimit (r : Req.t) := rateLimit signupOptions (signupKey r).

Definition header (k : string) (hs : list (string * string)) : option string :=
  snd <$> List.find (fun kv => String.eqb (fst kv) k) hs.

(** A run of the signup limiter over a sequence of requests, each with
    the two clock readings of its turn; the outcomes are in request order. *)
Fixpoint runSignupLimiter (reqs : list (Req.t * Z * Z))
    (store : gmap string RateRecord)
  : gmap string RateRecord * list (list (string * string) * Outcome unit) :=
  match reqs with
  | [] => (store, [])
  | (r, tSweep, t) :: rest =>
      let '(store1, hs, out) := signupRateLimit r tSweep t store in
      let '(store2, outs) := runSignupLimiter rest store1 in
      (store2, (hs, out) :: outs)
  end.

(** ** api/public.ts: isOriginAllowed *)

(** The part of the platform's [URL] class the matcher reads, for
    origins of the shape [scheme://host[:port]]: the scheme and the
    authority are lower-cased, user information and the default port of
    http and https are dropped, and a string without ["://"] or with an
    empty or ill-formed host does not parse. *)
Module URL.
Record t := { protocol : string; host : string }.

Definition origin (u : t) : string := protocol u +:+ "//" +:+ host u.

Definition isAlpha (c : ascii) : bool :=
  let n := Js.code c in
  ((65 <=? n)%nat && (n <=? 90)%nat) || ((97 <=? n)%nat && (n <=? 122)%nat).

Definition isDigit (c : ascii) : bool :=
  let n := Js.code c in (48 <=? n)%nat && (n <=? 57)%nat.

Definition schemeChar (c : ascii) : bool :=
  isAlpha c || isDigit c || Ascii.eqb c "+"%char || Ascii.eqb c "-"%char
  || Ascii.eqb c "."%char.

Definition hostChar (c : ascii) : bool :=
  isAlpha c || isDigit c || Ascii.eqb c "-"%char || Ascii.eqb c "."%char
  || Ascii.eqb c "_"%char || Ascii.eqb c ":"%char.

Fixpoint all (p : ascii -> bool) (s : string) : bool :=
  match s with
  | EmptyString => true
  | String c r => p c && all p r
  end.

(** Up to the first of [/], [?], [#] and backslash. *)
Fixpoint authority (s : string) : string :=
  match s with
  | EmptyString => EmptyString
  | String c r =>
      if Ascii.eqb c "/"%char || Ascii.eqb c "?"%char || Ascii.eqb c "#"%char
         || Ascii.eqb c "\"%char
      then EmptyString else String c (authority r)
  end.

(** After the last [@], if any. *)
Fixpoint dropUserinfo (s : string) : string :=
  match s with
  | EmptyString => EmptyString
  | String c r =>
      if Js.includes s "@" then dropUserinfo r else s
  end.

Definition dropSuffix (suffix s : string) : string :=
  if Js.endsWith s suffix
  then Js.take (String.length s - String.length suffix) s
  else s.

Definition dropDefaultPort (scheme hostport : string) : string :=
  if String.eqb scheme "https" then dropSuffix ":443" hostport
  else if String.eqb scheme "http" then dropSuffix ":80" hostport
  else hostport.

Definition parse (input : string) : option t :=
  let s := Js.trim input in
  match Js.indexOf s "://" with
  | None => None
  | Some i =>
      let scheme := Js.toLowerCase (Js.take i s) in
      let hostport :=
        Js.toLowerCase (dropUserinfo (authority (Js.slice (i + 3) s))) in
      match scheme with
      | EmptyString => None
      | String c _ =>
          if isAlpha c && all schemeChar scheme
             && negb (String.eqb hostport EmptyString) && all hostChar hostport
          then Some {| protocol := scheme +:+ ":";
                       host := dropDefaultPort scheme hostport |}
          else None
      end
  end.
End URL.

(** The callback given to [allowedOrigins.some]. *)
Definition matchesPattern (originUrl : URL.t) (pattern : string) : bool :=
  let originHost := Js.toLowerCase (URL.host originUrl) in
  let normalizedPattern := Js.trim (Js.toLowerCase pattern) in
  if Js.startsWith normalizedPattern "*." then
    let domain := Js.slice 2 normalizedPattern in
    String.eqb originHost domain || Js.endsWith originHost ("." +:+ domain)
  else if Js.includes normalizedPattern "://" then
    match URL.parse normalizedPattern with
    | Some patternUrl => String.eqb (URL.origin originUrl) (URL.origin patternUrl)
    | None => false
    end
  else String.eqb originHost normalizedPattern.

Definition isOriginAllowed (origin : string) (allowedOrigins : list string) : bool :=
  match allowedOrigins with
  | [] => true
  | _ =>
      match URL.parse origin with
      | Some originUrl => List.existsb (matchesPattern originUrl) allowedOrigins
      | None => false
      end
  end.

(** ** api/admin.ts: GET /waitlists/:id/signups/export *)

Definition dquote : ascii := "034"%char.
Definition comma : ascii := ","%char.
Definition LF : ascii := "010"%char.
Definition CR : ascii := "013"%char.

(** [cell.replace] with the global quote pattern: every quote is doubled. *)
Fixpoint doubleQuotes (s : string) : string :=
  match s with
  | EmptyString => EmptyString
  | String c r =>
      if Ascii.eqb c dquote then String dquote (String dquote (doubleQuotes r))
      else String c (doubleQuotes r)
  end.

(** The template that wraps an escaped cell in quotes. *)
Definition quoteCell (cell : string) : string :=
  String dquote (doubleQuotes cell +:+ String dquote EmptyString).

(** [findFirst({ where: eq(waitlists.id, id) })] *)
Definition findWaitlistById (db : Db) (id : string) : option Waitlist.t :=
  List.find (fun w => bool_decide (Waitlist.id w = id)) (waitlists db).

(** [orderBy(asc(signups.position))], ties in table order. *)
Fixpoint insertByPosition (s : Signup.t) (l : list Signup.t) : list Signup.t :=
  match l with
  | [] => [s]
  | x :: r =>
      if Signup.position s <=? Signup.position x then s :: l
      else x :: insertByPosition s r
  end.

Definition orderByPosition (l : list Signup.t) : list Signup.t :=
  List.fold_right insertByPosition [] l.

Section CsvExport.
(** [Date.prototype.toISOString], left to the platform. *)
Variable toISOString : Z -> string.

Definition customFieldKeys (w : Waitlist.t) : list string :=
  List.map key (Waitlist.customFields w).

Definition exportHeaders (w : Waitlist.t) : list string :=
  ["position"; "email"; "status"; "referral_source"]
    ++ customFieldKeys w ++ ["confirmed_at"; "created_at"].

Definition exportRow (keys : list string) (s : Signup.t) : list string :=
  [Js.numToString (Signup.position s);
   Signup.email s;
   statusText (Signup.status s);
   default EmptyString (Js.orNull (Signup.referralSource s))]
    ++ List.map (fun k => default EmptyString (Js.orNull (Signup.customData s !! k))) keys
    ++ [default EmptyString (Js.orNull (toISOString <$> Signup.confirmedAt s));
        toISOString (Signup.createdAt s)].

Definition exportRows (db : Db) (w : Waitlist.t) : list (list string) :=
  List.map (exportRow (customFieldKeys w))
           (orderByPosition (signupsOf db (Waitlist.id w))).

Definition csvLine (row : list string) : string :=
  Js.join (String comma EmptyString) (List.map quoteCell row).

Definition exportCsv (db : Db) (id : string) : Outcome string :=
  match findWaitlistById db id with
  | None => Fail Errors.WaitlistNotFound
  | Some w =>
      Ok (Js.join (String LF EmptyString)
            (Js.join (String comma EmptyString) (exportHeaders w)
               :: List.map csvLine (exportRows db w)))
  end.
End CsvExport.

(** Reading a CSV text back, by the words of the specification
    (RFC 4180): records are separated by a line break (LF, or CR LF),
    fields by commas; a field that starts with a quote runs to its closing
    quote, a doubled quote inside it standing for one quote; a quote
    anywhere else, or a CR that does not start a line break, is
    ill-formed. The last record needs no line break. *)
Module Rfc4180.
Inductive state := FieldStart | Plain | Quoted | AfterQuote.

(** [cur] is the field being read, reversed; [rec] the fields of the
    record being read, reversed; [acc] the records read, reversed. *)
Definition endField (cur : list ascii) (rec : list string) : list string :=
  string_of_list_ascii (List.rev cur) :: rec.

Definition endRecord (cur : list ascii) (rec : list string)
    (acc : list (list string)) : list (list string) :=
  List.rev (endField cur rec) :: acc.

Fixpoint go (input : string) (st : state) (cur : list ascii)
    (rec : list string) (acc : list (list string))
  : option (list (list string)) :=
  match input with
  | EmptyString =>
      match st with
      | Quoted => None
      | _ => Some (List.rev (endRecord cur rec acc))
      end
  | String c rest =>
      match st with
      | Quoted =>
          if Ascii.eqb c dquote then go rest AfterQuote cur rec acc
          else go rest Quoted (c :: cur) rec acc
      | _ =>
          if Ascii.eqb c dquote then
            match st with
            | FieldStart => go rest Quoted cur rec acc
            | AfterQuote => go rest Quoted (c :: cur) rec acc
            | _ => None
            end
          else if Ascii.eqb c comma then
            go rest FieldStart [] (endField cur rec) acc
          else if Ascii.eqb c LF then
            go rest FieldStart [] [] (endRecord cur rec acc)
          else if Ascii.eqb c CR then
            match rest with
            | String c' rest' =>
                if Ascii.eqb c' LF
                then go rest' FieldStart [] [] (endRecord cur rec acc)
                else None
            | EmptyString => None
            end
          else
            match st with
            | AfterQuote => None
            | _ => go rest Plain (c :: cur) rec acc
            end
      end
  end.

Definition parse (csv : string) : option (list (list string)) :=
  go csv FieldStart [] [] [].


Definition statusOfText (s : string) : option Status :=
  if String.eqb s "pending" then Some pending
  else if String.eqb s "confirmed" then Some confirmed
  else if String.eqb s "invited" then Some invited
  else None.

(** The (position, email, status) triple a data record stands for. *)
Definition triple (record : list string) : option (Z * string * Status) :=
  match record with
  | p :: e :: s :: _ =>
      match NilZero.int_of_string p, statusOfText s with
      | Some d, Some st => Some (Z.of_int d, e, st)
      | _, _ => None
      end
  | _ => None
  end.

(** The triples of the data records, the first record being the header. *)
Definition triples (csv : string) : option (list (option (Z * string * Status))) :=
  match parse csv with
  | Some (_ :: records) => Some (List.map triple records)
  | _ => None
  end.
End Rfc4180.

(** ** api/admin.ts: GET /waitlists/:id/stats, the daily series *)

(** A calendar date is its day number, days since 1970-01-01 in UTC:
    for the years 0000 to 9999 [DATE(created_at, 'unixepoch')] and
    [toISOString().split('T')[0]] print a day number as the same
    YYYY-MM-DD text, and different days as different texts, so the keys
    of the date map are the day numbers. *)
Module Daily.
Record t := { date : Z; count : Z; confirmed : Z }.
End Daily.

(** The value of the [created_at] column: epoch seconds. *)
Definition createdAtColumn (s : Signup.t) : Z := Signup.createdAt s / 1000.

(** [DATE(created_at, 'unixepoch')] *)
Definition dayOf (s : Signup.t) : Z := createdAtColumn s / 86400.

(** [currentConditions] *)
Definition inPeriod (id : string) (fromTimestamp toTimestamp : Z) (s : Signup.t) : bool :=
  bool_decide (Signup.waitlistId s = id)
  && (fromTimestamp <=? createdAtColumn s) && (createdAtColumn s <=? toTimestamp).

(** [GROUP BY date ORDER BY date ASC]: the distinct days, ascending. *)
Fixpoint insertDay (d : Z) (l : list Z) : list Z :=
  match l with
  | [] => [d]
  | x :: r =>
      if d <? x then d :: l
      else if d =? x then l
      else x :: insertDay d r
  end.

Definition distinctDays (rows : list Signup.t) : list Z :=
  List.fold_right insertDay [] (List.map dayOf rows).

Definition countWhere (p : Signup.t -> bool) (rows : list Signup.t) : Z :=
  Z.of_nat (List.length (List.filter p rows)).

Definition dailySignupsQuery (db : Db) (id : string) (fromTimestamp toTimestamp : Z)
  : list Daily.t :=
  let rows := List.filter (inPeriod id fromTimestamp toTimestamp) (signups db) in
  List.map (fun d =>
    {| Daily.date := d;
       Daily.count := countWhere (fun s => dayOf s =? d) rows;
       Daily.confirmed :=
         countWhere (fun s => (dayOf s =? d) && isConfirmedOrInvited (Signup.status s)) rows |})
    (distinctDays rows).

(** [new Map(dailySignups.map(d => [d.date, { count, confirmed }]))] *)
Definition dateMapOf (rows : list Daily.t) : gmap Z (Z * Z) :=
  List.fold_left (fun m d => <[Daily.date d := (Daily.count d, Daily.confirmed d)]> m)
                 rows ∅.

(** The loop [for (d = startDate; d <= endDate; d.setUTCDate(d.getUTCDate() + 1))]. *)
Equations? fillDailySignups (dateMap : gmap Z (Z * Z)) (d endDate : Z)
  : list Daily.t by wf (Z.to_nat (endDate - d + 1)) lt :=
  fillDailySignups dateMap d endDate with decide (d <= endDate) => {
    | left _ :=
        {| Daily.date := d;
           Daily.count := match dateMap !! d with Some data => fst data | None => 0 end;
           Daily.confirmed := match dateMap !! d with Some data => snd data | None => 0 end |}
          :: fillDailySignups dateMap (d + 1) endDate;
    | right _ := [] }.
Proof. lia. Qed.

(** The [dailySignups] member of the stats response for the range of
    days [fromDay .. toDay]. *)
Definition dailySeries (db : Db) (id : string) (fromDay toDay : Z)
  : Outcome (list Daily.t) :=
  match findWaitlistById db id with
  | None => Fail Errors.WaitlistNotFound
  | Some _ =>
      let fromTimestamp := fromDay * 86400 in
      let toTimestamp := (toDay * 86400000 + 86399999) / 1000 in
      Ok (fillDailySignups
            (dateMapOf (dailySignupsQuery db id fromTimestamp toTimestamp))
            fromDay toDay)
  end.

(** ** Vocabulary of the properties *)

(** The primary key of the signups table. *)
Definition uniqueIds (db : Db) : Prop :=
  NoDup (List.map Signup.id (signups db)).

(** Two versions of a row that agree on every column but [status] and
    [confirmedAt]. *)
Definition sameButStatusAndConfirmedAt (a b : Signup.t) : Prop :=
  Signup.id a = Signup.id b
  /\ Signup.waitlistId a = Signup.waitlistId b
  /\ Signup.email a = Signup.email b
  /\ Signup.position a = Signup.position b
  /\ Signup.customData a = Signup.customData b
  /\ Signup.referralSource a = Signup.referralSource b
  /\ Signup.ipAddress a = Signup.ipAddress b
  /\ Signup.userAgent a = Signup.userAgent b
  /\ Signup.confirmationToken a = Signup.confirmationToken b
  /\ Signup.createdAt a = Signup.createdAt b.

(** What the admin patch with body [body] on the signup [signupId] may
    do to a row: only [status] and [confirmedAt] move, [confirmedAt] only
    from null to the current time and only for a patch to confirmed. *)
Definition patchedRow (o : Oracle) (signupId : string) (body : option Status)
    (old new : Signup.t) : Prop :=
  sameButStatusAndConfirmedAt old new
  /\ (Signup.confirmedAt new <> Signup.confirmedAt old ->
        body = Some confirmed /\ Signup.confirmedAt old = None
        /\ Signup.confirmedAt new = Some (now o) /\ Signup.id old = signupId)
  /\ (Signup.status new <> Signup.status old ->
        body = Some (Signup.status new) /\ Signup.id old = signupId).

(** A confirmation token is held only by pending rows. *)
Definition tokenOnlyWhilePending (db : Db) : Prop :=
  forall s, s ∈ signups db ->
    Signup.confirmationToken s <> None -> Signup.status s = pending.


(** The positions of a waitlist are 1, 2, ..., n in some order. *)
Definition contiguous (db : Db) (wid : string) : Prop :=
  Permutation (List.map Signup.position (signupsOf db wid))
              (List.map Z.of_nat (List.seq 1 (List.length (signupsOf db wid)))).

(** Number of rows of a waitlist that are confirmed or invited. *)
Definition confirmedOrInvitedCount (db : Db) (wid : string) : Z :=
  Z.of_nat (List.length
    (List.filter (fun s => isConfirmedOrInvited (Signup.status s))
                 (signupsOf db wid))).

(** ** Sample data *)

Module Sample.
Definition beta : Waitlist.t :=
  {| Waitlist.id := "w1"; Waitlist.name := "Beta"; Waitlist.slug := "beta";
     Waitlist.logoUrl := None; Waitlist.primaryColor := Some "#6366f1";
     Waitlist.doubleOptIn := Some true; Waitlist.redirectUrl := None;
     Waitlist.customFields := []; Waitlist.notifyOnSignup := Some true;
     Waitlist.notifyEmail := None; Waitlist.webhookUrl := None;
     Waitlist.allowedOrigins := []; Waitlist.createdAt := 0 |}.

(** The same waitlist without double opt-in. *)
Definition open : Waitlist.t :=
  {| Waitlist.id := "w2"; Waitlist.name := "Open"; Waitlist.slug := "open";
     Waitlist.logoUrl := None; Waitlist.primaryColor := Some "#6366f1";
     Waitlist.doubleOptIn := Some false; Waitlist.redirectUrl := None;
     Waitlist.customFields := []; Waitlist.notifyOnSignup := Some true;
     Waitlist.notifyEmail := None; Waitlist.webhookUrl := None;
     Waitlist.allowedOrigins := []; Waitlist.createdAt := 0 |}.

Definition row (id wid email : string) (position : Z) (st : Status)
    (token : option string) (confirmedAt : option Z) (createdAt : Z) : Signup.t :=
  {| Signup.id := id; Signup.waitlistId := wid; Signup.email := email;
     Signup.position := position; Signup.status := st;
     Signup.customData := ∅; Signup.referralSource := None;
     Signup.ipAddress := None; Signup.userAgent := None;
     Signup.confirmationToken := token; Signup.confirmedAt := confirmedAt;
     Signup.createdAt := createdAt |}.

Definition env : Env :=
  {| RESEND_API_KEY := Some "re_key"; RESEND_FROM_EMAIL := Some "hello@example.com" |}.

Definition oracle (t : Z) (uuid token : string) : Oracle :=
  {| now := t; randomUUID := uuid; generateToken := token;
     confirmationSends := true; welcomeSends := true; adminSends := true;
     mailError := "fetch failed" |}.

Definition request (slug email : string) (ip : option string) : Req.t :=
  {| Req.slug := slug;
     Req.json := {| Req.email := email; Req.customData := None;
                    Req.referralSource := None |};
     Req.cfConnectingIp := ip; Req.xForwardedFor := None;
     Req.userAgent := None |}.

(** One pending signup on [beta] that holds the token [tok-a]. *)
Definition db : Db :=
  {| waitlists := [beta; open];
     signups := [row "s1" "w1" "a@example.com" 1 pending (Some "tok-a") None 1000] |}.
End Sample.

Module Invited.
(** Waitlist [open] with one confirmed and one invited signup. *)
Definition db : Db :=
  {| waitlists := [Sample.beta; Sample.open];
     signups := [Sample.row "s1" "w2" "a@example.com" 1 confirmed None (Some 900) 800;
                 Sample.row "s2" "w2" "b@example.com" 2 invited None (Some 950) 850] |}.
End Invited.

Module Outage.

End Outage.

(** Number of requests of a run that carry the limiter key [k]. *)
Definition countKey (k : string) (reqs : list (Req.t * Z * Z)) : Z :=
  Z.of_nat (List.length
    (List.filter (fun q => bool_decide (signupKey q.1.1 = k)) reqs)).

Module Burst.
Definition alice : Req.t := Sample.request "beta" "a@example.com" (Some "203.0.113.7").
Definition bob : Req.t := Sample.request "beta" "b@example.com" (Some "198.51.100.9").

(** Ten more requests of [alice], one of [bob] among them, one minute
    apart, after a first one at time 0. *)
Definition rest : list (Req.t * Z * Z) :=
  [(alice, 60000, 60000); (alice, 120000, 120000); (alice, 180000, 180000);
   (bob, 200000, 200000);
   (alice, 240000, 240000); (alice, 300000, 300000); (alice, 360000, 360000);
   (alice, 420000, 420000); (alice, 480000, 480000); (alice, 540000, 540000);
   (alice, 600000, 600001)].
End Burst.

(** One entry of the filled series, read off the map of the days that
    had signups. *)
Definition dailyEntry (dateMap : gmap Z (Z * Z)) (d : Z) : Daily.t :=
  {| Daily.date := d;
     Daily.count := match dateMap !! d with Some data => fst data | None => 0 end;
     Daily.confirmed := match dateMap !! d with Some data => snd data | None => 0 end |}.

(** The days [a], [a + 1], ..., [b]. *)
Definition daysBetween (a b : Z) : list Z :=
  List.map (fun i => a + Z.of_nat i) (List.seq 0 (Z.to_nat (b - a + 1))).

Module TwoDays.
(** Signups on day 3 and on day 7 only. *)
Definition db : Db :=
  {| waitlists := [Sample.beta];
     signups := [Sample.row "s1" "w1" "a@example.com" 1 confirmed None (Some 260000000)
                   (3 * 86400000 + 5000);
                 Sample.row "s2" "w1" "b@example.com" 2 pending (Some "tok-b") None
                   (7 * 86400000 + 86399000)] |}.
End TwoDays.



Definition customField (k : string) : CustomField :=
  {| key := k; label := k; type := text; required := false;
     placeholder := None; options := None |}.

Module OddKeys.
(** A waitlist whose one custom field has a line break in its key. *)
Definition broken : Waitlist.t :=
  {| Waitlist.id := "w3"; Waitlist.name := "Gamma"; Waitlist.slug := "gamma";
     Waitlist.logoUrl := None; Waitlist.primaryColor := None;
     Waitlist.doubleOptIn := Some false; Waitlist.redirectUrl := None;
     Waitlist.customFields := [customField ("team" +:+ String LF "size")];
     Waitlist.notifyOnSignup := Some true;
     Waitlist.notifyEmail := None; Waitlist.webhookUrl := None;
     Waitlist.allowedOrigins := []; Waitlist.createdAt := 0 |}.

(** The same with a quote in the key. *)
Definition quoted : Waitlist.t :=
  {| Waitlist.id := "w4"; Waitlist.name := "Delta"; Waitlist.slug := "delta";
     Waitlist.logoUrl := None; Waitlist.primaryColor := None;
     Waitlist.doubleOptIn := Some false; Waitlist.redirectUrl := None;
     Waitlist.customFields := [customField (String dquote "nick")];
     Waitlist.notifyOnSignup := Some true;
     Waitlist.notifyEmail := None; Waitlist.webhookUrl := None;
     Waitlist.allowedOrigins := []; Waitlist.createdAt := 0 |}.

Definition db : Db :=
  {| waitlists := [broken; quoted];
     signups := [Sample.row "s1" "w3" "a@example.com" 1 confirmed None (Some 900) 800;
                 Sample.row "s2" "w4" "b@example.com" 1 confirmed None (Some 950) 850] |}.

Definition iso (t : Z) : string := "1970-01-01T00:00:00.000Z".
End OddKeys.


(** * Further code of the worker, and further vocabulary *)

(** The columns of a row that no handler rewrites. *)
Definition identity (s : Signup.t) : string * string * string * Z * Z :=
  (Signup.id s, Signup.waitlistId s, Signup.email s, Signup.position s,
   Signup.createdAt s).



(** The token [tok] is held by no row of the waitlist. *)
Definition tokenUnused (db : Db) (wid tok : string) : Prop :=
  forall r, r ∈ signups db -> Signup.waitlistId r = wid ->
            Signup.confirmationToken r <> Some tok.

(** The [signupCount] member of the public status response. *)
Definition signupCountOf (db : Db) (slug : string) : option JVal :=
  match statusEndpoint db slug with
  | Ok r => field "signupCount" r
  | _ => None
  end.

(** The test the custom-field loop makes on a field's submitted value:
    [!value || value.trim() === ""]. *)
Definition blankField (data : option (gmap string string)) (f : CustomField) : bool :=
  let value := data ≫= (fun m => m !! key f) in
  negb (Js.truthy value) || String.eqb (Js.trim (default EmptyString value)) EmptyString.

(** ** lib/utils.ts: generateToken, slugify *)

(** A hexadecimal digit, as [Number.prototype.toString(16)] prints it. *)
Definition hexDigit (n : Z) : ascii :=
  if n <? 10 then ascii_of_nat (Z.to_nat (48 + n))
  else ascii_of_nat (Z.to_nat (87 + n)).

(** [b.toString(16)] for an element [b] of a [Uint8Array]. *)
Definition byteToString16 (b : Z) : string :=
  if b <? 16 then String (hexDigit b) EmptyString
  else String (hexDigit (b / 16)) (String (hexDigit (b mod 16)) EmptyString).

(** [s.padStart(2, "0")] *)
Definition padStart2 (s : string) : string :=
  match s with
  | EmptyString => "00"
  | String c EmptyString => String "0"%char s
  | _ => s
  end.

(** The body of [generateToken] (and the tail of [hashString]): the
    bytes drawn from the platform, two hexadecimal digits each, joined. *)
Definition hexOfBytes (bytes : list Z) : string :=
  Js.join EmptyString (List.map (fun b => padStart2 (byteToString16 b)) bytes).

(** Reading hexadecimal digits back, two per byte. *)
Definition hexValue (c : ascii) : option Z :=
  let n := Z.of_nat (Js.code c) in
  if (48 <=? n) && (n <=? 57) then Some (n - 48)
  else if (97 <=? n) && (n <=? 102) then Some (n - 87)
  else None.

Fixpoint bytesOfHex (s : string) : option (list Z) :=
  match s with
  | EmptyString => Some []
  | String hi (String lo rest) =>
      match hexValue hi, hexValue lo, bytesOfHex rest with
      | Some h, Some l, Some bs => Some (16 * h + l :: bs)
      | _, _, _ => None
      end
  | String _ EmptyString => None
  end.

(** The regex class [\w]. *)
Definition wordChar (c : ascii) : bool :=
  URL.isAlpha c || URL.isDigit c || Ascii.eqb c "_"%char.

(** The class [[\s_-]] of the second replacement. *)
Definition separatorChar (c : ascii) : bool :=
  Js.isSpace c || Ascii.eqb c "_"%char || Ascii.eqb c "-"%char.

(** [.replace(/[^\w\s-]/g, "")]: drop what is no word character, no
    white space and no hyphen. *)
Fixpoint dropSymbols (s : string) : string :=
  match s with
  | EmptyString => EmptyString
  | String c r =>
      if wordChar c || Js.isSpace c || Ascii.eqb c "-"%char
      then String c (dropSymbols r) else dropSymbols r
  end.

(** [.replace(/[\s_-]+/g, "-")]: each maximal run of separators becomes
    one hyphen. [inRun] tells that the character before was a separator. *)
Fixpoint hyphenate (s : string) (inRun : bool) : string :=
  match s with
  | EmptyString => EmptyString
  | String c r =>
      if separatorChar c
      then (if inRun then hyphenate r true else String "-"%char (hyphenate r true))
      else String c (hyphenate r false)
  end.

(** The two alternatives of [/^-+|-+$/g], each replaced by nothing. *)
Fixpoint dropLeadingHyphens (s : string) : string :=
  match s with
  | String c r => if Ascii.eqb c "-"%char then dropLeadingHyphens r else s
  | EmptyString => EmptyString
  end.

Definition dropTrailingHyphens (s : string) : string :=
  String.rev (dropLeadingHyphens (String.rev s)).

Definition slugify (str : string) : string :=
  dropTrailingHyphens
    (dropLeadingHyphens
       (hyphenate (dropSymbols (Js.trim (Js.toLowerCase str))) false)).

(** A slug as [slugify] makes them: lower-case letters, digits and
    single hyphens, none at either end. *)
Definition slugChar (c : ascii) : bool :=
  let n := Js.code c in
  ((97 <=? n)%nat && (n <=? 122)%nat) || URL.isDigit c || Ascii.eqb c "-"%char.

Fixpoint slugBody (s : string) (afterHyphen : bool) : bool :=
  match s with
  | EmptyString => negb afterHyphen
  | String c r =>
      slugChar c
      && (if Ascii.eqb c "-"%char then negb afterHyphen && slugBody r true
          else slugBody r false)
  end.

(** Well-formed: empty, or starting and ending with a letter or digit and
    without two hyphens in a row. *)
Definition slugShaped (s : string) : bool :=
  match s with
  | EmptyString => true
  | _ => slugBody s true
  end.

(** ** middleware/demo-mode.ts and the route POST /api/w/:slug/signup *)

Definition upperChar (c : ascii) : ascii :=
  let n := Js.code c in
  if ((97 <=? n)%nat && (n <=? 122)%nat)
     || ((224 <=? n)%nat && (n <=? 254)%nat && negb (n =? 247)%nat)
  then ascii_of_nat (n - 32) else c.

Fixpoint toUpperCase (s : string) : string :=
  match s with
  | EmptyString => EmptyString
  | String c r => String (upperChar c) (toUpperCase r)
  end.

(** The bindings the guard reads besides those of [Env]. *)
Record AppEnv := { bindings : Env; DEMO_MODE : option string }.

Definition isDemoMode (e : AppEnv) : bool :=
  match DEMO_MODE e with
  | Some s => String.eqb s "true"
  | None => false
  end.

Definition isWriteMethod (method : string) : bool :=
  let m := toUpperCase method in
  String.eqb m "POST" || String.eqb m "PUT" || String.eqb m "PATCH"
  || String.eqb m "DELETE".

Definition demoModeError : AppError :=
  mkAppError 403 "DEMO_MODE"
    "This action is disabled in demo mode. Deploy your own instance to make changes.".

Definition demoModeGuard (e : AppEnv) (method : string) : Outcome unit :=
  if isDemoMode e && isWriteMethod method then Fail demoModeError else Ok tt.

(** What a route answers: the outcome of its handler or of a middleware
    that threw, the bare response of a preflight, or the 400 of the schema
    validator. *)
Inductive Reply :=
| Answer (o : Outcome Response)
| Preflight (status : Z) (headers : list (string * string))
| Invalid.

(** What [dynamicCors] decides before it calls [next]: no Origin header
    (the check is skipped), an allowed origin, or a final reply. *)
Inductive Cors :=
| CorsSkip
| CorsPass (origin : string)
| CorsStop (r : Reply).

Definition dynamicCors (db : Db) (slug method : string) (origin : option string) : Cors :=
  if negb (Js.truthy origin) then CorsSkip
  else
    let o := default EmptyString origin in
    let allowedOrigins :=
      match findWaitlistBySlug db slug with
      | Some w => Waitlist.allowedOrigins w
      | None => []
      end in
    let isAllowed := isOriginAllowed o allowedOrigins in
    if String.eqb method "OPTIONS" then
      if isAllowed
      then CorsStop (Preflight 204
                       [("Access-Control-Allow-Origin", o);
                        ("Access-Control-Allow-Methods", "POST, GET, OPTIONS");
                        ("Access-Control-Allow-Headers", "Content-Type");
                        ("Access-Control-Max-Age", "86400")])
      else CorsStop (Preflight 403 [])
    else if negb isAllowed
    then CorsStop (Answer (Fail (Errors.Forbidden
                     "This domain is not authorized to submit to this waitlist")))
    else CorsPass o.

(** The state the worker keeps between requests. *)
Record World := { database : Db; rateLimitStore : gmap string RateRecord }.

Section SignupRoute.
(** The email check of the schema validator, left to its library. *)
Variable zEmail : string -> bool.

(** The chain of the route: demo-mode guard, CORS check, rate limiter,
    schema validator, handler. [tSweep] and [t] are the clock readings of
    the limiter; the handler reads [now o]. *)
Definition postSignup (e : AppEnv) (o : Oracle) (tSweep t : Z) (w : World)
    (origin : option string) (req : Req.t) : World * list Effect * Reply :=
  match demoModeGuard e "POST" with
  | Fail err => (w, [], Answer (Fail err))
  | Throw m => (w, [], Answer (Throw m))
  | Ok _ =>
      match dynamicCors (database w) (Req.slug req) "POST" origin with
      | CorsStop r => (w, [], r)
      | _ =>
          let '(store, _, limited) := signupRateLimit req tSweep t (rateLimitStore w) in
          match limited with
          | Fail err =>
              ({| database := database w; rateLimitStore := store |}, [],
               Answer (Fail err))
          | Throw m =>
              ({| database := database w; rateLimitStore := store |}, [],
               Answer (Throw m))
          | Ok _ =>
              if zEmail (Req.email (Req.json req)) then
                let h := signup (bindings e) o (database w) req in
                ({| database := dbOf h; rateLimitStore := store |},
                 effectsOf h, Answer (outcomeOf h))
              else
                ({| database := database w; rateLimitStore := store |}, [], Invalid)
          end
      end
  end.
End SignupRoute.

(** ** api/admin.ts: waitlists *)

Definition AlreadyExists (resource : string) : AppError :=
  mkAppError 409 "ALREADY_EXISTS" (resource +:+ " already exists").

(** The body of POST /waitlists, as the schema leaves it; [None] is an
    absent or null member. The email-wording members, which no code
    modelled here reads, are left out. *)
Module NewWaitlist.
Record t := {
  name : string;
  slug : option string;
  logoUrl : option string;
  primaryColor : option string;
  doubleOptIn : option bool;
  redirectUrl : option string;
  customFields : option (list CustomField);
  notifyOnSignup : option bool;
  notifyEmail : option string;
  webhookUrl : option string
}.
End NewWaitlist.

Definition withWaitlists (db : Db) (rows : list Waitlist.t) : Db :=
  {| waitlists := rows; signups := signups db |}.

(** [insert(waitlists).values(row)]: the primary key and the unique slug
    reject a clashing row. *)
Definition insertWaitlist (db : Db) (row : Waitlist.t) : option Db :=
  if List.existsb (fun w => bool_decide (Waitlist.id w = Waitlist.id row)
                            || bool_decide (Waitlist.slug w = Waitlist.slug row))
                  (waitlists db)
  then None
  else Some (withWaitlists db (waitlists db ++ [row])).

Definition createdSlug (body : NewWaitlist.t) : string :=
  if Js.truthy (NewWaitlist.slug body)
  then default EmptyString (NewWaitlist.slug body)
  else slugify (NewWaitlist.name body).

Definition newWaitlistRow (o : Oracle) (body : NewWaitlist.t) : Waitlist.t :=
  {| Waitlist.id := randomUUID o;
     Waitlist.name := NewWaitlist.name body;
     Waitlist.slug := createdSlug body;
     Waitlist.logoUrl := NewWaitlist.logoUrl body;
     Waitlist.primaryColor :=
       Some (if Js.truthy (NewWaitlist.primaryColor body)
             then default EmptyString (NewWaitlist.primaryColor body)
             else "#6366f1");
     Waitlist.doubleOptIn := Some (default true (NewWaitlist.doubleOptIn body));
     Waitlist.redirectUrl := NewWaitlist.redirectUrl body;
     Waitlist.customFields := default [] (NewWaitlist.customFields body);
     Waitlist.notifyOnSignup := Some (default true (NewWaitlist.notifyOnSignup body));
     Waitlist.notifyEmail := NewWaitlist.notifyEmail body;
     Waitlist.webhookUrl := NewWaitlist.webhookUrl body;
     Waitlist.allowedOrigins := [];
     Waitlist.createdAt := now o |}.

(** POST /waitlists *)
Definition createWaitlist (o : Oracle) (db : Db) (body : NewWaitlist.t)
  : Db * Outcome Waitlist.t :=
  match findWaitlistBySlug db (createdSlug body) with
  | Some _ => (db, Fail (AlreadyExists "Waitlist with this slug"))
  | None =>
      match insertWaitlist db (newWaitlistRow o body) with
      | Some db' => (db', Ok (newWaitlistRow o body))
      | None => (db, Throw "UNIQUE constraint failed")
      end
  end.

(** The body of PATCH /waitlists/:id: every member may be absent
    ([None]); the nullable ones may also be null ([Some None]). *)
Module WaitlistPatch.
Record t := {
  name : option string;
  slug : option string;
  logoUrl : option (option string);
  primaryColor : option (option string);
  doubleOptIn : option (option bool);
  redirectUrl : option (option string);
  customFields : option (option (list CustomField));
  notifyOnSignup : option (option bool);
  notifyEmail : option (option string);
  webhookUrl : option (option string);
  allowedOrigins : option (option (list string))
}.
End WaitlistPatch.

(** [.set({ ...body, updatedAt })]: a member that is present replaces
    the column; a null list column reads back as no entries. *)
Definition applyPatch (body : WaitlistPatch.t) (w : Waitlist.t) : Waitlist.t :=
  {| Waitlist.id := Waitlist.id w;
     Waitlist.name := default (Waitlist.name w) (WaitlistPatch.name body);
     Waitlist.slug := default (Waitlist.slug w) (WaitlistPatch.slug body);
     Waitlist.logoUrl := default (Waitlist.logoUrl w) (WaitlistPatch.logoUrl body);
     Waitlist.primaryColor :=
       default (Waitlist.primaryColor w) (WaitlistPatch.primaryColor body);
     Waitlist.doubleOptIn :=
       default (Waitlist.doubleOptIn w) (WaitlistPatch.doubleOptIn body);
     Waitlist.redirectUrl :=
       default (Waitlist.redirectUrl w) (WaitlistPatch.redirectUrl body);
     Waitlist.customFields :=
       match WaitlistPatch.customFields body with
       | Some v => default [] v
       | None => Waitlist.customFields w
       end;
     Waitlist.notifyOnSignup :=
       default (Waitlist.notifyOnSignup w) (WaitlistPatch.notifyOnSignup body);
     Waitlist.notifyEmail :=
       default (Waitlist.notifyEmail w) (WaitlistPatch.notifyEmail body);
     Waitlist.webhookUrl :=
       default (Waitlist.webhookUrl w) (WaitlistPatch.webhookUrl body);
     Waitlist.allowedOrigins :=
       match WaitlistPatch.allowedOrigins body with
       | Some v => default [] v
       | None => Waitlist.allowedOrigins w
       end;
     Waitlist.createdAt := Waitlist.createdAt w |}.

(** [update(waitlists).set(..).where(eq(waitlists.id, id))]; the unique
    slug rejects an update that would give two rows one slug. *)
Definition updateWaitlistRows (db : Db) (id : string) (f : Waitlist.t -> Waitlist.t)
  : option Db :=
  let rows := List.map (fun w => if bool_decide (Waitlist.id w = id) then f w else w)
                       (waitlists db) in
  if bool_decide (NoDup (List.map Waitlist.slug rows))
  then Some (withWaitlists db rows)
  else None.

(** PATCH /waitlists/:id *)
Definition updateWaitlist (db : Db) (id : string) (body : WaitlistPatch.t)
  : Db * Outcome Waitlist.t :=
  match findWaitlistById db id with
  | None => (db, Fail Errors.WaitlistNotFound)
  | Some existing =>
      if Js.truthy (WaitlistPatch.slug body)
         && negb (String.eqb (default EmptyString (WaitlistPatch.slug body))
                             (Waitlist.slug existing))
         && bool_decide (is_Some (findWaitlistBySlug db
                           (default EmptyString (WaitlistPatch.slug body))))
      then (db, Fail (AlreadyExists "Waitlist with this slug"))
      else
        match updateWaitlistRows db id (applyPatch body) with
        | Some db' =>
            match findWaitlistById db' id with
            | Some updated => (db', Ok updated)
            | None => (db', Throw "no row returned")
            end
        | None => (db, Throw "UNIQUE constraint failed")
        end
  end.

(** DELETE /waitlists/:id; the foreign key of the signups table is
    declared [onDelete: "cascade"]. *)
Definition deleteWaitlist (db : Db) (id : string) : Db * Outcome unit :=
  match findWaitlistById db id with
  | None => (db, Fail Errors.WaitlistNotFound)
  | Some _ =>
      ({| waitlists :=
            List.filter (fun w => negb (bool_decide (Waitlist.id w = id))) (waitlists db);
          signups :=
            List.filter (fun s => negb (bool_decide (Signup.waitlistId s = id)))
                        (signups db) |},
       Ok tt)
  end.

(** One element of the response of GET /waitlists. *)
Module Listed.
Record t := { waitlist : Waitlist.t; signupCount : Z; confirmedCount : Z }.
End Listed.

(** The value of the [created_at] column of a waitlist: epoch seconds. *)
Definition createdColumn (w : Waitlist.t) : Z := Waitlist.createdAt w / 1000.

(** [orderBy(desc(waitlists.createdAt))], ties in table order. *)
Fixpoint insertByCreatedDesc (w : Waitlist.t) (l : list Waitlist.t) : list Waitlist.t :=
  match l with
  | [] => [w]
  | x :: r =>
      if createdColumn x <=? createdColumn w then w :: l
      else x :: insertByCreatedDesc w r
  end.

(** GET /waitlists: the left join with the signups, grouped by waitlist
    id; a waitlist without signups joins one all-null row, which neither
    [COUNT(signups.id)] nor the [SUM(CASE ..)] counts. *)
Definition listWaitlists (db : Db) : list Listed.t :=
  List.map (fun w =>
    {| Listed.waitlist := w;
       Listed.signupCount := Z.of_nat (List.length (signupsOf db (Waitlist.id w)));
       Listed.confirmedCount := confirmedOrInvitedCount db (Waitlist.id w) |})
    (List.fold_right insertByCreatedDesc [] (waitlists db)).

(** The keys of the waitlists table, and the foreign key of the signups. *)
Definition uniqueWaitlistIds (db : Db) : Prop :=
  NoDup (List.map Waitlist.id (waitlists db)).

Definition uniqueSlugs (db : Db) : Prop :=
  NoDup (List.map Waitlist.slug (waitlists db)).

Definition noOrphans (db : Db) : Prop :=
  forall s, s ∈ signups db ->
    exists w, w ∈ waitlists db /\ Waitlist.id w = Signup.waitlistId s.

(** ** api/admin.ts: GET /waitlists/:id/signups *)

(** The query string, the numbers as [parseInt] reads them. *)
Module SignupsQuery.
Record t := {
  page : option Z;
  limit : option Z;
  search : option string;
  status : option Status;
  sort : option string;
  order : option string
}.
End SignupsQuery.

(** ASCII case folding of SQLite's [LIKE]. *)
Definition foldAscii (c : ascii) : ascii :=
  let n := Js.code c in
  if (65 <=? n)%nat && (n <=? 90)%nat then ascii_of_nat (n + 32) else c.

(** SQLite's [LIKE] without an escape character: [%] stands for any run
    of characters, [_] for any one, letters match without regard to case. *)
Fixpoint like (pattern s : string) {struct pattern} : bool :=
  match pattern with
  | EmptyString => match s with EmptyString => true | _ => false end
  | String p rest =>
      if Ascii.eqb p "%"%char then
        (fix anywhere (s : string) : bool :=
           like rest s
           || match s with
              | EmptyString => false
              | String _ r => anywhere r
              end) s
      else
        match s with
        | EmptyString => false
        | String c r =>
            (Ascii.eqb p "_"%char || Ascii.eqb (foldAscii p) (foldAscii c))
            && like rest r
        end
  end.

(** The [conditions] of the listing. *)
Definition listed (id : string) (q : SignupsQuery.t) (s : Signup.t) : bool :=
  bool_decide (Signup.waitlistId s = id)
  && (let search := Js.trim <$> SignupsQuery.search q in
      if Js.truthy search
      then like ("%" +:+ default EmptyString search +:+ "%") (Signup.email s)
      else true)
  && match SignupsQuery.status q with
     | Some st => bool_decide (Signup.status s = st)
     | None => true
     end.

(** [a] sorts no later than [b] by the chosen column, ascending. *)
Definition columnLeb (sort : string) (a b : Signup.t) : bool :=
  if String.eqb sort "email" then String.leb (Signup.email a) (Signup.email b)
  else if String.eqb sort "status"
  then String.leb (statusText (Signup.status a)) (statusText (Signup.status b))
  else if String.eqb sort "createdAt"
  then createdAtColumn a <=? createdAtColumn b
  else Signup.position a <=? Signup.position b.

Fixpoint insertBy (leb : Signup.t -> Signup.t -> bool) (s : Signup.t)
    (l : list Signup.t) : list Signup.t :=
  match l with
  | [] => [s]
  | x :: r => if leb s x then s :: l else x :: insertBy leb s r
  end.

(** [orderBy(orderFn(orderColumn))]; the order is descending unless the
    query says [asc]. *)
Definition orderedBy (q : SignupsQuery.t) (l : list Signup.t) : list Signup.t :=
  let sort := if Js.truthy (SignupsQuery.sort q)
              then default EmptyString (SignupsQuery.sort q) else "position" in
  let asc := bool_decide (SignupsQuery.order q = Some "asc") in
  List.fold_right
    (insertBy (fun a b => if asc then columnLeb sort a b else columnLeb sort b a))
    [] l.

Definition pageOf (q : SignupsQuery.t) : Z :=
  Z.max 1 (default 1 (SignupsQuery.page q)).

Definition limitOf (q : SignupsQuery.t) : Z :=
  Z.min 100 (Z.max 1 (default 50 (SignupsQuery.limit q))).

Module Page.
Record t := {
  signups : list Signup.t;
  page : Z;
  limit : Z;
  total : Z;
  totalPages : Z
}.
End Page.

(** All the rows the listing selects, in its order. *)
Definition listingRows (db : Db) (id : string) (q : SignupsQuery.t) : list Signup.t :=
  orderedBy q (List.filter (listed id q) (signups db)).

Definition listSignups (db : Db) (id : string) (q : SignupsQuery.t) : Outcome Page.t :=
  match findWaitlistById db id with
  | None => Fail Errors.WaitlistNotFound
  | Some _ =>
      let page := pageOf q in
      let limit := limitOf q in
      let total := Z.of_nat (List.length (List.filter (listed id q) (signups db))) in
      Ok {| Page.signups :=
              List.firstn (Z.to_nat limit)
                (List.skipn (Z.to_nat ((page - 1) * limit)) (listingRows db id q));
            Page.page := page;
            Page.limit := limit;
            Page.total := total;
            Page.totalPages := ceilDiv total limit |}
  end.

(** The same query asking for page [p]. *)
Definition atPage (q : SignupsQuery.t) (p : Z) : SignupsQuery.t :=
  {| SignupsQuery.page := Some p;
     SignupsQuery.limit := SignupsQuery.limit q;
     SignupsQuery.search := SignupsQuery.search q;
     SignupsQuery.status := SignupsQuery.status q;
     SignupsQuery.sort := SignupsQuery.sort q;
     SignupsQuery.order := SignupsQuery.order q |}.

Definition pageRows (db : Db) (id : string) (q : SignupsQuery.t) (p : Z)
  : list Signup.t :=
  match listSignups db id (atPage q p) with
  | Ok pg => Page.signups pg
  | _ => []
  end.

(** ** api/admin.ts: GET /waitlists/:id/stats, the counts *)

Module Counts.
Record t := { total : Z; pending : Z; confirmed : Z; invited : Z }.
Definition zero : t := {| total := 0; pending := 0; confirmed := 0; invited := 0 |}.
End Counts.

(** [SELECT status, COUNT( * ) .. GROUP BY status]: one row per status
    that occurs. *)
Definition statusCountsQuery (rows : list Signup.t) : list (Status * Z) :=
  List.filter (fun r => 0 <? snd r)
    (List.map (fun st => (st, countWhere (fun s => bool_decide (Signup.status s = st)) rows))
              [confirmed; invited; pending]).

(** The loop [counts[row.status] = row.count; counts.total += row.count]. *)
Definition tallyRow (c : Counts.t) (row : Status * Z) : Counts.t :=
  let n := snd row in
  match fst row with
  | pending =>
      {| Counts.total := Counts.total c + n; Counts.pending := n;
         Counts.confirmed := Counts.confirmed c; Counts.invited := Counts.invited c |}
  | confirmed =>
      {| Counts.total := Counts.total c + n; Counts.pending := Counts.pending c;
         Counts.confirmed := n; Counts.invited := Counts.invited c |}
  | invited =>
      {| Counts.total := Counts.total c + n; Counts.pending := Counts.pending c;
         Counts.confirmed := Counts.confirmed c; Counts.invited := n |}
  end.

Definition tally (rows : list (Status * Z)) : Counts.t :=
  List.fold_left tallyRow rows Counts.zero.

Module Stats.
Record t := {
  current : Counts.t;
  previous : Counts.t;
  allTime : Counts.t;
  dailySignups : list Daily.t
}.
End Stats.

(** The counts and the daily series of the stats response for the days
    [fromDay .. toDay]; [compare] is the query member of that name. *)
Definition waitlistStats (db : Db) (id : string) (fromDay toDay : Z)
    (compare : option string) : Outcome Stats.t :=
  match findWaitlistById db id with
  | None => Fail Errors.WaitlistNotFound
  | Some _ =>
      let fromTimestamp := fromDay * 86400 in
      let toTimestamp := (toDay * 86400000 + 86399999) / 1000 in
      let periodLength := toTimestamp - fromTimestamp in
      let prevFromTimestamp := fromTimestamp - periodLength in
      let prevToTimestamp := fromTimestamp - 1 in
      Ok {| Stats.current :=
              tally (statusCountsQuery
                       (List.filter (inPeriod id fromTimestamp toTimestamp) (signups db)));
            Stats.previous :=
              if bool_decide (compare = Some "true")
              then tally (statusCountsQuery
                            (List.filter (inPeriod id prevFromTimestamp prevToTimestamp)
                                         (signups db)))
              else Counts.zero;
            Stats.allTime := tally (statusCountsQuery (signupsOf db id));
            Stats.dailySignups :=
              fillDailySignups
                (dateMapOf (dailySignupsQuery db id fromTimestamp toTimestamp))
                fromDay toDay |}
  end.

Definition sumZ (l : list Z) : Z := List.fold_right Z.add 0 l.

(** The constraints the schema declares across the two tables: the
    primary key and the unique slug of the waitlists, and the foreign key
    of the signups. *)
Definition constraintsHold (db : Db) : Prop :=
  uniqueWaitlistIds db /\ uniqueSlugs db /\ noOrphans db.

(** What the schema of PATCH /waitlists/:id lets through as a slug: none,
    or one of at least one character. *)
Definition slugAbsentOrFilled (body : WaitlistPatch.t) : Prop :=
  WaitlistPatch.slug body <> Some EmptyString.

Module Launch.
(** A body that names no slug, and a patch that asks for the slug of
    another waitlist. *)
Definition body : NewWaitlist.t :=
  {| NewWaitlist.name := "Launch List!"; NewWaitlist.slug := None;
     NewWaitlist.logoUrl := None; NewWaitlist.primaryColor := None;
     NewWaitlist.doubleOptIn := None; NewWaitlist.redirectUrl := None;
     NewWaitlist.customFields := None; NewWaitlist.notifyOnSignup := None;
     NewWaitlist.notifyEmail := None; NewWaitlist.webhookUrl := None |}.

Definition reslug (s : string) : WaitlistPatch.t :=
  {| WaitlistPatch.name := None; WaitlistPatch.slug := Some s;
     WaitlistPatch.logoUrl := None; WaitlistPatch.primaryColor := None;
     WaitlistPatch.doubleOptIn := None; WaitlistPatch.redirectUrl := None;
     WaitlistPatch.customFields := None; WaitlistPatch.notifyOnSignup := None;
     WaitlistPatch.notifyEmail := None; WaitlistPatch.webhookUrl := None;
     WaitlistPatch.allowedOrigins := None |}.
End Launch.

(** The origins a request to [slug] is checked against, and whether the
    CORS check lets a request with that Origin header through. *)
Definition originsFor (db : Db) (slug : string) : list string :=
  match findWaitlistBySlug db slug with
  | Some w => Waitlist.allowedOrigins w
  | None => []
  end.

Definition originAdmitted (db : Db) (slug : string) (origin : option string) : bool :=
  negb (Js.truthy origin)
  || isOriginAllowed (default EmptyString origin) (originsFor db slug).

(** Slug characters without two hyphens in a row; [afterHyphen] tells
    that the character before was a hyphen. *)
Fixpoint hyphensSingle (s : string) (afterHyphen : bool) : bool :=
  match s with
  | EmptyString => true
  | String c r =>
      slugChar c
      && (if Ascii.eqb c "-"%char then negb afterHyphen && hyphensSingle r true
          else hyphensSingle r false)
  end.

(** An ASCII letter or digit. *)
Definition alphanumeric (c : ascii) : bool := URL.isAlpha c || URL.isDigit c.

Definition isUpper (c : ascii) : bool :=
  (65 <=? Js.code c)%nat && (Js.code c <=? 90)%nat.

(** What [dropSymbols] keeps. *)
Definition keptBySlugify (c : ascii) : bool :=
  wordChar c || Js.isSpace c || Ascii.eqb c "-"%char.

(** Every stored email passed [isValidEmail] and is in the form
    [normalizeEmail] gives. *)
Definition emailsClean (db : Db) : Prop :=
  Forall (fun e => isValidEmail e = true /\ normalizeEmail e = e)
         (List.map Signup.email (signups db)).

(** ** middleware/auth.ts *)

Definition Unauthorized : AppError :=
  mkAppError 401 "UNAUTHORIZED" "Authentication required".

(** [s.split(sep)] for a separator of one character: the pieces between
    the separators, at least one. *)
Fixpoint splitOn (sep : ascii) (s : string) : list string :=
  match s with
  | EmptyString => [EmptyString]
  | String c r =>
      if Ascii.eqb c sep then EmptyString :: splitOn sep r
      else match splitOn sep r with
           | x :: xs => String c x :: xs
           | [] => [String c EmptyString]
           end
  end.

(** The loop of [getCookie]: the first cookie whose text before its
    first [=] is the name ends the search, with what stands between its
    first and second [=], or with nothing when it has no [=]. *)
Fixpoint findCookie (name : string) (cookies : list string) : option string :=
  match cookies with
  | [] => None
  | cookie :: rest =>
      match splitOn "="%char cookie with
      | key :: more =>
          if String.eqb key name then List.head more else findCookie name rest
      | [] => findCookie name rest
      end
  end.

Definition getCookie (cookieHeader : option string) (name : string) : option string :=
  if negb (Js.truthy cookieHeader) then None
  else findCookie name
         (List.map Js.trim (splitOn ";"%char (default EmptyString cookieHeader))).

(** The bindings of Cloudflare Access. *)
Record Access := {
  CF_ACCESS_TEAM_DOMAIN : option string;
  CF_ACCESS_AUD : option string
}.

(** What the admin middleware reads of a request. *)
Module AdminReq.
Record t := {
  method : string;
  cfAccessJwtAssertion : option string;
  cookie : option string
}.
End AdminReq.

(** The user set in the context; the two times of the token, which no
    handler reads, are left out. *)
Module AccessUser.
Record t := { email : string; sub : string }.
End AccessUser.

Definition devUser : AccessUser.t :=
  {| AccessUser.email := "dev@localhost"; AccessUser.sub := "local-dev" |}.

Definition accessConfigured (a : Access) : bool :=
  Js.truthy (CF_ACCESS_TEAM_DOMAIN a) && Js.truthy (CF_ACCESS_AUD a).

(** The JWT from the header (preferred) or the cookie. *)
Definition accessToken (req : AdminReq.t) : option string :=
  if Js.truthy (AdminReq.cfAccessJwtAssertion req)
  then AdminReq.cfAccessJwtAssertion req
  else getCookie (AdminReq.cookie req) "CF_Authorization".

Section AdminRoutes.
(** [getJWKS] and [jwtVerify] of the jose library, on the token, the
    issuer and the audience: the user of the payload, or nothing when
    either throws. *)
Variable jwtVerify : string -> string -> string -> option AccessUser.t.

Definition requireAuth (a : Access) (req : AdminReq.t) : Outcome AccessUser.t :=
  if negb (Js.truthy (CF_ACCESS_TEAM_DOMAIN a)) || negb (Js.truthy (CF_ACCESS_AUD a))
  then Ok devUser
  else
    let token := accessToken req in
    if negb (Js.truthy token) then Fail Unauthorized
    else
      match jwtVerify (default EmptyString token)
                      (default EmptyString (CF_ACCESS_TEAM_DOMAIN a))
                      (default EmptyString (CF_ACCESS_AUD a)) with
      | Some user => Ok user
      | None => Fail Unauthorized
      end.

(** A route under /api/admin other than /auth: the demo-mode guard of
    the application, the authentication of the admin routes, then the
    handler with its validator. *)
Definition adminRoute {A : Type} (e : AppEnv) (a : Access) (req : AdminReq.t)
    (handler : Db -> Db * Outcome A) (db : Db) : Db * Outcome A :=
  match demoModeGuard e (AdminReq.method req) with
  | Fail err => (db, Fail err)
  | Throw m => (db, Throw m)
  | Ok _ =>
      match requireAuth a req with
      | Fail err => (db, Fail err)
      | Throw m => (db, Throw m)
      | Ok _ => handler db
      end
  end.
End AdminRoutes.

(** A Cookie header as a browser writes it: [name=value] pairs joined by
    a semicolon and a space. *)
Definition cookieHeaderOf (pairs : list (string * string)) : string :=
  Js.join "; " (List.map (fun kv => fst kv +:+ "=" +:+ snd kv) pairs).

(** A cookie name or value without white space, semicolon or equals
    sign. *)
Definition cookieText (s : string) : bool :=
  URL.all (fun c => negb (Js.isSpace c) && negb (Ascii.eqb c ";"%char)
                    && negb (Ascii.eqb c "="%char)) s.

(** The first value paired with [name]. *)
Fixpoint firstValue (name : string) (pairs : list (string * string)) : option string :=
  match pairs with
  | [] => None
  | (k, v) :: rest => if String.eqb k name then Some v else firstValue name rest
  end.

(** ** api/admin.ts: GET /stats, the counts *)

(** [currentConditions] of the overview: the window alone. *)
Definition inWindow (fromTimestamp toTimestamp : Z) (s : Signup.t) : bool :=
  (fromTimestamp <=? createdAtColumn s) && (createdAtColumn s <=? toTimestamp).

Module Totals.
Record t := { total : Z; confirmed : Z }.
Definition zero : t := {| total := 0; confirmed := 0 |}.
End Totals.

(** [SELECT COUNT( * ), SUM(CASE WHEN status IN ('confirmed', 'invited')
    THEN 1 ELSE 0 END)]; the sum over no row is null, which the handler
    reads as 0. *)
Definition totalsQuery (rows : list Signup.t) : Totals.t :=
  {| Totals.total := Z.of_nat (List.length rows);
     Totals.confirmed :=
       countWhere (fun s => isConfirmedOrInvited (Signup.status s)) rows |}.

(** The daily query of the overview, over all waitlists. *)
Definition dailySignupsAll (db : Db) (fromTimestamp toTimestamp : Z) : list Daily.t :=
  let rows := List.filter (inWindow fromTimestamp toTimestamp) (signups db) in
  List.map (fun d =>
    {| Daily.date := d;
       Daily.count := countWhere (fun s => dayOf s =? d) rows;
       Daily.confirmed :=
         countWhere (fun s => (dayOf s =? d) && isConfirmedOrInvited (Signup.status s)) rows |})
    (distinctDays rows).

(** [orderBy(desc(COUNT(signups.id)))], ties in table order. *)
Fixpoint insertByCountDesc (e : Listed.t) (l : list Listed.t) : list Listed.t :=
  match l with
  | [] => [e]
  | x :: r =>
      if Listed.signupCount x <? Listed.signupCount e then e :: l
      else x :: insertByCountDesc e r
  end.

(** One row of the left join grouped by waitlist: the signups of the
    waitlist inside the window, and how many of them are confirmed or
    invited. *)
Definition windowEntry (db : Db) (fromTimestamp toTimestamp : Z) (w : Waitlist.t)
  : Listed.t :=
  {| Listed.waitlist := w;
     Listed.signupCount :=
       countWhere (fun s => bool_decide (Signup.waitlistId s = Waitlist.id w)
                            && inWindow fromTimestamp toTimestamp s) (signups db);
     Listed.confirmedCount :=
       countWhere (fun s => bool_decide (Signup.waitlistId s = Waitlist.id w)
                            && inWindow fromTimestamp toTimestamp s
                            && isConfirmedOrInvited (Signup.status s)) (signups db) |}.

(** [topWaitlists]: the five waitlists with the most signups in the
    window. *)
Definition topWaitlists (db : Db) (fromTimestamp toTimestamp : Z) : list Listed.t :=
  List.firstn 5
    (List.fold_right insertByCountDesc []
       (List.map (windowEntry db fromTimestamp toTimestamp) (waitlists db))).

Module Overview.
Record t := {
  waitlists : Z;
  current : Totals.t;
  previous : Totals.t;
  allTime : Totals.t;
  dailySignups : list Daily.t;
  top : list Listed.t
}.
End Overview.

(** The counts, the daily series and the top waitlists of the overview
    for the days [fromDay .. toDay]. *)
Definition globalStats (db : Db) (fromDay toDay : Z) (compare : option string)
  : Overview.t :=
  let fromTimestamp := fromDay * 86400 in
  let toTimestamp := (toDay * 86400000 + 86399999) / 1000 in
  let periodLength := toTimestamp - fromTimestamp in
  let prevFromTimestamp := fromTimestamp - periodLength in
  let prevToTimestamp := fromTimestamp - 1 in
  {| Overview.waitlists := Z.of_nat (List.length (waitlists db));
     Overview.current :=
       totalsQuery (List.filter (inWindow fromTimestamp toTimestamp) (signups db));
     Overview.previous :=
       if bool_decide (compare = Some "true")
       then totalsQuery (List.filter (inWindow prevFromTimestamp prevToTimestamp)
                                     (signups db))
       else Totals.zero;
     Overview.allTime := totalsQuery (signups db);
     Overview.dailySignups :=
       fillDailySignups (dateMapOf (dailySignupsAll db fromTimestamp toTimestamp))
                        fromDay toDay;
     Overview.top := topWaitlists db fromTimestamp toTimestamp |}.

(** The total of the current window in the stats of one waitlist, 0
    when there is no such waitlist. *)
Definition currentTotalOf (db : Db) (fromDay toDay : Z) (compare : option string)
    (w : Waitlist.t) : Z :=
  match waitlistStats db (Waitlist.id w) fromDay toDay compare with
  | Ok st => Counts.total (Stats.current st)
  | _ => 0
  end.

(** The status and code of every error answer the signup route can
    give. *)
Definition signupErrors : list (Z * string) :=
  [(403, "DEMO_MODE"); (403, "FORBIDDEN"); (429, "RATE_LIMITED");
   (404, "WAITLIST_NOT_FOUND"); (400, "INVALID_EMAIL"); (400, "VALIDATION_ERROR");
   (409, "ALREADY_SIGNED_UP"); (500, "INTERNAL_ERROR")].

(** Two stores that a limiter cannot tell apart at the key [k] from time
    [T] on: they hold the same record for it, or each holds none or one
    whose window ended before [T]. *)
Definition sameBucket (k : string) (T : Z) (s s' : gmap string RateRecord) : Prop :=
  s !! k = s' !! k
  \/ ((forall r, s !! k = Some r -> resetAt r < T)
      /\ (forall r, s' !! k = Some r -> resetAt r < T)).

(** The clock never runs backwards over a run of requests that starts
    no earlier than [T]. *)
Fixpoint clockOrdered (T : Z) (reqs : list (Req.t * Z * Z)) : Prop :=
  match reqs with
  | [] => True
  | (_, tSweep, t) :: rest => T <= tSweep /\ tSweep <= t /\ clockOrdered t rest
  end.

(** The answers, in order, that the requests of key [k] got in a run. *)
Fixpoint answersFor (k : string) (reqs : list (Req.t * Z * Z))
    (answers : list (list (string * string) * Outcome unit))
  : list (list (string * string) * Outcome unit) :=
  match reqs, answers with
  | (r, _, _) :: reqs', x :: answers' =>
      if bool_decide (signupKey r = k) then x :: answersFor k reqs' answers'
      else answersFor k reqs' answers'
  | _, _ => []
  end.

(** What an effect of a request about the signup [row] of the waitlist
    [w] may be: a mail to or about the address of the row, the
    confirmation mail carrying the token the row holds; the webhook of
    the waitlist with the event of the request; a line of the log. *)
Definition effectAbout (w : Waitlist.t) (row : Signup.t) (event : string)
    (eff : Effect) : Prop :=
  match eff with
  | ConfirmationEmail to token =>
      to = Signup.email row /\ Signup.confirmationToken row = Some token
  | WelcomeEmail to => to = Signup.email row
  | AdminNotification about => about = Signup.email row
  | Webhook url ev => Waitlist.webhookUrl w = Some url /\ ev = event
  | ConsoleLog _ => True
  end.

Definition isLog (eff : Effect) : bool :=
  match eff with ConsoleLog _ => true | _ => false end.

Definition isWebhook (eff : Effect) : bool :=
  match eff with Webhook _ _ => true | _ => false end.

Definition isConfirmationEmail (eff : Effect) : bool :=
  match eff with ConfirmationEmail _ _ => true | _ => false end.

(** * Properties *)

(** ** Rows and queries *)

Lemma setters_frame (st : Status) (d : option Z) (tok : option string) (s : Signup.t) :
  sameButStatusAndConfirmedAt s (Signup.setStatus st s)
  /\ sameButStatusAndConfirmedAt s (Signup.setConfirmedAt d s).
Proof. unfold sameButStatusAndConfirmedAt; simpl; intuition. Qed.

Lemma same_refl (s : Signup.t) : sameButStatusAndConfirmedAt s s.
Proof. unfold sameButStatusAndConfirmedAt; intuition. Qed.

Lemma uniqueIds_inj (l : list Signup.t) (a b : Signup.t) :
  NoDup (List.map Signup.id l) -> a ∈ l -> b ∈ l ->
  Signup.id a = Signup.id b -> a = b.
Proof.
  induction l as [|x l IH]; simpl; intros Hnd Ha Hb Heq.
  - now apply elem_of_nil in Ha.
  - apply NoDup_cons in Hnd as [Hx Hnd].
    apply elem_of_cons in Ha as [->|Ha]; apply elem_of_cons in Hb as [->|Hb]; auto.
    + exfalso. apply Hx. rewrite Heq. now apply list_elem_of_fmap_2.
    + exfalso. apply Hx. rewrite <- Heq. now apply list_elem_of_fmap_2.
Qed.

Lemma updateSignup_waitlists (db : Db) (sid : string) (f : Signup.t -> Signup.t) :
  waitlists (updateSignup db sid f) = waitlists db.
Proof. reflexivity. Qed.


Lemma elem_of_updateSignup (db : Db) (sid : string) (f : Signup.t -> Signup.t) (r : Signup.t) :
  r ∈ signups (updateSignup db sid f) <->
  exists s, s ∈ signups db
            /\ r = (if bool_decide (Signup.id s = sid) then f s else s).
Proof.
  unfold updateSignup; simpl. rewrite !list_elem_of_In, in_map_iff. split.
  - intros (s & <- & Hs). exists s. now rewrite list_elem_of_In.
  - intros (s & Hs & ->). exists s. now rewrite <- list_elem_of_In.
Qed.


(** ** Admin status patch (C10) *)

Lemma patchedRow_refl o sid body s : patchedRow o sid body s s.
Proof. split; [apply same_refl|]. split; intros H; now destruct H. Qed.

Lemma Forall2_map_same {A} (R : A -> A -> Prop) (g : A -> A) (l : list A) :
  (forall x, x ∈ l -> R x (g x)) -> Forall2 R l (List.map g l).
Proof.
  induction l as [|x l IH]; simpl; intros H; constructor.
  - apply H. apply elem_of_cons; now left.
  - apply IH. intros y Hy. apply H. apply elem_of_cons; now right.
Qed.

Lemma find_Some_elem {A} (p : A -> bool) (l : list A) (x : A) :
  List.find p l = Some x -> x ∈ l /\ p x = true.
Proof.
  intros H. apply List.find_some in H as [H1 H2].
  split; [now apply list_elem_of_In | exact H2].
Qed.

Lemma find_map_preserve {A} (p : A -> bool) (g : A -> A) (l : list A) :
  (forall x, p (g x) = p x) ->
  List.find p (List.map g l) = g <$> List.find p l.
Proof.
  intros Hp. induction l as [|x l IH]; simpl; [reflexivity|].
  rewrite Hp. destruct (p x); [reflexivity | exact IH].
Qed.

Lemma findSignupById_spec (db : Db) (sid wid : string) (s : Signup.t) :
  findSignupById db sid wid = Some s ->
  s ∈ signups db /\ Signup.id s = sid /\ Signup.waitlistId s = wid.
Proof.
  intros H. apply find_Some_elem in H as [Hin Hp].
  apply andb_prop in Hp as [H1 H2].
  apply bool_decide_eq_true in H1, H2. auto.
Qed.

Lemma patchSignup_db (o : Oracle) (db : Db) (id signupId : string) (body : option Status) :
  fst (patchSignup o db id signupId body) =
  match findSignupById db signupId id with
  | None => db
  | Some signup =>
      match patchUpdates body signup (now o) with
      | None => db
      | Some set => updateSignup db signupId set
      end
  end.
Proof.
  unfold patchSignup.
  destruct (findSignupById db signupId id) as [signup|]; [|reflexivity].
  destruct (patchUpdates body signup (now o)) as [set|]; [|reflexivity].
  now destruct (List.find _ _).
Qed.

Lemma patchUpdates_row (o : Oracle) (body : option Status) (signup : Signup.t)
    (set : Signup.t -> Signup.t) :
  patchUpdates body signup (now o) = Some set ->
  patchedRow o (Signup.id signup) body signup (set signup)
  /\ (forall r, Signup.id (set r) = Signup.id r
                /\ Signup.waitlistId (set r) = Signup.waitlistId r)
  /\ (forall st, body = Some st -> Signup.status (set signup) = st)
  /\ (body = Some confirmed -> Signup.confirmedAt signup = None ->
        Signup.confirmedAt (set signup) = Some (now o))
  /\ (body = Some confirmed -> is_Some (Signup.confirmedAt signup) ->
        Signup.confirmedAt (set signup) = Signup.confirmedAt signup)
  /\ (forall st, body = Some st -> st <> confirmed ->
        Signup.confirmedAt (set signup) = Signup.confirmedAt signup).
Proof.
  unfold patchUpdates, patchedRow, sameButStatusAndConfirmedAt.
  destruct body as [st|]; [|discriminate].
  destruct (decide (st = confirmed)) as [->|Hst].
  - destruct (Signup.confirmedAt signup) as [d|] eqn:Hat.
    + rewrite bool_decide_eq_true_2 by reflexivity.
      rewrite (bool_decide_eq_true_2 (is_Some (Some d))) by eauto.
      simpl. intros [= <-]. simpl. rewrite Hat.
      repeat split; try tauto; try congruence.
    + rewrite bool_decide_eq_true_2 by reflexivity.
      rewrite (bool_decide_eq_false_2 (is_Some None)) by (intros [x Hx]; discriminate).
      simpl. intros [= <-]. simpl. try rewrite Hat.
      repeat split; try tauto; try congruence.
      all: try (intros _ [x Hx]; discriminate).
  - rewrite (bool_decide_eq_false_2 (st = confirmed)) by assumption.
    simpl. intros [= <-]. simpl.
    repeat split; try tauto; try congruence.
Qed.

Lemma patchUpdates_None (body : option Status) (signup : Signup.t) (t : Z) :
  patchUpdates body signup t = None -> body = None.
Proof.
  unfold patchUpdates. destruct body as [st|]; [|reflexivity].
  now destruct (_ && _).
Qed.

Lemma patchSignup_frame
    (o : Oracle) (db : Db) (id signupId : string) (body : option Status)
    (Hpk : uniqueIds db) :
  let db' := fst (patchSignup o db id signupId body) in
  waitlists db' = waitlists db
  /\ Forall2 (patchedRow o signupId body) (signups db) (signups db')
  /\ (forall s, findSignupById db signupId id = Some s ->
      exists s', findSignupById db' signupId id = Some s'
        /\ (forall st, body = Some st -> Signup.status s' = st)
        /\ (body = Some confirmed -> Signup.confirmedAt s = None ->
              Signup.confirmedAt s' = Some (now o))
        /\ (body = Some confirmed -> is_Some (Signup.confirmedAt s) ->
              Signup.confirmedAt s' = Signup.confirmedAt s)
        /\ (body = Some pending -> Signup.confirmedAt s' = Signup.confirmedAt s)
        /\ (body = None -> s' = s)).
Proof.
  intros db'. subst db'. rewrite patchSignup_db.
  destruct (findSignupById db signupId id) as [signup|] eqn:Hf.
  2:{ split; [reflexivity|]. split; [|discriminate].
      apply Forall2_same_length_lookup_2; [reflexivity|].
      intros i x y Hx Hy. rewrite Hx in Hy. injection Hy as <-.
      apply patchedRow_refl. }
  destruct (findSignupById_spec _ _ _ _ Hf) as (Hin & Hids & Hwid).
  destruct (patchUpdates body signup (now o)) as [set|] eqn:Hu.
  - destruct (patchUpdates_row _ _ _ _ Hu) as (Hrow & Hid & Hst & Hc1 & Hc2 & Hc3).
    split; [reflexivity|]. split.
    + unfold updateSignup; simpl. apply Forall2_map_same.
      intros x Hx. case_bool_decide as Hxid; [|apply patchedRow_refl].
      assert (x = signup) as ->
        by (apply (uniqueIds_inj (signups db)); auto; congruence).
      now rewrite <- Hids.
    + intros s [= <-]. exists (set signup). split; [|split; [|split; [|split; [|split]]]].
      * unfold findSignupById, updateSignup in *; simpl.
        rewrite find_map_preserve.
        -- rewrite Hf. simpl. now rewrite bool_decide_eq_true_2.
        -- intros x.
           destruct (bool_decide (Signup.id x = signupId)) eqn:E; [|now rewrite E].
           destruct (Hid x) as [-> ->]. now rewrite E.
      * exact Hst.
      * exact Hc1.
      * exact Hc2.
      * intros Hb. now apply (Hc3 pending).
      * intros ->. discriminate.
  - apply patchUpdates_None in Hu as ->.
    split; [reflexivity|]. split.
    + apply Forall2_same_length_lookup_2; [reflexivity|].
      intros i x y Hx Hy. rewrite Hx in Hy. injection Hy as <-.
      apply patchedRow_refl.
    + intros s [= <-]. exists signup. repeat split; try discriminate. exact Hf.
Qed.

(** C10. The admin patch of a signup's status changes no column other
    than status and confirmedAt, of no row other than the one patched;
    confirmedAt changes only when the new status is confirmed and
    confirmedAt was null, and then it becomes the current time. So a
    patch to confirmed of a row that already has a confirmation time keeps
    it, and a patch to pending leaves confirmedAt as it was. *)
Theorem C10_patch_frame
    (o : Oracle) (db : Db) (id signupId : string) (body : option Status)
    (Hpk : uniqueIds db) :
  let db' := fst (patchSignup o db id signupId body) in
  waitlists db' = waitlists db
  /\ Forall2 (patchedRow o signupId body) (signups db) (signups db')
  /\ (forall s, findSignupById db signupId id = Some s ->
      exists s', findSignupById db' signupId id = Some s'
        /\ (forall st, body = Some st -> Signup.status s' = st)
        /\ (body = Some confirmed -> Signup.confirmedAt s = None ->
              Signup.confirmedAt s' = Some (now o))
        /\ (body = Some confirmed -> is_Some (Signup.confirmedAt s) ->
              Signup.confirmedAt s' = Signup.confirmedAt s)
        /\ (body = Some pending -> Signup.confirmedAt s' = Signup.confirmedAt s)
        /\ (body = None -> s' = s)).
Proof. exact (patchSignup_frame o db id signupId body Hpk). Qed.

Lemma C10_patch_frame_witness :
  let db' := fst (patchSignup (Sample.oracle 5000 "u" "t") Sample.db "w1" "s1" (Some confirmed)) in
  Forall2 (patchedRow (Sample.oracle 5000 "u" "t") "s1" (Some confirmed))
          (signups Sample.db) (signups db')
  /\ List.map Signup.confirmedAt (signups db') = [Some 5000].
Proof.
  split.
  - apply (C10_patch_frame (Sample.oracle 5000 "u" "t") Sample.db "w1" "s1" (Some confirmed)).
    unfold uniqueIds; simpl. apply NoDup_singleton.
  - reflexivity.
Defined.

(** ** What the public handlers do to the table *)

Lemma insertSignup_Some (db db' : Db) (row : Signup.t) :
  insertSignup db row = Some db' ->
  db' = withSignups db (signups db ++ [row])
  /\ List.existsb (clashes row) (signups db) = false.
Proof.
  unfold insertSignup. destruct (List.existsb _ _) eqn:E; [discriminate|].
  intros [= <-]. auto.
Qed.

Lemma signupExisting_db (env : Env) (o : Oracle) (db : Db) (w : Waitlist.t)
    (existing : Signup.t) :
  dbOf (signupExisting env o db w existing) = db
  \/ (Signup.status existing = pending
      /\ dbOf (signupExisting env o db w existing)
         = updateSignup db (Signup.id existing)
             (Signup.setToken (Some (generateToken o)))).
Proof.
  unfold signupExisting.
  destruct (isConfirmedOrInvited _); [now left|].
  destruct (_ && _) eqn:E; [|now left].
  right. apply andb_prop in E as [E _]. apply andb_prop in E as [_ E].
  apply bool_decide_eq_true in E. split; [exact E|].
  destruct (sendConfirmationEmail _ _ _) as [eff [u|e|m]]; reflexivity.
Qed.

Lemma signupNew_db (env : Env) (o : Oracle) (db : Db) (w : Waitlist.t)
    (req : Req.t) (email : string) (cd : gmap string string) :
  let useDoubleOptIn := Js.truthyb (Waitlist.doubleOptIn w) && isEmailConfigured env in
  let row := newSignupRow o w req email cd useDoubleOptIn
               (nextPosition db (Waitlist.id w)) in
  match insertSignup db row with
  | Some db' => dbOf (signupNew env o db w req email cd) = db'
  | None => dbOf (signupNew env o db w req email cd) = db
  end.
Proof.
  intros useDoubleOptIn row. unfold signupNew. fold useDoubleOptIn. fold row.
  destruct (insertSignup db row) as [db'|]; [|reflexivity].
  destruct useDoubleOptIn; [|reflexivity].
  destruct (sendConfirmationEmail _ _ _) as [eff [u|e|m]]; reflexivity.
Qed.

Lemma findSignupByEmail_spec (db : Db) (wid e : string) (s : Signup.t) :
  findSignupByEmail db wid e = Some s ->
  s ∈ signups db /\ Signup.waitlistId s = wid /\ Signup.email s = e.
Proof.
  intros H. apply find_Some_elem in H as [Hin Hp].
  apply andb_prop in Hp as [H1 H2].
  apply bool_decide_eq_true in H1, H2. auto.
Qed.

Lemma findSignupByToken_spec (db : Db) (wid tok : string) (s : Signup.t) :
  findSignupByToken db wid tok = Some s ->
  s ∈ signups db /\ Signup.waitlistId s = wid
  /\ Signup.confirmationToken s = Some tok.
Proof.
  intros H. apply find_Some_elem in H as [Hin Hp].
  apply andb_prop in Hp as [H1 H2].
  apply bool_decide_eq_true in H1, H2. auto.
Qed.

(** The three ways a signup request leaves the table: untouched, with a
    fresh token on the pending row of that email, or with one row added. *)
Lemma signup_db (env : Env) (o : Oracle) (db : Db) (req : Req.t) :
  dbOf (signup env o db req) = db
  \/ (exists existing, existing ∈ signups db
        /\ Signup.status existing = pending
        /\ dbOf (signup env o db req)
           = updateSignup db (Signup.id existing)
               (Signup.setToken (Some (generateToken o))))
  \/ (exists w email cd dbl,
        dbOf (signup env o db req)
        = withSignups db
            (signups db ++ [newSignupRow o w req email cd dbl
                              (nextPosition db (Waitlist.id w))])).
Proof.
  unfold signup.
  destruct (findWaitlistBySlug db (Req.slug req)) as [w|]; [|now left].
  destruct (negb _); [now left|].
  destruct (validateCustomFields _ _) as [cd|e|m]; [|now left|now left].
  destruct (findSignupByEmail db (Waitlist.id w) _) as [existing|] eqn:Hf.
  - destruct (signupExisting_db env o db w existing) as [H|[H1 H2]]; [now left|].
    right; left. exists existing. apply findSignupByEmail_spec in Hf. tauto.
  - pose proof (signupNew_db env o db w req
                  (normalizeEmail (Req.email (Req.json req))) cd) as H.
    simpl in H. destruct (insertSignup db _) as [db'|] eqn:Hi; [|now left].
    apply insertSignup_Some in Hi as [-> _].
    right; right. eauto.
Qed.

Lemma confirm_db (env : Env) (o : Oracle) (db : Db) (slug token : string) :
  dbOf (confirm env o db slug token) = db
  \/ (exists s, s ∈ signups db /\ Signup.status s = pending
        /\ dbOf (confirm env o db slug token)
           = updateSignup db (Signup.id s) (redeem (now o))).
Proof.
  unfold confirm.
  destruct (findWaitlistBySlug db slug) as [w|]; [|now left].
  destruct (findSignupByToken db (Waitlist.id w) token) as [s|] eqn:Hf; [|now left].
  destruct (isConfirmedOrInvited (Signup.status s)) eqn:Hs; [now left|].
  right. exists s. apply findSignupByToken_spec in Hf as (Hin & _ & _).
  split; [exact Hin|]. split; [|reflexivity].
  unfold isConfirmedOrInvited in Hs. apply orb_false_elim in Hs as [H1 H2].
  apply bool_decide_eq_false in H1, H2. now destruct (Signup.status s).
Qed.

(** ** The token invariant (C3) *)

Lemma Forall2_refl_on {A} (R : A -> A -> Prop) (l : list A) :
  (forall x, R x x) -> Forall2 R l l.
Proof. intros H. induction l; constructor; auto. Qed.

Lemma signup_keeps_token_invariant (env : Env) (o : Oracle) (db : Db) (req : Req.t) :
  uniqueIds db -> tokenOnlyWhilePending db ->
  tokenOnlyWhilePending (dbOf (signup env o db req)).
Proof.
  intros Hpk Hinv.
  destruct (signup_db env o db req)
    as [->|[(ex & Hex & Hst & ->)|(w & e & cd & dbl & ->)]]; [exact Hinv| |].
  - intros r Hr Htok. apply elem_of_updateSignup in Hr as (s & Hs & ->).
    case_bool_decide as Hid.
    + assert (s = ex) as -> by (apply (uniqueIds_inj (signups db)); auto).
      exact Hst.
    + now apply Hinv.
  - intros r Hr Htok. simpl in Hr. apply elem_of_app in Hr as [Hr|Hr].
    + now apply Hinv.
    + apply list_elem_of_singleton in Hr as ->. simpl in *.
      now destruct dbl.
Qed.

Lemma confirm_rows (env : Env) (o : Oracle) (db : Db) (slug token : string) :
  Forall2 (fun old new =>
             new = old
             \/ (Signup.status new = confirmed /\ Signup.confirmationToken new = None))
          (signups db) (signups (dbOf (confirm env o db slug token))).
Proof.
  destruct (confirm_db env o db slug token) as [->|(s & Hs & Hst & ->)].
  - apply Forall2_refl_on. now left.
  - unfold updateSignup; simpl. apply Forall2_map_same.
    intros x Hx. case_bool_decide; [right|left]; auto.
Qed.

Lemma confirm_keeps_token_invariant (env : Env) (o : Oracle) (db : Db)
    (slug token : string) :
  tokenOnlyWhilePending db ->
  tokenOnlyWhilePending (dbOf (confirm env o db slug token)).
Proof.
  intros Hinv.
  destruct (confirm_db env o db slug token) as [->|(s & Hs & Hst & ->)]; [exact Hinv|].
  intros r Hr Htok. apply elem_of_updateSignup in Hr as (x & Hx & ->).
  case_bool_decide; [now simpl in Htok | now apply Hinv].
Qed.

Lemma patchSignup_tokens (o : Oracle) (db : Db) (id signupId : string)
    (body : option Status) :
  uniqueIds db ->
  Forall2 (fun old new => Signup.confirmationToken new = Signup.confirmationToken old
                          /\ (Signup.status new <> Signup.status old ->
                                body = Some (Signup.status new)))
          (signups db) (signups (fst (patchSignup o db id signupId body))).
Proof.
  intros Hpk.
  destruct (patchSignup_frame o db id signupId body Hpk) as (_ & H & _).
  eapply Forall2_impl; [exact H|].
  intros old new (Hsame & _ & Hst). split.
  - unfold sameButStatusAndConfirmedAt in Hsame. symmetry. tauto.
  - intros Hne. now apply Hst.
Qed.

(** C3, as the code has it. The public signup and the token confirmation
    keep the invariant that only pending rows hold a confirmation token,
    and a row the confirmation changes ends confirmed with a null token.
    The admin patch never writes the token column: it keeps the invariant
    when it does not set confirmed or invited, and otherwise leaves each
    token where it was. *)
Theorem C3_token_invariant_amended
    (env : Env) (o : Oracle) (db : Db)
    (Hpk : uniqueIds db) (Hinv : tokenOnlyWhilePending db) :
  (forall req, tokenOnlyWhilePending (dbOf (signup env o db req)))
  /\ (forall slug token,
        tokenOnlyWhilePending (dbOf (confirm env o db slug token))
        /\ Forall2 (fun old new =>
                      new = old
                      \/ (Signup.status new = confirmed
                          /\ Signup.confirmationToken new = None))
                   (signups db) (signups (dbOf (confirm env o db slug token))))
  /\ (forall id signupId body,
        List.map Signup.confirmationToken (signups (fst (patchSignup o db id signupId body)))
        = List.map Signup.confirmationToken (signups db))
  /\ (forall id signupId body,
        body <> Some confirmed -> body <> Some invited ->
        tokenOnlyWhilePending (fst (patchSignup o db id signupId body))).
Proof.
  split; [|split; [|split]].
  - intros req. now apply signup_keeps_token_invariant.
  - intros slug token. split.
    + now apply confirm_keeps_token_invariant.
    + apply confirm_rows.
  - intros id signupId body.
    pose proof (patchSignup_tokens o db id signupId body Hpk) as H.
    induction H as [|old new l l' [Ht _] _ IH]; simpl; [reflexivity|].
    now rewrite Ht, IH.
  - intros id signupId body Hc Hi.
    pose proof (patchSignup_tokens o db id signupId body Hpk) as H.
    intros r Hr Htok.
    apply list_elem_of_lookup in Hr as [i Hi'].
    destruct (Forall2_lookup_r _ _ _ _ _ H Hi') as (old & Hold & Ht & Hst).
    destruct (decide (Signup.status r = Signup.status old)) as [E|E].
    + rewrite E. apply Hinv.
      * apply list_elem_of_lookup. eauto.
      * now rewrite <- Ht.
    + specialize (Hst E). destruct (Signup.status r); congruence.
Qed.

Lemma C3_token_invariant_amended_witness :
  tokenOnlyWhilePending
    (dbOf (confirm Sample.env (Sample.oracle 5000 "u" "t") Sample.db "beta" "tok-a"))
  /\ List.map Signup.confirmationToken
       (signups (fst (patchSignup (Sample.oracle 5000 "u" "t") Sample.db "w1" "s1"
                        (Some confirmed))))
     = [Some "tok-a"].
Proof.
  assert (Hpk : uniqueIds Sample.db)
    by (unfold uniqueIds; simpl; apply NoDup_singleton).
  assert (Hinv : tokenOnlyWhilePending Sample.db).
  { intros s Hs _. simpl in Hs. apply list_elem_of_singleton in Hs as ->. reflexivity. }
  destruct (C3_token_invariant_amended Sample.env (Sample.oracle 5000 "u" "t")
              Sample.db Hpk Hinv) as (_ & Hc & Hp & _).
  split.
  - apply (Hc "beta" "tok-a").
  - rewrite Hp. reflexivity.
Defined.

(** C3 as stated fails: an admin patch to confirmed of a pending row that
    holds a token leaves the token in place. *)
Lemma C3_counterexample :
  uniqueIds Sample.db
  /\ tokenOnlyWhilePending Sample.db
  /\ ~ tokenOnlyWhilePending
        (fst (patchSignup (Sample.oracle 5000 "u" "t") Sample.db "w1" "s1"
                (Some confirmed))).
Proof.
  split; [unfold uniqueIds; simpl; apply NoDup_singleton|]. split.
  - intros s Hs _. simpl in Hs. apply list_elem_of_singleton in Hs as ->. reflexivity.
  - intros H.
    specialize (H (Sample.row "s1" "w1" "a@example.com" 1 confirmed
                     (Some "tok-a") (Some 5000) 1000)).
    simpl in H. discriminate H.
    + vm_compute. apply list_elem_of_singleton. reflexivity.
    + discriminate.
Qed.

(** ** Public status endpoint (C5) *)

Lemma filter_filter_andb {A} (p q : A -> bool) (l : list A) :
  List.filter q (List.filter p l) = List.filter (fun x => p x && q x) l.
Proof.
  induction l as [|x l IH]; simpl; [reflexivity|].
  destruct (p x); simpl; [destruct (q x)|]; now rewrite IH.
Qed.

Lemma length_filter_split {A} (p q : A -> bool) (l : list A) :
  (forall x, p x && q x = false) ->
  (List.length (List.filter (fun x => p x || q x) l)
   = List.length (List.filter p l) + List.length (List.filter q l))%nat.
Proof.
  intros H. induction l as [|x l IH]; simpl; [reflexivity|].
  specialize (H x). destruct (p x), (q x); simpl in *; try discriminate; lia.
Qed.




(** ** Token confirmation (C1) *)


Lemma find_none_all {A} (p : A -> bool) (l : list A) :
  (forall y, y ∈ l -> p y = false) -> List.find p l = None.
Proof.
  induction l as [|a l IH]; intros H; [reflexivity|].
  simpl. rewrite (H a) by (apply elem_of_cons; now left).
  apply IH. intros y Hy. apply H. apply elem_of_cons; now right.
Qed.



Lemma pending_not_confirmedOrInvited (st : Status) :
  st = pending -> isConfirmedOrInvited st = false.
Proof. now intros ->. Qed.

(** The first redemption of a token. *)
Lemma confirm_pending (env : Env) (o : Oracle) (db : Db) (slug token : string)
    (w : Waitlist.t) (s : Signup.t) :
  findWaitlistBySlug db slug = Some w ->
  findSignupByToken db (Waitlist.id w) token = Some s ->
  Signup.status s = pending ->
  dbOf (confirm env o db slug token) = updateSignup db (Signup.id s) (redeem (now o))
  /\ outcomeOf (confirm env o db slug token)
     = Ok (confirmReply w "Your email has been confirmed!" s).
Proof.
  intros Hw Hf Hst. unfold confirm. rewrite Hw, Hf.
  rewrite (pending_not_confirmedOrInvited _ Hst). split; reflexivity.
Qed.




(** ** A signup for an email that is not yet on the waitlist *)

Lemma find_None_all {A} (p : A -> bool) (l : list A) :
  List.find p l = None -> forall x, x ∈ l -> p x = false.
Proof.
  intros H x Hx. apply (List.find_none p l H). now apply list_elem_of_In.
Qed.

Lemma existsb_false_all {A} (p : A -> bool) (l : list A) :
  (forall x, x ∈ l -> p x = false) -> List.existsb p l = false.
Proof.
  induction l as [|a l IH]; intros H; [reflexivity|]. simpl.
  rewrite (H a) by (apply elem_of_cons; now left). simpl.
  apply IH. intros y Hy. apply H. apply elem_of_cons; now right.
Qed.

Lemma insertSignup_fresh (db : Db) (row : Signup.t) :
  Signup.id row ∉ List.map Signup.id (signups db) ->
  findSignupByEmail db (Signup.waitlistId row) (Signup.email row) = None ->
  insertSignup db row = Some (withSignups db (signups db ++ [row])).
Proof.
  intros Hid Hmail. unfold insertSignup.
  rewrite existsb_false_all; [reflexivity|].
  intros x Hx. unfold clashes. apply orb_false_intro.
  - apply bool_decide_eq_false_2. intros E. apply Hid. rewrite <- E.
    now apply list_elem_of_fmap_2.
  - exact (find_None_all _ _ Hmail x Hx).
Qed.

Section FreshSignup.
Context (env : Env) (o : Oracle) (db : Db) (req : Req.t) (w : Waitlist.t)
        (cd : gmap string string).
Let email := normalizeEmail (Req.email (Req.json req)).
Let dbl := Js.truthyb (Waitlist.doubleOptIn w) && isEmailConfigured env.
Let row := newSignupRow o w req email cd dbl (nextPosition db (Waitlist.id w)).

Hypothesis Hw : findWaitlistBySlug db (Req.slug req) = Some w.
Hypothesis Hvalid : isValidEmail email = true.
Hypothesis Hcf :
  validateCustomFields (Waitlist.customFields w) (Req.customData (Req.json req)) = Ok cd.
Hypothesis Hnew : findSignupByEmail db (Waitlist.id w) email = None.
Hypothesis Hfresh : randomUUID o ∉ List.map Signup.id (signups db).

Lemma signup_fresh_new : signup env o db req = signupNew env o db w req email cd.
Proof.
  unfold signup. rewrite Hw. fold email. rewrite Hvalid. simpl.
  now rewrite Hcf, Hnew.
Qed.

Lemma signup_fresh_insert :
  insertSignup db row = Some (withSignups db (signups db ++ [row])).
Proof. apply insertSignup_fresh; [exact Hfresh | exact Hnew]. Qed.

Lemma signup_fresh_db :
  signups (dbOf (signup env o db req)) = signups db ++ [row]
  /\ waitlists (dbOf (signup env o db req)) = waitlists db.
Proof.
  rewrite signup_fresh_new.
  pose proof (signupNew_db env o db w req email cd) as H. simpl in H.
  fold dbl in H. fold row in H. rewrite signup_fresh_insert in H.
  rewrite H. split; reflexivity.
Qed.


Lemma signup_fresh_direct :
  dbl = false ->
  outcomeOf (signup env o db req)
  = Ok (Json [("success", JBool true);
              ("message", JStr "You're on the list!");
              ("position", JNum (nextPosition db (Waitlist.id w)));
              ("requiresConfirmation", JBool false);
              ("redirectUrl", nullable (Js.orNull (Waitlist.redirectUrl w)))]).
Proof.
  intros Hd. rewrite signup_fresh_new. unfold signupNew.
  fold dbl. fold row. now rewrite signup_fresh_insert, Hd.
Qed.

End FreshSignup.

(** ** Required and best-effort mail (C4) *)




(** ** Position assignment (C2) *)

Lemma fold_left_max_spec (l : list Z) (a : Z) :
  let m := List.fold_left Z.max l a in
  a <= m /\ (forall x, x ∈ l -> x <= m) /\ (m = a \/ m ∈ l).
Proof.
  revert a. induction l as [|x l IH]; intros a; simpl.
  - split; [lia|]. split; [|now left]. intros x Hx. now apply elem_of_nil in Hx.
  - destruct (IH (Z.max a x)) as (H1 & H2 & H3). split; [lia|]. split.
    + intros y Hy. apply elem_of_cons in Hy as [->|Hy]; [lia | now apply H2].
    + destruct H3 as [H3|H3].
      * destruct (Z.max_spec a x) as [[_ E]|[_ E]]; rewrite E in *.
        -- right. apply elem_of_cons; now left.
        -- now left.
      * right. apply elem_of_cons; now right.
Qed.

Lemma maxPosition_nil : maxPosition [] = 0.
Proof. reflexivity. Qed.

Lemma maxPosition_spec (rows : list Signup.t) :
  rows <> [] ->
  (exists s, s ∈ rows /\ maxPosition rows = Signup.position s)
  /\ (forall s, s ∈ rows -> Signup.position s <= maxPosition rows).
Proof.
  destruct rows as [|r rows]; [congruence|]. intros _.
  unfold maxPosition. simpl.
  destruct (fold_left_max_spec (List.map Signup.position rows) (Signup.position r))
    as (H1 & H2 & H3). simpl in *. split.
  - destruct H3 as [H3|H3].
    + exists r. split; [apply elem_of_cons; now left | exact H3].
    + apply list_elem_of_fmap in H3 as (s & Hs & Hin).
      exists s. split; [apply elem_of_cons; now right | exact Hs].
  - intros s Hs. apply elem_of_cons in Hs as [->|Hs]; [exact H1|].
    apply H2. now apply list_elem_of_fmap_2.
Qed.

Lemma nextPosition_eq (db : Db) (wid : string) :
  nextPosition db wid = 1 + maxPosition (signupsOf db wid).
Proof.
  unfold nextPosition. destruct (Z.eqb_spec (maxPosition (signupsOf db wid)) 0) as [->|]; lia.
Qed.

Lemma contiguous_max (db : Db) (wid : string) :
  contiguous db wid ->
  maxPosition (signupsOf db wid) = Z.of_nat (List.length (signupsOf db wid)).
Proof.
  unfold contiguous. intros Hperm.
  destruct (signupsOf db wid) as [|r rows] eqn:E; [reflexivity|].
  rewrite <- E in *.
  assert (Hne : signupsOf db wid <> []) by (rewrite E; discriminate).
  destruct (maxPosition_spec _ Hne) as ((s & Hs & Hmax) & Hle).
  set (n := List.length (signupsOf db wid)) in *.
  assert (Hn : (1 <= n)%nat) by (subst n; rewrite E; simpl; lia).
  (* the maximum is one of 1..n *)
  assert (Hin : Signup.position s ∈ List.map Z.of_nat (List.seq 1 n)).
  { rewrite <- Hperm. now apply list_elem_of_fmap_2. }
  apply list_elem_of_fmap in Hin as (k & Hk & Hkin).
  apply list_elem_of_In, List.in_seq in Hkin.
  (* and n is one of the positions *)
  assert (Hnin : Z.of_nat n ∈ List.map Signup.position (signupsOf db wid)).
  { rewrite Hperm. apply list_elem_of_fmap_2. apply list_elem_of_In, List.in_seq. lia. }
  apply list_elem_of_fmap in Hnin as (t & Ht & Htin).
  specialize (Hle t Htin). lia.
Qed.

Lemma signupsOf_app (db : Db) (row : Signup.t) (wid : string) :
  signupsOf (withSignups db (signups db ++ [row])) wid
  = signupsOf db wid
    ++ (if bool_decide (Signup.waitlistId row = wid) then [row] else []).
Proof.
  unfold signupsOf; simpl. rewrite List.filter_app. simpl.
  now destruct (bool_decide _).
Qed.

Lemma contiguous_insert (db : Db) (row : Signup.t) (wid : string) :
  contiguous db wid -> Signup.waitlistId row = wid ->
  Signup.position row = nextPosition db wid ->
  contiguous (withSignups db (signups db ++ [row])) wid.
Proof.
  intros Hc Hw Hp. pose proof (contiguous_max db wid Hc) as Hmax.
  unfold contiguous in *. rewrite signupsOf_app.
  rewrite bool_decide_eq_true_2 by exact Hw.
  rewrite List.map_app, List.length_app. simpl.
  rewrite Nat.add_1_r, List.seq_S, List.map_app. simpl.
  apply Permutation_app; [exact Hc|].
  rewrite Hp, nextPosition_eq, Hmax.
  replace (1 + Z.of_nat (List.length (signupsOf db wid)))
    with (Z.of_nat (1 + List.length (signupsOf db wid))) by lia.
  reflexivity.
Qed.

Lemma find_app_last {A} (p : A -> bool) (l : list A) (x : A) :
  List.find p l = None -> p x = true -> List.find p (l ++ [x]) = Some x.
Proof.
  intros Hn Hx. induction l as [|a l IH]; simpl in *.
  - now rewrite Hx.
  - destruct (p a); [discriminate | now apply IH].
Qed.

Lemma signup_again_rejected (env : Env) (o : Oracle) (db : Db) (req : Req.t)
    (w : Waitlist.t) (cd : gmap string string) (row : Signup.t) :
  findWaitlistBySlug db (Req.slug req) = Some w ->
  isValidEmail (normalizeEmail (Req.email (Req.json req))) = true ->
  validateCustomFields (Waitlist.customFields w) (Req.customData (Req.json req)) = Ok cd ->
  findSignupByEmail db (Waitlist.id w) (normalizeEmail (Req.email (Req.json req)))
  = Some row ->
  isConfirmedOrInvited (Signup.status row) = true ->
  signup env o db req = (db, [], Fail Errors.AlreadySignedUp).
Proof.
  intros Hw Hv Hcf Hf Hst. unfold signup. rewrite Hw, Hv. simpl.
  rewrite Hcf, Hf. unfold signupExisting. now rewrite Hst.
Qed.

(** C2. A signup on a waitlist without double opt-in, for a valid email
    that is not yet on it (the request passing the custom-field check):
    the request succeeds with requiresConfirmation false and the position
    1 + max of the waitlist's positions, which is 1 on an empty waitlist,
    lies above every position in use and, the positions in use being
    1..n, is n + 1, the least one not in use; the new row is stored
    confirmed at that position. A later request for the same waitlist
    and the same normalised email ends with 409 ALREADY_SIGNED_UP and
    changes nothing. *)
Theorem C2_direct_signup_position
    (env : Env) (o : Oracle) (db : Db) (req : Req.t) (w : Waitlist.t)
    (cd : gmap string string)
    (Hw : findWaitlistBySlug db (Req.slug req) = Some w)
    (Hdirect : Js.truthyb (Waitlist.doubleOptIn w) = false)
    (Hvalid : isValidEmail (normalizeEmail (Req.email (Req.json req))) = true)
    (Hcf : validateCustomFields (Waitlist.customFields w)
             (Req.customData (Req.json req)) = Ok cd)
    (Hnew : findSignupByEmail db (Waitlist.id w)
              (normalizeEmail (Req.email (Req.json req))) = None)
    (Hfresh : randomUUID o ∉ List.map Signup.id (signups db)) :
  let email := normalizeEmail (Req.email (Req.json req)) in
  let rows := signupsOf db (Waitlist.id w) in
  let h := signup env o db req in
  let p := 1 + maxPosition rows in
  (exists r, outcomeOf h = Ok r
             /\ field "success" r = Some (JBool true)
             /\ field "position" r = Some (JNum p)
             /\ field "requiresConfirmation" r = Some (JBool false))
  /\ (exists row, signups (dbOf h) = signups db ++ [row]
                  /\ Signup.waitlistId row = Waitlist.id w
                  /\ Signup.email row = email
                  /\ Signup.position row = p
                  /\ Signup.status row = confirmed
                  /\ Signup.confirmationToken row = None)
  /\ (rows = [] -> p = 1)
  /\ (rows <> [] ->
      exists s, s ∈ rows /\ p = 1 + Signup.position s
                /\ forall s', s' ∈ rows -> Signup.position s' <= Signup.position s)
  /\ (forall s, s ∈ rows -> Signup.position s < p)
  /\ (contiguous db (Waitlist.id w) ->
      p = Z.of_nat (List.length rows) + 1
      /\ (forall q, 1 <= q < p -> exists s, s ∈ rows /\ Signup.position s = q)
      /\ contiguous (dbOf h) (Waitlist.id w))
  /\ (forall (env2 : Env) (o2 : Oracle) (req2 : Req.t) (cd2 : gmap string string),
        Req.slug req2 = Req.slug req ->
        normalizeEmail (Req.email (Req.json req2)) = email ->
        validateCustomFields (Waitlist.customFields w)
          (Req.customData (Req.json req2)) = Ok cd2 ->
        signup env2 o2 (dbOf h) req2 = (dbOf h, [], Fail Errors.AlreadySignedUp)
        /\ onError (outcomeOf (signup env2 o2 (dbOf h) req2))
           = Some (409, "ALREADY_SIGNED_UP")).
Proof.
  intros email rows h p.
  assert (Hd : Js.truthyb (Waitlist.doubleOptIn w) && isEmailConfigured env = false)
    by now rewrite Hdirect.
  pose proof (signup_fresh_direct env o db req w cd Hw Hvalid Hcf Hnew Hfresh Hd) as Hout.
  destruct (signup_fresh_db env o db req w cd Hw Hvalid Hcf Hnew Hfresh) as [Hrows Hwl].
  rewrite Hd in Hrows. fold email in Hrows.
  set (row := newSignupRow o w req email cd false (nextPosition db (Waitlist.id w))) in *.
  assert (Hp : nextPosition db (Waitlist.id w) = p) by apply nextPosition_eq.
  assert (Hdb : dbOf h = withSignups db (signups db ++ [row])).
  { subst h. destruct (dbOf (signup env o db req)) as [wl su]. simpl in *. now subst. }
  assert (Hlt : forall s, s ∈ rows -> Signup.position s < p).
  { intros s Hs. assert (Hne : rows <> []) by (intros E; rewrite E in Hs; now apply elem_of_nil in Hs).
    destruct (maxPosition_spec rows Hne) as [_ Hle]. specialize (Hle s Hs). subst p. lia. }
  split; [|split; [|split; [|split; [|split; [|split]]]]].
  - eexists. split; [exact Hout|]. rewrite Hp. repeat split; reflexivity.
  - exists row. split; [exact Hrows|]. subst row. simpl. rewrite Hp.
    repeat split; reflexivity.
  - intros E. subst p. now rewrite E.
  - intros Hne. destruct (maxPosition_spec rows Hne) as [(s & Hs & Hmax) Hle].
    exists s. split; [exact Hs|]. split; [subst p; now rewrite Hmax|].
    intros s' Hs'. rewrite <- Hmax. now apply Hle.
  - exact Hlt.
  - intros Hc. pose proof (contiguous_max db (Waitlist.id w) Hc) as Hmax.
    fold rows in Hmax. split; [subst p; lia|]. split.
    + intros q Hq.
      assert (Hin : q ∈ List.map Z.of_nat (List.seq 1 (List.length rows))).
      { replace q with (Z.of_nat (Z.to_nat q)) by lia.
        apply list_elem_of_fmap_2, list_elem_of_In, List.in_seq. subst p. lia. }
      unfold contiguous in Hc. fold rows in Hc. rewrite <- Hc in Hin.
      apply list_elem_of_fmap in Hin as (s & Hs & Hsin). eauto.
    + rewrite Hdb. apply contiguous_insert; [exact Hc|reflexivity|reflexivity].
  - intros env2 o2 req2 cd2 Hslug Hmail Hcf2.
    assert (Hagain : signup env2 o2 (dbOf h) req2 = (dbOf h, [], Fail Errors.AlreadySignedUp)).
    { apply (signup_again_rejected env2 o2 (dbOf h) req2 w cd2 row).
      - rewrite Hslug, Hdb. exact Hw.
      - now rewrite Hmail.
      - exact Hcf2.
      - rewrite Hmail, Hdb. unfold findSignupByEmail; simpl.
        apply find_app_last; [exact Hnew|].
        subst row; simpl. now rewrite !bool_decide_eq_true_2.
      - reflexivity. }
    split; [exact Hagain | now rewrite Hagain].
Qed.

Lemma C2_direct_signup_position_witness :
  let o := Sample.oracle 5000 "s9" "tok-9" in
  let req := Sample.request "open" "Carol@Example.com" None in
  let h := signup Sample.env o Invited.db req in
  (exists r, outcomeOf h = Ok r
             /\ field "position" r = Some (JNum 3)
             /\ field "requiresConfirmation" r = Some (JBool false))
  /\ onError (outcomeOf (signup Sample.env o (dbOf h) req))
     = Some (409, "ALREADY_SIGNED_UP").
Proof.
  intros o req h.
  assert (Hfresh : randomUUID o ∉ List.map Signup.id (signups Invited.db)).
  { simpl. intros H. apply elem_of_cons in H as [H|H]; [discriminate|].
    apply list_elem_of_singleton in H. discriminate. }
  destruct (C2_direct_signup_position Sample.env o Invited.db req Sample.open ∅
              eq_refl eq_refl eq_refl eq_refl eq_refl Hfresh)
    as ((r & Hr & _ & Hpos & Hrc) & _ & _ & _ & _ & _ & Hagain).
  split.
  - exists r. repeat split; assumption.
  - apply (Hagain Sample.env o req ∅); reflexivity.
Defined.

(** ** Origin matcher (C6) *)

Lemma matchesPattern_wildcard (u : URL.t) (domain : string) :
  Js.trim (Js.toLowerCase ("*." +:+ domain)) = "*." +:+ domain ->
  matchesPattern u ("*." +:+ domain)
  = String.eqb (Js.toLowerCase (URL.host u)) domain
    || Js.endsWith (Js.toLowerCase (URL.host u)) ("." +:+ domain).
Proof.
  intros Hnorm. unfold matchesPattern. rewrite Hnorm.
  change ("*." +:+ domain) with (String "*" (String "." domain)).
  reflexivity.
Qed.

(** C6, as the code has it. With the single pattern [*.example.com] the
    matcher allows the subdomain origin https://a.example.com and also the
    bare apex https://example.com: a wildcard pattern matches a host that
    equals the domain after the star-dot prefix or ends with a dot
    followed by it. With the empty pattern list every origin is allowed. *)
Theorem C6_wildcard_amended (u : URL.t) (domain : string)
    (Hnorm : Js.trim (Js.toLowerCase ("*." +:+ domain)) = "*." +:+ domain) :
  isOriginAllowed "https://a.example.com" ["*.example.com"] = true
  /\ isOriginAllowed "https://example.com" ["*.example.com"] = true
  /\ (forall origin, isOriginAllowed origin [] = true)
  /\ (matchesPattern u ("*." +:+ domain) = true <->
      Js.toLowerCase (URL.host u) = domain
      \/ Js.endsWith (Js.toLowerCase (URL.host u)) ("." +:+ domain) = true).
Proof.
  split; [reflexivity|]. split; [reflexivity|]. split; [reflexivity|].
  rewrite (matchesPattern_wildcard u domain Hnorm).
  rewrite orb_true_iff, String.eqb_eq. reflexivity.
Qed.

Lemma C6_wildcard_amended_witness :
  isOriginAllowed "https://example.com" ["*.example.com"] = true
  /\ matchesPattern {| URL.protocol := "https:"; URL.host := "example.com" |}
       "*.example.com" = true.
Proof.
  destruct (C6_wildcard_amended
              {| URL.protocol := "https:"; URL.host := "example.com" |}
              "example.com" eq_refl) as (_ & Hapex & _ & Hiff).
  split; [exact Hapex|]. apply Hiff. left. reflexivity.
Defined.

(** C6 as stated fails: the apex origin is allowed by the wildcard alone. *)
Lemma C6_counterexample :
  isOriginAllowed "https://example.com" ["*.example.com"] <> false.
Proof. vm_compute. discriminate. Qed.

(** ** Rate limiter (C7) *)

Lemma cleanup_lookup_live (t : Z) (store : gmap string RateRecord) (k : string)
    (r : RateRecord) :
  store !! k = Some r -> t <= resetAt r ->
  cleanupExpiredIfNeeded t store !! k = Some r.
Proof.
  intros Hk Hlive. unfold cleanupExpiredIfNeeded.
  destruct (1000 <? _); [|exact Hk].
  apply map_lookup_filter_Some. split; [exact Hk|]. simpl. lia.
Qed.

Lemma cleanup_lookup_Some (t : Z) (store : gmap string RateRecord) (k : string)
    (r : RateRecord) :
  cleanupExpiredIfNeeded t store !! k = Some r -> store !! k = Some r.
Proof.
  unfold cleanupExpiredIfNeeded. destruct (1000 <? _); [|auto].
  intros H. now apply map_lookup_filter_Some in H as [H _].
Qed.

(** A request inside the live window of its key. *)
Lemma rateLimit_live (opts : RateLimitOptions) (k : string) (ts t : Z)
    (store : gmap string RateRecord) (r : RateRecord) :
  store !! k = Some r -> ts <= t -> t <= resetAt r ->
  let res := rateLimit opts k ts t store in
  res.1.1 !! k = Some {| count := count r + 1; resetAt := resetAt r |}
  /\ res.2 = (if max opts <? count r + 1 then Fail Errors.RateLimited else Ok tt)
  /\ (max opts < count r + 1 ->
      header "Retry-After" res.1.2
      = Some (Js.numToString (ceilDiv (resetAt r - t) 1000))).
Proof.
  intros Hk Hts Hlive. unfold rateLimit.
  rewrite (cleanup_lookup_live ts store k r Hk) by lia.
  destruct (Z.ltb_spec (resetAt r) t) as [Hlt|_]; [lia|]. simpl.
  destruct (Z.ltb_spec (max opts) (count r + 1)) as [Hmax|Hmax]; simpl.
  - rewrite lookup_insert_eq. repeat split; reflexivity.
  - rewrite lookup_insert_eq. repeat split; try reflexivity. lia.
Qed.

(** A request whose key has no live window. *)
Lemma rateLimit_fresh (opts : RateLimitOptions) (k : string) (ts t : Z)
    (store : gmap string RateRecord) :
  (forall r, store !! k = Some r -> resetAt r < t) -> 1 <= max opts ->
  let res := rateLimit opts k ts t store in
  res.1.1 !! k = Some {| count := 1; resetAt := t + windowMs opts |}
  /\ res.2 = Ok tt.
Proof.
  intros Hexp Hmax. unfold rateLimit.
  assert (Hrec : match cleanupExpiredIfNeeded ts store !! k with
                 | Some r => if resetAt r <? t
                             then {| count := 1; resetAt := t + windowMs opts |}
                             else {| count := count r + 1; resetAt := resetAt r |}
                 | None => {| count := 1; resetAt := t + windowMs opts |}
                 end = {| count := 1; resetAt := t + windowMs opts |}).
  { destruct (cleanupExpiredIfNeeded ts store !! k) as [r|] eqn:E; [|reflexivity].
    apply cleanup_lookup_Some in E. specialize (Hexp r E).
    destruct (Z.ltb_spec (resetAt r) t); [reflexivity | lia]. }
  rewrite Hrec. simpl.
  destruct (Z.ltb_spec (max opts) 1) as [Hlt|_]; [lia|]. simpl.
  rewrite lookup_insert_eq. split; reflexivity.
Qed.

(** A request with another key leaves a live window alone. *)
Lemma rateLimit_other (opts : RateLimitOptions) (k k' : string) (ts t : Z)
    (store : gmap string RateRecord) (r : RateRecord) :
  k' <> k -> store !! k = Some r -> ts <= resetAt r ->
  (rateLimit opts k' ts t store).1.1 !! k = Some r.
Proof.
  intros Hne Hk Hlive. unfold rateLimit.
  destruct (max opts <? _); simpl;
    (rewrite lookup_insert_ne by exact Hne);
    now apply cleanup_lookup_live.
Qed.

Lemma runSignupLimiter_cons (r : Req.t) (ts t : Z) (rest : list (Req.t * Z * Z))
    (store : gmap string RateRecord) :
  runSignupLimiter ((r, ts, t) :: rest) store
  = let x := signupRateLimit r ts t store in
    let y := runSignupLimiter rest x.1.1 in
    (y.1, (x.1.2, x.2) :: y.2).
Proof.
  simpl. destruct (signupRateLimit r ts t store) as [[s1 hs] out]. simpl.
  now destruct (runSignupLimiter rest s1).
Qed.

Lemma countKey_cons (k : string) (q : Req.t * Z * Z) (reqs : list (Req.t * Z * Z)) :
  countKey k (q :: reqs)
  = (if bool_decide (signupKey q.1.1 = k) then 1 else 0) + countKey k reqs.
Proof.
  unfold countKey. simpl. destruct (bool_decide _); simpl; lia.
Qed.

(** A run of requests, all inside the live window of [k] that ends at
    [R] and has counted [n] requests so far. *)
Lemma run_live (k : string) (R : Z) (reqs : list (Req.t * Z * Z)) :
  forall (store : gmap string RateRecord) (n : Z),
    store !! k = Some {| count := n; resetAt := R |} ->
    Forall (fun q => q.1.2 <= q.2 /\ q.2 <= R) reqs ->
    let res := runSignupLimiter reqs store in
    res.1 !! k = Some {| count := n + countKey k reqs; resetAt := R |}
    /\ forall i r ts t,
         reqs !! i = Some (r, ts, t) -> signupKey r = k ->
         let j := n + countKey k (List.firstn (S i) reqs) in
         exists hs,
           res.2 !! i
           = Some (hs, if 10 <? j then Fail Errors.RateLimited else Ok tt)
           /\ (10 < j ->
               header "Retry-After" hs
               = Some (Js.numToString (ceilDiv (R - t) 1000))).
Proof.
  induction reqs as [|[[r0 ts0] t0] rest IH]; intros store n Hk Hall.
  - simpl. split.
    + rewrite Hk. do 2 f_equal. unfold countKey. simpl. lia.
    + intros i r ts t Hi. discriminate.
  - apply Forall_cons in Hall as [[Hts0 Ht0] Hall]. simpl in Hts0, Ht0.
    rewrite runSignupLimiter_cons. cbv zeta.
    destruct (decide (signupKey r0 = k)) as [Hkey|Hkey].
    + (* a request of the key itself *)
      destruct (rateLimit_live signupOptions k ts0 t0 store _ Hk Hts0 Ht0)
        as (Hst & Hout & Hretry). simpl in Hst, Hout, Hretry.
      unfold signupRateLimit. rewrite Hkey.
      destruct (IH _ (n + 1) Hst Hall) as [IHk IHi].
      split.
      * simpl. rewrite IHk, countKey_cons. simpl.
        rewrite bool_decide_eq_true_2 by exact Hkey. do 2 f_equal. lia.
      * intros [|i] r ts t Hi Hr; simpl in Hi.
        -- injection Hi as -> -> ->. simpl List.firstn.
           rewrite countKey_cons. simpl.
           rewrite bool_decide_eq_true_2 by exact Hkey.
           replace (n + (1 + countKey k (List.firstn 0 rest))) with (n + 1)
             by (unfold countKey; simpl; lia).
           eexists. split; [simpl; rewrite Hout; reflexivity|].
           intros Hj. apply Hretry. simpl. lia.
        -- destruct (IHi i r ts t Hi Hr) as (hs & Hres & Hra).
           simpl List.firstn. rewrite countKey_cons. simpl fst.
           rewrite bool_decide_eq_true_2 by exact Hkey.
           replace (n + (1 + countKey k (List.firstn (S i) rest)))
             with (n + 1 + countKey k (List.firstn (S i) rest)) by lia.
           exists hs. split; [exact Hres | exact Hra].
    + (* a request of another key *)
      assert (Hst : (signupRateLimit r0 ts0 t0 store).1.1 !! k
                    = Some {| count := n; resetAt := R |}).
      { apply rateLimit_other; [exact Hkey | exact Hk | simpl; lia]. }
      destruct (IH _ n Hst Hall) as [IHk IHi].
      split.
      * simpl. rewrite IHk, countKey_cons. simpl.
        rewrite bool_decide_eq_false_2 by exact Hkey. do 2 f_equal.
      * intros [|i] r ts t Hi Hr; simpl in Hi.
        -- injection Hi as -> -> ->. contradiction.
        -- destruct (IHi i r ts t Hi Hr) as (hs & Hres & Hra).
           simpl List.firstn. rewrite countKey_cons. simpl fst.
           rewrite bool_decide_eq_false_2 by exact Hkey. simpl.
           exists hs. split; [exact Hres | exact Hra].
Qed.

(** C7. The signup limiter, 10 requests per key per window of 60 minutes.
    Take any store in which the key of [first] has no live window at time
    [t1], and any run of requests (of this and of other keys) that starts
    with [first] at [t1] and stays inside the window it opens. Then the
    j-th request of that key is let through for j up to 10 and from the
    11th on is refused with 429 RATE_LIMITED and a Retry-After header of
    the remaining seconds of the window, rounded up. A request of that
    key after the window has ended is let through and opens a new window
    with count 1. *)
Theorem C7_signup_rate_limit
    (store : gmap string RateRecord) (first : Req.t) (ts1 t1 : Z)
    (rest : list (Req.t * Z * Z))
    (Hclock : ts1 <= t1)
    (Hexpired : forall r, store !! signupKey first = Some r -> resetAt r < t1)
    (Hwindow : Forall (fun q => q.1.2 <= q.2 /\ q.2 <= t1 + 3600000) rest) :
  let k := signupKey first in
  let reqs := (first, ts1, t1) :: rest in
  let res := runSignupLimiter reqs store in
  (forall i r ts t,
      reqs !! i = Some (r, ts, t) -> signupKey r = k ->
      let j := countKey k (List.firstn (S i) reqs) in
      exists hs out,
        res.2 !! i = Some (hs, out)
        /\ (j <= 10 -> out = Ok tt)
        /\ (10 < j ->
            out = Fail Errors.RateLimited
            /\ onError out = Some (429, "RATE_LIMITED")
            /\ header "Retry-After" hs
               = Some (Js.numToString (ceilDiv (t1 + 3600000 - t) 1000))))
  /\ (forall r ts t,
        signupKey r = k -> ts <= t -> t1 + 3600000 < t ->
        let after := signupRateLimit r ts t res.1 in
        after.2 = Ok tt
        /\ after.1.1 !! k = Some {| count := 1; resetAt := t + 3600000 |}).
Proof.
  intros k reqs res. subst reqs res.
  rewrite runSignupLimiter_cons. cbv zeta.
  destruct (rateLimit_fresh signupOptions k ts1 t1 store Hexpired ltac:(simpl; lia))
    as [Hst Hout]. simpl in Hst.
  change (signupRateLimit first ts1 t1 store) with (rateLimit signupOptions k ts1 t1 store).
  destruct (run_live k (t1 + 3600000) rest _ 1 Hst Hwindow) as [Hk Hi].
  split.
  - intros [|i] r ts t Hreq Hr; simpl in Hreq.
    + injection Hreq as -> -> ->. simpl List.firstn. rewrite countKey_cons. simpl fst.
      rewrite bool_decide_eq_true_2 by reflexivity.
      replace (1 + countKey k (List.firstn 0 rest)) with 1
        by (unfold countKey; simpl; lia).
      eexists _, _. split; [reflexivity|]. simpl snd.
      split; [intros _; exact Hout | lia].
    + destruct (Hi i r ts t Hreq Hr) as (hs & Hres & Hra). simpl in Hres, Hra.
      simpl List.firstn. rewrite countKey_cons. simpl fst.
      rewrite bool_decide_eq_true_2 by reflexivity.
      eexists _, _. split; [exact Hres|].
      destruct (Z.ltb_spec 10 (1 + countKey k (List.firstn (S i) rest))) as [Hlt|Hle].
      * split; [lia|]. intros _. split; [reflexivity|]. split; [reflexivity|].
        now apply Hra.
      * split; [reflexivity | lia].
  - intros r ts t Hr Hts Hlate. simpl fst.
    unfold signupRateLimit. rewrite Hr.
    destruct (rateLimit_fresh signupOptions k ts t
                (runSignupLimiter rest (rateLimit signupOptions k ts1 t1 store).1.1).1)
      as [Hst2 Hout2].
    + intros r' Hr'. rewrite Hk in Hr'. injection Hr' as <-. simpl. lia.
    + simpl. lia.
    + split; [exact Hout2 | exact Hst2].
Qed.

Lemma C7_signup_rate_limit_witness :
  let res := runSignupLimiter ((Burst.alice, 0, 0) :: Burst.rest) ∅ in
  (exists hs out,
      res.2 !! 10%nat = Some (hs, out) /\ out = Ok tt)
  /\ (exists hs out,
        res.2 !! 11%nat = Some (hs, out)
        /\ out = Fail Errors.RateLimited
        /\ header "Retry-After" hs = Some "3000")
  /\ (signupRateLimit Burst.alice 3600001 3600001 res.1).2 = Ok tt.
Proof.
  intros res.
  assert (Hwin : Forall (fun q : Req.t * Z * Z => q.1.2 <= q.2 /\ q.2 <= 0 + 3600000)
                        Burst.rest).
  { unfold Burst.rest. repeat (apply Forall_cons; split; [simpl; lia|]).
    apply Forall_nil_2. }
  destruct (C7_signup_rate_limit ∅ Burst.alice 0 0 Burst.rest
              ltac:(lia) ltac:(intros r Hr; now rewrite lookup_empty in Hr) Hwin)
    as [Hrun Hafter].
  split; [|split].
  - destruct (Hrun 10%nat Burst.alice 540000 540000 eq_refl eq_refl)
      as (hs & out & Hres & Hok & _).
    exists hs, out. split; [exact Hres|]. apply Hok. vm_compute. discriminate.
  - destruct (Hrun 11%nat Burst.alice 600000 600001 eq_refl eq_refl)
      as (hs & out & Hres & _ & Hno).
    destruct Hno as (Hout & _ & Hra); [vm_compute; reflexivity|].
    exists hs, out. split; [exact Hres|]. split; [exact Hout | exact Hra].
  - apply (Hafter Burst.alice 3600001 3600001 eq_refl); lia.
Defined.

(** ** Daily series (C8) *)

Lemma fillDailySignups_le (m : gmap Z (Z * Z)) (d e : Z) :
  d <= e -> fillDailySignups m d e = dailyEntry m d :: fillDailySignups m (d + 1) e.
Proof.
  intros H. rewrite fillDailySignups_equation_1.
  destruct (decide (d <= e)) as [?|?]; [reflexivity | lia].
Qed.

Lemma fillDailySignups_gt (m : gmap Z (Z * Z)) (d e : Z) :
  e < d -> fillDailySignups m d e = [].
Proof.
  intros H. rewrite fillDailySignups_equation_1.
  destruct (decide (d <= e)) as [?|?]; [lia | reflexivity].
Qed.

Lemma fillDailySignups_days (m : gmap Z (Z * Z)) (n : nat) :
  forall d e, Z.to_nat (e - d + 1) = n ->
    fillDailySignups m d e = List.map (dailyEntry m) (daysBetween d e).
Proof.
  induction n as [|n IH]; intros d e Hn; unfold daysBetween; rewrite Hn.
  - rewrite fillDailySignups_gt by lia. reflexivity.
  - rewrite fillDailySignups_le by lia.
    rewrite (IH (d + 1) e) by lia. unfold daysBetween.
    replace (Z.to_nat (e - (d + 1) + 1)) with n by lia.
    simpl. f_equal; [f_equal; lia|].
    rewrite <- List.seq_shift, !List.map_map.
    apply List.map_ext. intros i. f_equal. lia.
Qed.

Lemma elem_of_insertDay (d x : Z) (l : list Z) :
  x ∈ insertDay d l <-> x = d \/ x ∈ l.
Proof.
  induction l as [|a l IH]; simpl.
  - rewrite list_elem_of_singleton, elem_of_nil. tauto.
  - destruct (Z.ltb_spec d a); [|destruct (Z.eqb_spec d a)].
    + rewrite elem_of_cons. tauto.
    + subst. rewrite elem_of_cons. tauto.
    + rewrite !elem_of_cons, IH. tauto.
Qed.

Lemma elem_of_distinctDays (rows : list Signup.t) (d : Z) :
  d ∈ distinctDays rows <-> exists s, s ∈ rows /\ dayOf s = d.
Proof.
  unfold distinctDays. induction rows as [|r rows IH]; simpl.
  - rewrite elem_of_nil. split; [tauto|]. intros (s & Hs & _). now apply elem_of_nil in Hs.
  - rewrite elem_of_insertDay, IH. split.
    + intros [->|(s & Hs & Hd)].
      * exists r. split; [apply elem_of_cons; now left | reflexivity].
      * exists s. split; [apply elem_of_cons; now right | exact Hd].
    + intros (s & Hs & Hd). apply elem_of_cons in Hs as [->|Hs]; [now left|].
      right. eauto.
Qed.

Lemma dateMapOf_lookup (c k : Z -> Z) (days : list Z) (d : Z) :
  forall m : gmap Z (Z * Z),
    List.fold_left
      (fun m x => <[Daily.date x := (Daily.count x, Daily.confirmed x)]> m)
      (List.map (fun y => {| Daily.date := y; Daily.count := c y; Daily.confirmed := k y |})
                days) m !! d
    = if decide (d ∈ days) then Some (c d, k d) else m !! d.
Proof.
  induction days as [|a days IH]; intros m; simpl.
  - destruct (decide (d ∈ [])) as [H|_]; [now apply elem_of_nil in H | reflexivity].
  - rewrite IH. destruct (decide (d ∈ days)) as [Hin|Hnin].
    + rewrite decide_True by (apply elem_of_cons; now right). reflexivity.
    + destruct (decide (d = a)) as [->|Hne].
      * rewrite decide_True by (apply elem_of_cons; now left).
        now rewrite lookup_insert_eq.
      * rewrite decide_False by (rewrite elem_of_cons; tauto).
        now rewrite lookup_insert_ne.
Qed.

Lemma countWhere_none (p : Signup.t -> bool) (rows : list Signup.t) :
  (forall s, s ∈ rows -> p s = false) -> countWhere p rows = 0.
Proof.
  intros H. unfold countWhere.
  induction rows as [|r rows IH]; [reflexivity|]. simpl.
  rewrite (H r) by (apply elem_of_cons; now left).
  apply IH. intros s Hs. apply H. apply elem_of_cons; now right.
Qed.

Lemma countWhere_filter (p q : Signup.t -> bool) (rows : list Signup.t) :
  countWhere q (List.filter p rows) = countWhere (fun s => p s && q s) rows.
Proof. unfold countWhere. now rewrite filter_filter_andb. Qed.

Lemma countWhere_ext (p q : Signup.t -> bool) (rows : list Signup.t) :
  (forall s, p s = q s) -> countWhere p rows = countWhere q rows.
Proof.
  intros H. unfold countWhere. do 2 f_equal. now apply List.filter_ext.
Qed.

(** Inside the requested range the period test is the waitlist test. *)
Lemma inPeriod_day (id : string) (fromDay toDay : Z) (s : Signup.t) :
  fromDay <= dayOf s <= toDay ->
  inPeriod id (fromDay * 86400) ((toDay * 86400000 + 86399999) / 1000) s
  = bool_decide (Signup.waitlistId s = id).
Proof.
  intros Hd. unfold inPeriod, dayOf in *.
  assert (E : (toDay * 86400000 + 86399999) / 1000 = toDay * 86400 + 86399).
  { symmetry. apply (Z.div_unique _ _ _ 999); lia. }
  rewrite E.
  pose proof (Z.div_mod (createdAtColumn s) 86400 ltac:(lia)) as Hdm.
  pose proof (Z.mod_pos_bound (createdAtColumn s) 86400 ltac:(lia)) as Hb.
  destruct (bool_decide (Signup.waitlistId s = id)); [|reflexivity]. simpl.
  apply andb_true_intro. split; [apply Z.leb_le | apply Z.leb_le]; lia.
Qed.

(** The entry the filled series holds for a day of the range. *)
Lemma dailyEntry_counts (db : Db) (id : string) (fromDay toDay d : Z) :
  fromDay <= d <= toDay ->
  let e := dailyEntry
             (dateMapOf (dailySignupsQuery db id (fromDay * 86400)
                           ((toDay * 86400000 + 86399999) / 1000))) d in
  Daily.date e = d
  /\ Daily.count e
     = countWhere (fun s => bool_decide (Signup.waitlistId s = id) && (dayOf s =? d))
                  (signups db)
  /\ Daily.confirmed e
     = countWhere (fun s => bool_decide (Signup.waitlistId s = id) && (dayOf s =? d)
                            && isConfirmedOrInvited (Signup.status s))
                  (signups db).
Proof.
  intros Hd e. subst e. unfold dailyEntry, dateMapOf, dailySignupsQuery. simpl.
  set (rows := List.filter _ (signups db)).
  rewrite (dateMapOf_lookup
             (fun y => countWhere (fun s => dayOf s =? y) rows)
             (fun y => countWhere (fun s => (dayOf s =? y)
                                            && isConfirmedOrInvited (Signup.status s)) rows)).
  rewrite lookup_empty.
  assert (Hc : countWhere (fun s => dayOf s =? d) rows
               = countWhere (fun s => bool_decide (Signup.waitlistId s = id)
                                      && (dayOf s =? d)) (signups db)).
  { subst rows. rewrite countWhere_filter. unfold countWhere. do 2 f_equal.
    apply List.filter_ext. intros s.
    destruct (Z.eqb_spec (dayOf s) d) as [E|E]; [|now rewrite !andb_false_r].
    rewrite !andb_true_r. apply inPeriod_day. lia. }
  assert (Hk : countWhere (fun s => (dayOf s =? d)
                                    && isConfirmedOrInvited (Signup.status s)) rows
               = countWhere (fun s => bool_decide (Signup.waitlistId s = id)
                                      && (dayOf s =? d)
                                      && isConfirmedOrInvited (Signup.status s))
                            (signups db)).
  { subst rows. rewrite countWhere_filter. unfold countWhere. do 2 f_equal.
    apply List.filter_ext. intros s.
    destruct (Z.eqb_spec (dayOf s) d) as [E|E];
      [|now rewrite !andb_false_r].
    rewrite !andb_true_r. simpl. f_equal. apply inPeriod_day. lia. }
  split; [reflexivity|].
  destruct (decide (d ∈ distinctDays rows)) as [Hin|Hnin]; simpl.
  - split; [exact Hc | exact Hk].
  - rewrite <- Hc, <- Hk.
    assert (Hno : forall s, s ∈ rows -> (dayOf s =? d) = false).
    { intros s Hs. apply Z.eqb_neq. intros E. apply Hnin.
      apply elem_of_distinctDays. eauto. }
    split; symmetry; apply countWhere_none; intros s Hs;
      rewrite (Hno s Hs); reflexivity.
Qed.

(** C8. For an existing waitlist and the range of days from..to, the
    daily series of the stats response has exactly one entry per day of
    the range, in ascending order of date; the entry of a day carries the
    number of the waitlist's signups created on that day and how many of
    them are confirmed or invited, so a day without signups has count 0
    and confirmed 0. *)
Theorem C8_daily_series_gap_filled
    (db : Db) (id : string) (fromDay toDay : Z) (w : Waitlist.t)
    (Hw : findWaitlistById db id = Some w) :
  exists series,
    dailySeries db id fromDay toDay = Ok series
    /\ List.map Daily.date series = daysBetween fromDay toDay
    /\ (fromDay <= toDay -> Z.of_nat (List.length series) = toDay - fromDay + 1)
    /\ Forall (fun e =>
         Daily.count e
         = countWhere (fun s => bool_decide (Signup.waitlistId s = id)
                                && (dayOf s =? Daily.date e)) (signups db)
         /\ Daily.confirmed e
            = countWhere (fun s => bool_decide (Signup.waitlistId s = id)
                                   && (dayOf s =? Daily.date e)
                                   && isConfirmedOrInvited (Signup.status s))
                         (signups db)
         /\ ((forall s, s ∈ signups db -> Signup.waitlistId s = id ->
                        dayOf s <> Daily.date e) ->
             Daily.count e = 0 /\ Daily.confirmed e = 0))
       series.
Proof.
  unfold dailySeries. rewrite Hw. eexists. split; [reflexivity|].
  rewrite (fillDailySignups_days _ _ fromDay toDay eq_refl).
  set (m := dateMapOf _).
  split; [|split].
  - rewrite List.map_map. simpl. apply List.map_id.
  - intros Hle. rewrite List.length_map. unfold daysBetween.
    rewrite List.length_map, List.length_seq. lia.
  - apply Forall_forall. intros e He.
    apply list_elem_of_fmap in He as (d & -> & Hd).
    unfold daysBetween in Hd. apply list_elem_of_fmap in Hd as (i & -> & Hi).
    apply list_elem_of_In, List.in_seq in Hi.
    destruct (dailyEntry_counts db id fromDay toDay (fromDay + Z.of_nat i)
                ltac:(lia)) as (Hdate & Hc & Hk).
    fold m in Hdate, Hc, Hk. rewrite Hdate.
    split; [exact Hc|]. split; [exact Hk|].
    intros Hnone. rewrite Hc, Hk.
    split; apply countWhere_none; intros s Hs;
      destruct (bool_decide (Signup.waitlistId s = id)) eqn:E1; try reflexivity;
      apply bool_decide_eq_true in E1;
      specialize (Hnone s Hs E1); apply Z.eqb_neq in Hnone; now rewrite Hnone.
Qed.

Lemma C8_daily_series_gap_filled_witness :
  exists series,
    dailySeries TwoDays.db "w1" 1 10 = Ok series
    /\ List.map Daily.date series = [1; 2; 3; 4; 5; 6; 7; 8; 9; 10]
    /\ List.length series = 10%nat
    /\ List.length
         (List.filter (fun e => (Daily.count e =? 0) && (Daily.confirmed e =? 0)) series)
       = 8%nat.
Proof.
  destruct (C8_daily_series_gap_filled TwoDays.db "w1" 1 10 Sample.beta eq_refl)
    as (series & Hs & Hdates & _ & _).
  exists series. split; [exact Hs|]. split; [exact Hdates|].
  assert (E : Ok series = dailySeries TwoDays.db "w1" 1 10) by now rewrite Hs.
  vm_compute in E. injection E as ->. split; reflexivity.
Defined.

(** ** CSV export (C9) *)

Lemma append_cons (c : ascii) (a b : string) :
  String c a +:+ b = String c (a +:+ b).
Proof. reflexivity. Qed.

Lemma append_assoc (a b c : string) : (a +:+ b) +:+ c = a +:+ (b +:+ c).
Proof.
  induction a as [|x a IH]; [reflexivity|].
  rewrite !append_cons. now rewrite IH.
Qed.














(** ** What a data record stands for *)




Lemma insertByPosition_perm (s : Signup.t) (l : list Signup.t) :
  Permutation (insertByPosition s l) (s :: l).
Proof.
  induction l as [|x l IH]; simpl; [reflexivity|].
  destruct (Signup.position s <=? Signup.position x); [reflexivity|].
  rewrite IH. apply perm_swap.
Qed.

Lemma orderByPosition_perm (l : list Signup.t) : Permutation (orderByPosition l) l.
Proof.
  induction l as [|x l IH]; simpl; [reflexivity|].
  rewrite insertByPosition_perm. now constructor.
Qed.


(** C9. The export quotes the cells of the data lines but joins the
    header cells as they are. With a custom-field key that holds a line
    break the exported text has the header broken over two lines, so it
    parses back to one record more than there are signups (a record that
    stands for no signup); with a key that holds a quote it does not parse
    at all. *)
Theorem C9_header_line_not_escaped :
  (exists csv,
      exportCsv OddKeys.iso OddKeys.db "w3" = Ok csv
      /\ List.length (signupsOf OddKeys.db "w3") = 1%nat
      /\ Rfc4180.triples csv = Some [None; Some (1, "a@example.com", confirmed)])
  /\ (exists csv,
        exportCsv OddKeys.iso OddKeys.db "w4" = Ok csv
        /\ Rfc4180.parse csv = None).
Proof.
  split; eexists; (split; [reflexivity|]).
  - split; reflexivity.
  - reflexivity.
Qed.


(** ** Invariants of the signups table

    The assumptions made above about the table, the primary key and the
    positions 1..n of a waitlist, hold of the empty table and are kept by
    every handler that writes to it. *)




Lemma existsb_false_elem {A} (p : A -> bool) (l : list A) (x : A) :
  List.existsb p l = false -> x ∈ l -> p x = false.
Proof.
  intros H Hx. destruct (p x) eqn:E; [|reflexivity].
  assert (List.existsb p l = true) as Ht
    by (apply List.existsb_exists; exists x; split; [now apply list_elem_of_In | exact E]).
  congruence.
Qed.





(** * Further properties *)

(** ** What the handlers leave alone *)

Lemma identity_updateSignup (db : Db) (sid : string) (f : Signup.t -> Signup.t) :
  (forall s, identity (f s) = identity s) ->
  List.map identity (signups (updateSignup db sid f)) = List.map identity (signups db).
Proof.
  intros Hf. unfold updateSignup; simpl. rewrite List.map_map.
  apply List.map_ext. intros s. destruct (bool_decide _); [apply Hf | reflexivity].
Qed.

Lemma patchUpdates_identity (body : option Status) (signup : Signup.t) (t : Z)
    (set : Signup.t -> Signup.t) :
  patchUpdates body signup t = Some set -> forall s, identity (set s) = identity s.
Proof.
  unfold patchUpdates. destruct body as [st|]; [|discriminate].
  destruct (_ && _); intros [= <-] s; reflexivity.
Qed.

Lemma confirm_identity (env : Env) (o : Oracle) (db : Db) (slug token : string) :
  List.map identity (signups (dbOf (confirm env o db slug token)))
  = List.map identity (signups db).
Proof.
  destruct (confirm_db env o db slug token) as [->|(s & _ & _ & ->)]; [reflexivity|].
  apply identity_updateSignup; intros ?; reflexivity.
Qed.

Lemma patchSignup_identity (o : Oracle) (db : Db) (id signupId : string)
    (body : option Status) :
  List.map identity (signups (fst (patchSignup o db id signupId body)))
  = List.map identity (signups db).
Proof.
  rewrite patchSignup_db.
  destruct (findSignupById db signupId id) as [signup|]; [|reflexivity].
  destruct (patchUpdates body signup (now o)) as [set|] eqn:Hp; [|reflexivity].
  apply identity_updateSignup. now apply (patchUpdates_identity body signup (now o)).
Qed.

(** X3. No signup, confirmation or admin patch deletes a row or rewrites the
    id, waitlist, email, position or creation time of one: the rows after
    the request are the rows before it, in order, with those columns as
    they were, followed by at most one new row, which only a signup
    request adds. *)
Theorem rows_are_never_lost_or_moved (env : Env) (o : Oracle) (db : Db) :
  (forall req, exists added,
      List.map identity (signups (dbOf (signup env o db req)))
      = List.map identity (signups db) ++ List.map identity added
      /\ (List.length added <= 1)%nat)
  /\ (forall slug token,
        List.map identity (signups (dbOf (confirm env o db slug token)))
        = List.map identity (signups db))
  /\ (forall id signupId body,
        List.map identity (signups (fst (patchSignup o db id signupId body)))
        = List.map identity (signups db)).
Proof.
  split; [|split].
  - intros req.
    destruct (signup_db env o db req)
      as [->|[(ex & _ & _ & ->)|(w & e & cd & dbl & ->)]].
    + exists []. simpl. rewrite List.app_nil_r. split; [reflexivity | lia].
    + exists []. simpl. rewrite List.app_nil_r. split; [|lia].
      apply identity_updateSignup; intros ?; reflexivity.
    + eexists [_]. simpl. rewrite List.map_app. split; [reflexivity | lia].
  - intros slug token. apply confirm_identity.
  - intros id signupId body. apply patchSignup_identity.
Qed.

(** ** Keys of the table *)








(** ** Resending the confirmation link *)





(** ** A pending signup and the public count *)

Lemma signupCountOf_found (db : Db) (slug : string) (w : Waitlist.t) :
  findWaitlistBySlug db slug = Some w ->
  signupCountOf db slug = Some (JNum (countConfirmed db (Waitlist.id w))).
Proof. intros H. unfold signupCountOf, statusEndpoint. now rewrite H. Qed.

Lemma countConfirmed_app (db : Db) (rows : list Signup.t) (wid : string) :
  countConfirmed (withSignups db (signups db ++ rows)) wid
  = countConfirmed db wid
    + Z.of_nat (List.length
        (List.filter (fun s => bool_decide (Signup.waitlistId s = wid)
                               && bool_decide (Signup.status s = confirmed)) rows)).
Proof.
  unfold countConfirmed. simpl. rewrite List.filter_app, List.length_app. lia.
Qed.

Lemma map_id_on {A} (g : A -> A) (l : list A) :
  (forall x, x ∈ l -> g x = x) -> List.map g l = l.
Proof.
  intros H. induction l as [|a l IH]; simpl; [reflexivity|].
  rewrite (H a) by (apply elem_of_cons; now left).
  f_equal. apply IH. intros x Hx. apply H. apply elem_of_cons; now right.
Qed.

Lemma updateSignup_last (db : Db) (row : Signup.t) (f : Signup.t -> Signup.t) :
  Signup.id row ∉ List.map Signup.id (signups db) ->
  updateSignup (withSignups db (signups db ++ [row])) (Signup.id row) f
  = withSignups db (signups db ++ [f row]).
Proof.
  intros Hfresh. unfold updateSignup, withSignups. simpl. f_equal.
  rewrite List.map_app. simpl. rewrite bool_decide_eq_true_2 by reflexivity.
  f_equal. apply map_id_on. intros x Hx.
  rewrite bool_decide_eq_false_2; [reflexivity|].
  intros E. apply Hfresh. rewrite <- E. now apply list_elem_of_fmap_2.
Qed.

(** X6. On a waitlist with double opt-in and mail configured, a signup for
    a new email leaves the signupCount of the public status endpoint as
    it was, and the confirmation with the token it generated raises the
    count by exactly one. *)
Theorem pending_signup_counts_once_confirmed
    (env env2 : Env) (o o2 : Oracle) (db : Db) (req : Req.t) (w : Waitlist.t)
    (cd : gmap string string)
    (Hw : findWaitlistBySlug db (Req.slug req) = Some w)
    (Hdbl : Js.truthyb (Waitlist.doubleOptIn w) = true)
    (Hmail : isEmailConfigured env = true)
    (Hvalid : isValidEmail (normalizeEmail (Req.email (Req.json req))) = true)
    (Hcf : validateCustomFields (Waitlist.customFields w)
             (Req.customData (Req.json req)) = Ok cd)
    (Hnew : findSignupByEmail db (Waitlist.id w)
              (normalizeEmail (Req.email (Req.json req))) = None)
    (Hfresh : randomUUID o ∉ List.map Signup.id (signups db))
    (Htok : tokenUnused db (Waitlist.id w) (generateToken o)) :
  let h := signup env o db req in
  let h2 := confirm env2 o2 (dbOf h) (Req.slug req) (generateToken o) in
  exists n,
    signupCountOf db (Req.slug req) = Some (JNum n)
    /\ signupCountOf (dbOf h) (Req.slug req) = Some (JNum n)
    /\ signupCountOf (dbOf h2) (Req.slug req) = Some (JNum (n + 1))
    /\ isOk (outcomeOf h2) = true.
Proof.
  intros h h2.
  destruct (signup_fresh_db env o db req w cd Hw Hvalid Hcf Hnew Hfresh) as [Hrows Hwl].
  rewrite Hdbl, Hmail in Hrows. simpl in Hrows.
  set (row := newSignupRow o w req (normalizeEmail (Req.email (Req.json req))) cd true
                (nextPosition db (Waitlist.id w))) in *.
  assert (Hdb : dbOf h = withSignups db (signups db ++ [row])).
  { subst h. destruct (dbOf (signup env o db req)) as [wl su]. simpl in *. now subst. }
  assert (Hw1 : findWaitlistBySlug (dbOf h) (Req.slug req) = Some w)
    by (rewrite Hdb; exact Hw).
  assert (Hfind : findSignupByToken (dbOf h) (Waitlist.id w) (generateToken o) = Some row).
  { rewrite Hdb. unfold findSignupByToken. simpl. apply find_app_last.
    - apply find_none_all. intros y Hy.
      destruct (bool_decide (Signup.waitlistId y = Waitlist.id w)) eqn:E1; [|reflexivity].
      apply bool_decide_eq_true in E1. simpl.
      apply bool_decide_eq_false_2. exact (Htok y Hy E1).
    - subst row. simpl. now rewrite !bool_decide_eq_true_2. }
  destruct (confirm_pending env2 o2 (dbOf h) (Req.slug req) (generateToken o) w row
              Hw1 Hfind eq_refl) as [Hdb2 Hout2].
  fold h2 in Hdb2, Hout2.
  assert (Hdb2' : dbOf h2 = withSignups db (signups db ++ [redeem (now o2) row])).
  { rewrite Hdb2, Hdb. apply updateSignup_last. exact Hfresh. }
  exists (countConfirmed db (Waitlist.id w)).
  split; [now apply signupCountOf_found|]. split; [|split].
  - rewrite (signupCountOf_found _ _ w Hw1), Hdb, countConfirmed_app. simpl.
    rewrite andb_false_r. simpl. do 2 f_equal. lia.
  - rewrite (signupCountOf_found (dbOf h2) _ w) by (rewrite Hdb2'; exact Hw).
    rewrite Hdb2', countConfirmed_app. simpl.
    rewrite !bool_decide_eq_true_2 by reflexivity. reflexivity.
  - now rewrite Hout2.
Qed.

Lemma pending_signup_counts_once_confirmed_witness :
  let o := Sample.oracle 7000 "s7" "tok-7" in
  let req := Sample.request "beta" "Dana@Example.com" None in
  let h := signup Sample.env o Sample.db req in
  let h2 := confirm Sample.env o (dbOf h) "beta" "tok-7" in
  exists n,
    signupCountOf (dbOf h) "beta" = Some (JNum n)
    /\ signupCountOf (dbOf h2) "beta" = Some (JNum (n + 1)).
Proof.
  intros o req h h2.
  assert (Hfresh : randomUUID o ∉ List.map Signup.id (signups Sample.db)).
  { simpl. intros H. apply list_elem_of_singleton in H. discriminate. }
  assert (Htok : tokenUnused Sample.db "w1" "tok-7").
  { intros r Hr _. simpl in Hr. apply list_elem_of_singleton in Hr as ->. discriminate. }
  destruct (pending_signup_counts_once_confirmed Sample.env Sample.env o o Sample.db req
              Sample.beta ∅ eq_refl eq_refl eq_refl eq_refl eq_refl eq_refl Hfresh Htok)
    as (n & _ & H1 & H2 & _).
  exists n. split; [exact H1 | exact H2].
Defined.

(** ** The custom-field check *)

Lemma validateField_Ok (data : option (gmap string string)) (cd : gmap string string)
    (f : CustomField) :
  validateField data (Ok cd) f
  = if required f && blankField data f
    then Fail (Errors.ValidationError (label f +:+ " is required"))
    else if Js.truthy (data ≫= (fun m => m !! key f))
         then Ok (<[key f := Js.trim (default EmptyString (data ≫= (fun m => m !! key f)))]> cd)
         else Ok cd.
Proof. reflexivity. Qed.

Lemma fold_validateField_stuck (data : option (gmap string string))
    (fields : list CustomField) (e : AppError) :
  List.fold_left (validateField data) fields (Fail e) = Fail e.
Proof. induction fields as [|f fields IH]; [reflexivity | exact IH]. Qed.


Lemma fold_validateField_Fail (data : option (gmap string string))
    (fields : list CustomField) :
  forall cd0 e,
    List.fold_left (validateField data) fields (Ok cd0) = Fail e ->
    exists before f after,
      fields = before ++ f :: after
      /\ Forall (fun g => required g = true -> blankField data g = false) before
      /\ required f = true /\ blankField data f = true
      /\ e = Errors.ValidationError (label f +:+ " is required").
Proof.
  induction fields as [|f fields IH]; intros cd0 e H; [discriminate|].
  cbn [List.fold_left] in H. rewrite validateField_Ok in H.
  destruct (required f && blankField data f) eqn:Hreq.
  - rewrite fold_validateField_stuck in H. injection H as <-.
    apply andb_prop in Hreq as [Hr Hb].
    exists [], f, fields. repeat split; auto.
  - assert (Hf : required f = true -> blankField data f = false)
      by (intros Hr; now rewrite Hr in Hreq).
    destruct (Js.truthy _);
      destruct (IH _ _ H) as (before & g & after & -> & Hall & Hr & Hb & He);
      exists (f :: before), g, after; repeat split; auto.
Qed.



(** ** The export, once more *)


Lemma insertByPosition_sorted (s : Signup.t) (l : list Signup.t) :
  Sorted (fun a b => Signup.position a <= Signup.position b) l ->
  Sorted (fun a b => Signup.position a <= Signup.position b) (insertByPosition s l).
Proof.
  induction l as [|x l IH]; intros Hs; simpl.
  - repeat constructor.
  - destruct (Z.leb_spec (Signup.position s) (Signup.position x)).
    + constructor; [exact Hs | now constructor].
    + apply Sorted_inv in Hs as [Hs Hhd]. constructor; [now apply IH|].
      destruct l as [|y l]; simpl.
      * constructor. lia.
      * destruct (Z.leb_spec (Signup.position s) (Signup.position y));
          constructor; [lia|]. now apply HdRel_inv in Hhd.
Qed.

Lemma orderByPosition_sorted (l : list Signup.t) :
  Sorted (fun a b => Signup.position a <= Signup.position b) (orderByPosition l).
Proof.
  induction l as [|x l IH]; simpl; [constructor|]. now apply insertByPosition_sorted.
Qed.

(** X8. The data lines of the export are the signups of the waitlist asked
    for, each once and none of another waitlist, in ascending order of
    position; each line has the four fixed cells, one cell per
    custom-field key of the schema and the two dates. *)
Theorem export_rows_in_position_order (toISOString : Z -> string) (db : Db)
    (w : Waitlist.t) :
  exists rows,
    exportRows toISOString db w = List.map (exportRow toISOString (customFieldKeys w)) rows
    /\ Permutation rows (signupsOf db (Waitlist.id w))
    /\ Sorted (fun a b => Signup.position a <= Signup.position b) rows
    /\ (forall s, s ∈ rows <-> s ∈ signups db /\ Signup.waitlistId s = Waitlist.id w)
    /\ Forall (fun cells =>
                 List.length cells
                 = (6 + List.length (Waitlist.customFields w))%nat)
              (exportRows toISOString db w).
Proof.
  exists (orderByPosition (signupsOf db (Waitlist.id w))).
  split; [reflexivity|]. split; [apply orderByPosition_perm|].
  split; [apply orderByPosition_sorted|]. split.
  - intros s. rewrite (orderByPosition_perm (signupsOf db (Waitlist.id w))).
    unfold signupsOf. rewrite list_elem_of_In, List.filter_In, <- list_elem_of_In.
    now rewrite bool_decide_eq_true.
  - unfold exportRows. apply Forall_forall. intros cells Hc.
    apply list_elem_of_fmap in Hc as (s & -> & _).
    unfold exportRow, customFieldKeys. simpl.
    rewrite List.length_app, !List.length_map. simpl. lia.
Qed.

(** ** The counts of the stats response *)

Lemma countWhere_nonneg (p : Signup.t -> bool) (rows : list Signup.t) :
  0 <= countWhere p rows.
Proof. unfold countWhere. lia. Qed.

Lemma countWhere_cons (p : Signup.t -> bool) (s : Signup.t) (rows : list Signup.t) :
  countWhere p (s :: rows) = (if p s then 1 else 0) + countWhere p rows.
Proof. unfold countWhere. simpl. destruct (p s); simpl; lia. Qed.

Lemma length_by_status (rows : list Signup.t) :
  Z.of_nat (List.length rows)
  = countWhere (fun s => bool_decide (Signup.status s = pending)) rows
    + countWhere (fun s => bool_decide (Signup.status s = confirmed)) rows
    + countWhere (fun s => bool_decide (Signup.status s = invited)) rows.
Proof.
  induction rows as [|s rows IH]; [reflexivity|].
  rewrite !countWhere_cons. simpl List.length.
  destruct (Signup.status s); simpl; lia.
Qed.

Lemma tally_statusCounts (rows : list Signup.t) :
  tally (statusCountsQuery rows)
  = {| Counts.total := Z.of_nat (List.length rows);
       Counts.pending := countWhere (fun s => bool_decide (Signup.status s = pending)) rows;
       Counts.confirmed := countWhere (fun s => bool_decide (Signup.status s = confirmed)) rows;
       Counts.invited := countWhere (fun s => bool_decide (Signup.status s = invited)) rows |}.
Proof.
  rewrite length_by_status. unfold statusCountsQuery, tally. cbn [List.map].
  pose proof (countWhere_nonneg (fun s => bool_decide (Signup.status s = pending)) rows).
  pose proof (countWhere_nonneg (fun s => bool_decide (Signup.status s = confirmed)) rows).
  pose proof (countWhere_nonneg (fun s => bool_decide (Signup.status s = invited)) rows).
  set (cp := countWhere _ rows) in *.
  set (cc := countWhere (fun s => bool_decide (Signup.status s = confirmed)) rows) in *.
  set (ci := countWhere (fun s => bool_decide (Signup.status s = invited)) rows) in *.
  cbn [List.filter snd].
  destruct (Z.ltb_spec 0 cc), (Z.ltb_spec 0 ci), (Z.ltb_spec 0 cp);
    cbn [List.fold_left tallyRow fst snd Counts.zero Counts.total Counts.pending
         Counts.confirmed Counts.invited];
    f_equal; lia.
Qed.

Lemma countWhere_split (p q : Signup.t -> bool) (rows : list Signup.t) :
  (forall s, p s && q s = false) ->
  countWhere (fun s => p s || q s) rows = countWhere p rows + countWhere q rows.
Proof.
  intros H. unfold countWhere. rewrite (length_filter_split p q rows H). lia.
Qed.

Lemma countWhere_le (p q : Signup.t -> bool) (rows : list Signup.t) :
  (forall s, p s = true -> q s = true) -> countWhere p rows <= countWhere q rows.
Proof.
  intros H. induction rows as [|s rows IH]; [reflexivity|].
  rewrite !countWhere_cons. specialize (H s).
  destruct (p s), (q s); try lia.
Qed.

Lemma inPeriod_as_days (id : string) (fromDay toDay : Z) (s : Signup.t) :
  inPeriod id (fromDay * 86400) ((toDay * 86400000 + 86399999) / 1000) s
  = bool_decide (Signup.waitlistId s = id)
    && (fromDay <=? dayOf s) && (dayOf s <=? toDay).
Proof.
  unfold inPeriod, dayOf.
  assert (E : (toDay * 86400000 + 86399999) / 1000 = toDay * 86400 + 86399).
  { symmetry. apply (Z.div_unique _ _ _ 999); lia. }
  rewrite E.
  pose proof (Z.div_mod (createdAtColumn s) 86400 ltac:(lia)) as Hdm.
  pose proof (Z.mod_pos_bound (createdAtColumn s) 86400 ltac:(lia)) as Hb.
  destruct (bool_decide (Signup.waitlistId s = id)); [|reflexivity]. simpl.
  f_equal.
  - destruct (Z.leb_spec (fromDay * 86400) (createdAtColumn s)),
             (Z.leb_spec fromDay (createdAtColumn s / 86400)); try reflexivity; lia.
  - destruct (Z.leb_spec (createdAtColumn s) (toDay * 86400 + 86399)),
             (Z.leb_spec (createdAtColumn s / 86400) toDay); try reflexivity; lia.
Qed.

Lemma sum_over_days (p : Signup.t -> bool) (rows : list Signup.t) (n : nat) :
  forall a b, Z.to_nat (b - a + 1) = n ->
    sumZ (List.map (fun d => countWhere (fun s => p s && (dayOf s =? d)) rows)
                   (daysBetween a b))
    = countWhere (fun s => p s && (a <=? dayOf s) && (dayOf s <=? b)) rows.
Proof.
  induction n as [|n IH]; intros a b Hn; unfold daysBetween; rewrite Hn.
  - simpl. symmetry. apply countWhere_none. intros s _.
    destruct (p s); [|reflexivity]. simpl.
    destruct (Z.leb_spec a (dayOf s)), (Z.leb_spec (dayOf s) b); try reflexivity. lia.
  - cbn [List.seq List.map sumZ List.fold_right].
    replace (a + Z.of_nat 0) with a by lia.
    specialize (IH (a + 1) b ltac:(lia)). unfold daysBetween in IH.
    replace (Z.to_nat (b - (a + 1) + 1)) with n in IH by lia.
    rewrite <- List.seq_shift, List.map_map in *.
    erewrite List.map_ext in IH; [|intros i; replace (a + 1 + Z.of_nat i)
                                      with (a + Z.of_nat (S i)) by lia; reflexivity].
    unfold sumZ in *. rewrite List.map_map. rewrite IH.
    rewrite <- (countWhere_split
                  (fun s => p s && (dayOf s =? a))
                  (fun s => p s && (a + 1 <=? dayOf s) && (dayOf s <=? b))).
    + apply countWhere_ext. intros s. destruct (p s); [|reflexivity]. simpl.
      destruct (Z.eqb_spec (dayOf s) a), (Z.leb_spec (a + 1) (dayOf s)),
               (Z.leb_spec (dayOf s) b), (Z.leb_spec a (dayOf s));
        try reflexivity; lia.
    + intros s. destruct (p s); [|reflexivity]. simpl.
      destruct (Z.eqb_spec (dayOf s) a), (Z.leb_spec (a + 1) (dayOf s));
        try reflexivity; lia.
Qed.

Lemma countWhere_length_filter (p : Signup.t -> bool) (rows : list Signup.t) :
  Z.of_nat (List.length (List.filter p rows)) = countWhere p rows.
Proof. reflexivity. Qed.

(** X9. The counts of the stats response of an existing waitlist: the total
    of the window is the sum of its three status counts and the number of
    the waitlist's signups created on the days from..to; the daily series
    adds up to it, and its confirmed column to confirmed plus invited.
    Without [compare=true] the previous counts are all zero; with it they
    count the signups of the seconds from [from - L] up to the second
    before [from], where [L] is the length of the window less one second.
    The two windows never share a signup, so their totals together stay
    within the all-time total, which is the number of the waitlist's
    signups. *)
Theorem stats_counts_add_up
    (db : Db) (id : string) (fromDay toDay : Z) (compare : option string)
    (w : Waitlist.t) (Hw : findWaitlistById db id = Some w) :
  exists st,
    waitlistStats db id fromDay toDay compare = Ok st
    /\ Counts.total (Stats.current st)
       = Counts.pending (Stats.current st) + Counts.confirmed (Stats.current st)
         + Counts.invited (Stats.current st)
    /\ Counts.total (Stats.current st)
       = countWhere (fun s => bool_decide (Signup.waitlistId s = id)
                              && (fromDay <=? dayOf s) && (dayOf s <=? toDay))
                    (signups db)
    /\ sumZ (List.map Daily.count (Stats.dailySignups st))
       = Counts.total (Stats.current st)
    /\ sumZ (List.map Daily.confirmed (Stats.dailySignups st))
       = Counts.confirmed (Stats.current st) + Counts.invited (Stats.current st)
    /\ Counts.total (Stats.allTime st) = Z.of_nat (List.length (signupsOf db id))
    /\ (compare <> Some "true" -> Stats.previous st = Counts.zero)
    /\ (compare = Some "true" ->
        Counts.total (Stats.previous st)
        = countWhere
            (inPeriod id (fromDay * 86400 - ((toDay - fromDay) * 86400 + 86399))
                      (fromDay * 86400 - 1))
            (signups db))
    /\ Counts.total (Stats.current st) + Counts.total (Stats.previous st)
       <= Counts.total (Stats.allTime st).
Proof.
  unfold waitlistStats. rewrite Hw. eexists. split; [reflexivity|].
  cbn [Stats.current Stats.previous Stats.allTime Stats.dailySignups].
  rewrite !tally_statusCounts.
  cbn [Counts.total Counts.pending Counts.confirmed Counts.invited].
  set (toTs := (toDay * 86400000 + 86399999) / 1000).
  assert (E : toTs = toDay * 86400 + 86399).
  { subst toTs. symmetry. apply (Z.div_unique _ _ _ 999); lia. }
  set (cur := List.filter (inPeriod id (fromDay * 86400) toTs) (signups db)).
  assert (Hcur : Z.of_nat (List.length cur)
                 = countWhere (fun s => bool_decide (Signup.waitlistId s = id)
                                        && (fromDay <=? dayOf s) && (dayOf s <=? toDay))
                              (signups db)).
  { subst cur. rewrite countWhere_length_filter. apply countWhere_ext.
    intros s. apply inPeriod_as_days. }
  assert (Hall : forall s, inPeriod id (fromDay * 86400) toTs s = true ->
                           bool_decide (Signup.waitlistId s = id) = true).
  { intros s H. unfold inPeriod in H. apply andb_prop in H as [H _].
    now apply andb_prop in H as [H _]. }
  split; [apply length_by_status|]. split; [exact Hcur|].
  rewrite (fillDailySignups_days _ _ fromDay toDay eq_refl), !List.map_map.
  split; [|split; [|split; [|split; [|split]]]].
  - rewrite Hcur.
    rewrite <- (sum_over_days (fun s => bool_decide (Signup.waitlistId s = id))
                  (signups db) _ fromDay toDay eq_refl).
    f_equal. apply List.map_ext_in. intros d Hd.
    unfold daysBetween in Hd. apply List.in_map_iff in Hd as (i & <- & Hi).
    apply List.in_seq in Hi.
    now destruct (dailyEntry_counts db id fromDay toDay (fromDay + Z.of_nat i)
                    ltac:(lia)) as (_ & Hc & _).
  - transitivity (countWhere (fun s => bool_decide (Signup.waitlistId s = id)
                                       && isConfirmedOrInvited (Signup.status s)
                                       && (fromDay <=? dayOf s) && (dayOf s <=? toDay))
                             (signups db)).
    + rewrite <- (sum_over_days
                    (fun s => bool_decide (Signup.waitlistId s = id)
                              && isConfirmedOrInvited (Signup.status s))
                    (signups db) _ fromDay toDay eq_refl).
      f_equal. apply List.map_ext_in. intros d Hd.
      unfold daysBetween in Hd. apply List.in_map_iff in Hd as (i & <- & Hi).
      apply List.in_seq in Hi.
      destruct (dailyEntry_counts db id fromDay toDay (fromDay + Z.of_nat i)
                  ltac:(lia)) as (_ & _ & Hk).
      fold toTs in Hk. rewrite Hk. apply countWhere_ext. intros s.
      destruct (bool_decide _), (dayOf s =? _), (isConfirmedOrInvited _); reflexivity.
    + subst cur. rewrite !countWhere_filter.
      rewrite <- countWhere_split.
      * apply countWhere_ext. intros s. subst toTs. rewrite inPeriod_as_days.
        unfold isConfirmedOrInvited.
        destruct (bool_decide (Signup.waitlistId s = id)), (fromDay <=? dayOf s),
                 (dayOf s <=? toDay), (Signup.status s); reflexivity.
      * intros s. destruct (inPeriod _ _ _ s), (Signup.status s); reflexivity.
  - reflexivity.
  - intros Hc. now rewrite bool_decide_eq_false_2.
  - intros ->. rewrite bool_decide_eq_true_2 by reflexivity.
    cbn [Counts.total].
    rewrite countWhere_length_filter. rewrite E.
    replace (fromDay * 86400 - (toDay * 86400 + 86399 - fromDay * 86400))
      with (fromDay * 86400 - ((toDay - fromDay) * 86400 + 86399)) by lia.
    reflexivity.
  - match goal with
    | |- _ + Counts.total ?p <= _ =>
        assert (Hprev : Counts.total p
                        <= countWhere (inPeriod id (fromDay * 86400 - (toTs - fromDay * 86400))
                                                (fromDay * 86400 - 1)) (signups db))
    end.
    { destruct (bool_decide _).
      - cbn [Counts.total]. rewrite countWhere_length_filter. lia.
      - apply countWhere_nonneg. }
    etransitivity; [apply Z.add_le_mono_l; exact Hprev|].
    subst cur. rewrite countWhere_length_filter.
    rewrite <- countWhere_split.
    + unfold signupsOf. rewrite countWhere_length_filter.
      apply countWhere_le. intros s H. apply orb_prop in H as [H|H].
      * now apply Hall.
      * unfold inPeriod in H. apply andb_prop in H as [H _].
        now apply andb_prop in H as [H _].
    + intros s. unfold inPeriod.
      destruct (bool_decide (Signup.waitlistId s = id)); [|reflexivity]. simpl.
      destruct (Z.leb_spec (fromDay * 86400) (createdAtColumn s)),
               (Z.leb_spec (createdAtColumn s) (fromDay * 86400 - 1));
        try reflexivity; try lia.
      all: now rewrite ?andb_false_r.
Qed.

Lemma stats_counts_add_up_witness :
  exists st,
    waitlistStats TwoDays.db "w1" 1 10 (Some "true") = Ok st
    /\ sumZ (List.map Daily.count (Stats.dailySignups st)) = 2
    /\ Counts.total (Stats.current st) = 2
    /\ Counts.total (Stats.previous st) = 0.
Proof.
  destruct (stats_counts_add_up TwoDays.db "w1" 1 10 (Some "true") Sample.beta eq_refl)
    as (st & Hst & _ & Hcur & Hsum & _ & _ & _ & Hprev & _).
  exists st. split; [exact Hst|].
  rewrite Hsum, Hcur, (Hprev eq_refl). repeat split; reflexivity.
Defined.

(** ** The waitlists table *)

Lemma insertWaitlist_Some (db db' : Db) (row : Waitlist.t) :
  insertWaitlist db row = Some db' ->
  db' = withWaitlists db (waitlists db ++ [row])
  /\ forall w, w ∈ waitlists db ->
       Waitlist.id w <> Waitlist.id row /\ Waitlist.slug w <> Waitlist.slug row.
Proof.
  unfold insertWaitlist. destruct (List.existsb _ _) eqn:E; [discriminate|].
  intros [= <-]. split; [reflexivity|]. intros w Hw.
  pose proof (existsb_false_elem _ _ w E Hw) as H. simpl in H.
  apply orb_false_elim in H as [H1 H2].
  apply bool_decide_eq_false in H1, H2. auto.
Qed.

Lemma insertWaitlist_fresh (db : Db) (row : Waitlist.t) :
  (forall w, w ∈ waitlists db -> Waitlist.id w <> Waitlist.id row) ->
  findWaitlistBySlug db (Waitlist.slug row) = None ->
  insertWaitlist db row = Some (withWaitlists db (waitlists db ++ [row])).
Proof.
  intros Hid Hslug. unfold insertWaitlist.
  rewrite existsb_false_all; [reflexivity|]. intros w Hw.
  rewrite (bool_decide_eq_false_2 _ (Hid w Hw)). simpl.
  exact (find_None_all _ _ Hslug w Hw).
Qed.

Lemma NoDup_map_filter {A B} (f : A -> B) (p : A -> bool) (l : list A) :
  NoDup (List.map f l) -> NoDup (List.map f (List.filter p l)).
Proof.
  induction l as [|a l IH]; simpl; intros H; [exact H|].
  apply NoDup_cons in H as [Hn Hd]. destruct (p a); simpl; [|now apply IH].
  apply NoDup_cons. split; [|now apply IH].
  intros Hin. apply Hn. apply list_elem_of_fmap in Hin as (x & -> & Hx).
  apply list_elem_of_fmap_2. apply list_elem_of_In in Hx.
  apply List.filter_In in Hx as [Hx _]. now apply list_elem_of_In.
Qed.

Lemma elem_of_filter_list {A} (p : A -> bool) (l : list A) (x : A) :
  x ∈ List.filter p l <-> x ∈ l /\ p x = true.
Proof. now rewrite !list_elem_of_In, List.filter_In. Qed.

Lemma applyPatch_id (body : WaitlistPatch.t) (w : Waitlist.t) :
  Waitlist.id (applyPatch body w) = Waitlist.id w.
Proof. reflexivity. Qed.

Lemma patched_ids (id : string) (f : Waitlist.t -> Waitlist.t) (l : list Waitlist.t) :
  (forall w, Waitlist.id (f w) = Waitlist.id w) ->
  List.map Waitlist.id
    (List.map (fun w => if bool_decide (Waitlist.id w = id) then f w else w) l)
  = List.map Waitlist.id l.
Proof.
  intros Hf. rewrite List.map_map. apply List.map_ext. intros w.
  destruct (bool_decide _); [apply Hf | reflexivity].
Qed.

Lemma updateWaitlistRows_Some (db db' : Db) (id : string) (f : Waitlist.t -> Waitlist.t) :
  updateWaitlistRows db id f = Some db' ->
  db' = withWaitlists db
          (List.map (fun w => if bool_decide (Waitlist.id w = id) then f w else w)
                    (waitlists db))
  /\ uniqueSlugs db'.
Proof.
  unfold updateWaitlistRows. destruct (bool_decide _) eqn:E; [|discriminate].
  intros [= <-]. split; [reflexivity|]. now apply bool_decide_eq_true in E.
Qed.

Lemma updateWaitlist_db (db : Db) (id : string) (body : WaitlistPatch.t) :
  fst (updateWaitlist db id body) = db
  \/ updateWaitlistRows db id (applyPatch body) = Some (fst (updateWaitlist db id body)).
Proof.
  unfold updateWaitlist.
  destruct (findWaitlistById db id) as [existing|]; [|now left].
  destruct (_ && _); [now left|].
  destruct (updateWaitlistRows db id (applyPatch body)) as [db'|]; [|now left].
  right. now destruct (findWaitlistById db' id).
Qed.

Lemma signup_db_owner (env : Env) (o : Oracle) (db : Db) (req : Req.t) :
  waitlists (dbOf (signup env o db req)) = waitlists db
  /\ forall s, s ∈ signups (dbOf (signup env o db req)) ->
       (exists s0, s0 ∈ signups db /\ Signup.waitlistId s = Signup.waitlistId s0)
       \/ (exists w, w ∈ waitlists db /\ Waitlist.id w = Signup.waitlistId s).
Proof.
  unfold signup.
  destruct (findWaitlistBySlug db (Req.slug req)) as [w|] eqn:Hw;
    [|split; [reflexivity | intros s Hs; left; eauto]].
  destruct (negb _); [split; [reflexivity | intros s Hs; left; eauto]|].
  destruct (validateCustomFields _ _) as [cd|e|m];
    [|split; [reflexivity | intros s Hs; left; eauto]
     |split; [reflexivity | intros s Hs; left; eauto]].
  destruct (findSignupByEmail db (Waitlist.id w) _) as [existing|] eqn:Hf.
  - destruct (signupExisting_db env o db w existing) as [->|[_ ->]];
      [split; [reflexivity | intros s Hs; left; eauto]|].
    split; [reflexivity|]. intros s Hs. left.
    apply elem_of_updateSignup in Hs as (s0 & Hs0 & ->). exists s0.
    split; [exact Hs0|]. now destruct (bool_decide _).
  - pose proof (signupNew_db env o db w req
                  (normalizeEmail (Req.email (Req.json req))) cd) as H.
    simpl in H. destruct (insertSignup db _) as [db'|] eqn:Hi; rewrite H;
      [|split; [reflexivity | intros s Hs; left; eauto]].
    apply insertSignup_Some in Hi as [-> _]. split; [reflexivity|].
    intros s Hs. simpl in Hs. apply elem_of_app in Hs as [Hs|Hs]; [left; eauto|].
    apply list_elem_of_singleton in Hs. subst s. right. exists w.
    split; [|reflexivity]. now apply find_Some_elem in Hw as [Hw _].
Qed.

Lemma constraints_updateSignup (db : Db) (sid : string) (f : Signup.t -> Signup.t) :
  (forall s, Signup.waitlistId (f s) = Signup.waitlistId s) ->
  constraintsHold db -> constraintsHold (updateSignup db sid f).
Proof.
  intros Hf (H1 & H2 & H3). split; [exact H1|]. split; [exact H2|].
  intros s Hs. apply elem_of_updateSignup in Hs as (s0 & Hs0 & ->).
  destruct (H3 s0 Hs0) as (w & Hw & E). exists w. split; [exact Hw|].
  destruct (bool_decide _); [now rewrite Hf | exact E].
Qed.

(** X10. The constraints of the schema hold of the empty database, and every
    write of the worker modelled here keeps them: creating, patching and
    deleting a waitlist, and the public signup, the token confirmation and
    the admin patch of a signup. *)
Theorem schema_constraints_kept (env : Env) (o : Oracle) (db : Db)
    (H : constraintsHold db) :
  constraintsHold {| waitlists := []; signups := [] |}
  /\ (forall body, constraintsHold (fst (createWaitlist o db body)))
  /\ (forall id body, constraintsHold (fst (updateWaitlist db id body)))
  /\ (forall id, constraintsHold (fst (deleteWaitlist db id)))
  /\ (forall req, constraintsHold (dbOf (signup env o db req)))
  /\ (forall slug token, constraintsHold (dbOf (confirm env o db slug token)))
  /\ (forall id signupId body,
        constraintsHold (fst (patchSignup o db id signupId body))).
Proof.
  pose proof H as (Hid & Hslug & Hfk).
  split; [|split; [|split; [|split; [|split; [|split]]]]].
  - split; [apply NoDup_nil_2|]. split; [apply NoDup_nil_2|].
    intros s Hs. now apply elem_of_nil in Hs.
  - intros body. unfold createWaitlist.
    destruct (findWaitlistBySlug db (createdSlug body)); [exact H|].
    destruct (insertWaitlist db (newWaitlistRow o body)) as [db'|] eqn:Hi; [|exact H].
    apply insertWaitlist_Some in Hi as [-> Hfresh]. simpl.
    unfold constraintsHold, uniqueWaitlistIds, uniqueSlugs, noOrphans. simpl.
    rewrite !List.map_app. simpl. split; [|split].
    + apply NoDup_app. split; [exact Hid|]. split; [|apply NoDup_singleton].
      intros x Hx Hx'. apply list_elem_of_singleton in Hx'. subst x.
      apply list_elem_of_fmap in Hx as (w & E & Hw).
      destruct (Hfresh w Hw) as [Hne _]. apply Hne. symmetry. exact E.
    + apply NoDup_app. split; [exact Hslug|]. split; [|apply NoDup_singleton].
      intros x Hx Hx'. apply list_elem_of_singleton in Hx'. subst x.
      apply list_elem_of_fmap in Hx as (w & E & Hw).
      destruct (Hfresh w Hw) as [_ Hne]. apply Hne. symmetry. exact E.
    + intros s Hs. destruct (Hfk s Hs) as (w & Hw & E). exists w.
      split; [|exact E]. apply elem_of_app. now left.
  - intros id body.
    destruct (updateWaitlist_db db id body) as [->|Hu]; [exact H|].
    apply updateWaitlistRows_Some in Hu as [Hdb Hs]. split; [|split; [exact Hs|]].
    + unfold uniqueWaitlistIds. rewrite Hdb. simpl.
      rewrite patched_ids; [exact Hid | apply applyPatch_id].
    + unfold noOrphans. rewrite Hdb. simpl. intros s Hin.
      destruct (Hfk s Hin) as (w & Hw & E).
      exists (if bool_decide (Waitlist.id w = id) then applyPatch body w else w).
      split; [|now destruct (bool_decide _)].
      apply list_elem_of_In, List.in_map_iff. exists w.
      split; [reflexivity | now apply list_elem_of_In].
  - intros id. unfold deleteWaitlist.
    destruct (findWaitlistById db id); [|exact H]. simpl.
    split; [now apply NoDup_map_filter|]. split; [now apply NoDup_map_filter|].
    intros s Hs. simpl in Hs. apply elem_of_filter_list in Hs as [Hs Hne].
    destruct (Hfk s Hs) as (w & Hw & E). exists w. split; [|exact E].
    simpl. apply elem_of_filter_list. split; [exact Hw|]. now rewrite E.
  - intros req. destruct (signup_db_owner env o db req) as [Hw Hrows].
    unfold constraintsHold, uniqueWaitlistIds, uniqueSlugs, noOrphans.
    rewrite Hw. split; [exact Hid|]. split; [exact Hslug|].
    intros s Hs. destruct (Hrows s Hs) as [(s0 & Hs0 & ->)|Hx]; [|exact Hx].
    now apply Hfk.
  - intros slug token.
    destruct (confirm_db env o db slug token) as [->|(s & _ & _ & ->)]; [exact H|].
    now apply constraints_updateSignup.
  - intros id signupId body. rewrite patchSignup_db.
    destruct (findSignupById db signupId id) as [signup|]; [|exact H].
    destruct (patchUpdates body signup (now o)) as [set|] eqn:Hp; [|exact H].
    apply constraints_updateSignup; [|exact H].
    intros s. destruct (patchUpdates_row o body signup set Hp) as (_ & Hk & _).
    apply Hk.
Qed.

Lemma sample_constraints : constraintsHold Sample.db.
Proof.
  split; [|split].
  - apply (bool_decide_unpack _). reflexivity.
  - apply (bool_decide_unpack _). reflexivity.
  - intros s Hs. simpl in Hs. apply list_elem_of_singleton in Hs. subst s.
    exists Sample.beta. split; [|reflexivity]. simpl. apply elem_of_cons. now left.
Qed.

Lemma schema_constraints_kept_witness :
  constraintsHold (fst (deleteWaitlist Sample.db "w1"))
  /\ constraintsHold
       (fst (createWaitlist (Sample.oracle 5000 "w9" "tok-z") Sample.db Launch.body)).
Proof.
  destruct (schema_constraints_kept Sample.env (Sample.oracle 5000 "w9" "tok-z")
              Sample.db sample_constraints) as (_ & Hc & _ & Hd & _).
  split; [apply Hd | apply Hc].
Defined.

Lemma NoDup_map_inj {A B} (f : A -> B) (l : list A) (x y : A) :
  NoDup (List.map f l) -> x ∈ l -> y ∈ l -> f x = f y -> x = y.
Proof.
  induction l as [|a l IH]; intros Hd Hx Hy E.
  - now apply elem_of_nil in Hx.
  - simpl in Hd. apply NoDup_cons in Hd as [Hn Hd].
    apply elem_of_cons in Hx as [->|Hx]; apply elem_of_cons in Hy as [->|Hy].
    + reflexivity.
    + exfalso. apply Hn. rewrite E. now apply list_elem_of_fmap_2.
    + exfalso. apply Hn. rewrite <- E. now apply list_elem_of_fmap_2.
    + now apply IH.
Qed.

Lemma NoDup_map_coarser {A B C} (f : A -> B) (h : A -> C) (l : list A) :
  NoDup (List.map f l) ->
  (forall x y, x ∈ l -> y ∈ l -> h x = h y -> f x = f y) ->
  NoDup (List.map h l).
Proof.
  induction l as [|a l IH]; simpl; intros Hd Hh; [apply NoDup_nil_2|].
  apply NoDup_cons in Hd as [Hn Hd]. apply NoDup_cons. split.
  - intros Hin. apply list_elem_of_fmap in Hin as (y & E & Hy). apply Hn.
    rewrite (Hh a y); [now apply list_elem_of_fmap_2 | | | exact E].
    + apply elem_of_cons. now left.
    + apply elem_of_cons. now right.
  - apply IH; [exact Hd|]. intros x y Hx Hy.
    apply Hh; apply elem_of_cons; now right.
Qed.

Lemma find_filter_implied {A} (p q : A -> bool) (l : list A) :
  (forall x, p x = true -> q x = true) ->
  List.find p (List.filter q l) = List.find p l.
Proof.
  intros H. induction l as [|a l IH]; simpl; [reflexivity|].
  destruct (p a) eqn:Ep.
  - rewrite (H a Ep). simpl. now rewrite Ep.
  - destruct (q a); simpl; [rewrite Ep|]; exact IH.
Qed.

Lemma findWaitlistById_spec (db : Db) (id : string) (w : Waitlist.t) :
  findWaitlistById db id = Some w -> w ∈ waitlists db /\ Waitlist.id w = id.
Proof.
  intros H. apply find_Some_elem in H as [Hin Hp].
  now apply bool_decide_eq_true in Hp.
Qed.

Lemma findWaitlistBySlug_elem (db : Db) (slug : string) (w : Waitlist.t) :
  findWaitlistBySlug db slug = Some w -> w ∈ waitlists db /\ Waitlist.slug w = slug.
Proof.
  intros H. apply find_Some_elem in H as [Hin Hp].
  now apply bool_decide_eq_true in Hp.
Qed.

Lemma find_app {A} (p : A -> bool) (l l' : list A) :
  List.find p (l ++ l') =
  match List.find p l with Some x => Some x | None => List.find p l' end.
Proof.
  induction l as [|a l IH]; simpl; [reflexivity|]. now destruct (p a).
Qed.

Lemma filter_none {A} (p : A -> bool) (l : list A) :
  (forall x, x ∈ l -> p x = false) -> List.filter p l = [].
Proof.
  induction l as [|a l IH]; intros H; [reflexivity|]. simpl.
  rewrite (H a) by (apply elem_of_cons; now left).
  apply IH. intros x Hx. apply H. apply elem_of_cons; now right.
Qed.

(** ** POST /waitlists *)

(** X11. Creating a waitlist, when the id drawn is not that of a waitlist: a
    slug that is taken gives 409 ALREADY_EXISTS and leaves the database as
    it was; a free one adds the row and nothing else, after which the row
    is found by its slug and by its id, every other slug resolves as
    before, and, where the foreign key holds, the new waitlist has no
    signup and its first one will take position 1. *)
Theorem create_waitlist_outcomes (o : Oracle) (db : Db) (body : NewWaitlist.t)
    (Hfresh : forall w, w ∈ waitlists db -> Waitlist.id w <> randomUUID o)
    (Hfk : noOrphans db) :
  (is_Some (findWaitlistBySlug db (createdSlug body)) ->
   createWaitlist o db body = (db, Fail (AlreadyExists "Waitlist with this slug")))
  /\ (findWaitlistBySlug db (createdSlug body) = None ->
      exists db',
        createWaitlist o db body = (db', Ok (newWaitlistRow o body))
        /\ waitlists db' = waitlists db ++ [newWaitlistRow o body]
        /\ signups db' = signups db
        /\ findWaitlistBySlug db' (createdSlug body) = Some (newWaitlistRow o body)
        /\ findWaitlistById db' (randomUUID o) = Some (newWaitlistRow o body)
        /\ (forall s, s <> createdSlug body ->
              findWaitlistBySlug db' s = findWaitlistBySlug db s)
        /\ signupsOf db' (randomUUID o) = []
        /\ nextPosition db' (randomUUID o) = 1).
Proof.
  split.
  - intros [w Hw]. unfold createWaitlist. now rewrite Hw.
  - intros Hnone. unfold createWaitlist. rewrite Hnone.
    rewrite insertWaitlist_fresh by (auto || exact Hnone).
    eexists. split; [reflexivity|]. simpl.
    assert (Hrows : signupsOf (withWaitlists db (waitlists db ++ [newWaitlistRow o body]))
                      (randomUUID o) = []).
    { unfold signupsOf. simpl. apply filter_none. intros s Hs.
      apply bool_decide_eq_false_2. intros E.
      destruct (Hfk s Hs) as (w & Hw & Ew). apply (Hfresh w Hw). congruence. }
    split; [reflexivity|]. split; [reflexivity|]. split; [|split; [|split; [|split]]].
    + unfold findWaitlistBySlug. simpl. apply find_app_last; [exact Hnone|].
      now apply bool_decide_eq_true_2.
    + unfold findWaitlistById. simpl. apply find_app_last.
      * apply find_none_all. intros w Hw. apply bool_decide_eq_false_2. auto.
      * now apply bool_decide_eq_true_2.
    + intros s Hs. unfold findWaitlistBySlug. simpl.
      rewrite find_app. destruct (List.find _ (waitlists db)); [reflexivity|].
      simpl. rewrite bool_decide_eq_false_2; [reflexivity | congruence].
    + exact Hrows.
    + unfold nextPosition. now rewrite Hrows.
Qed.

Lemma create_waitlist_outcomes_witness :
  exists db',
    createWaitlist (Sample.oracle 5000 "w9" "tok-z") Sample.db Launch.body
    = (db', Ok (newWaitlistRow (Sample.oracle 5000 "w9" "tok-z") Launch.body))
    /\ findWaitlistBySlug db' "launch-list"
       = Some (newWaitlistRow (Sample.oracle 5000 "w9" "tok-z") Launch.body)
    /\ nextPosition db' "w9" = 1.
Proof.
  destruct (create_waitlist_outcomes (Sample.oracle 5000 "w9" "tok-z") Sample.db
              Launch.body) as [_ H].
  - intros w Hw. simpl in Hw.
    apply elem_of_cons in Hw as [->|Hw]; [discriminate|].
    apply list_elem_of_singleton in Hw. subst w. discriminate.
  - now destruct sample_constraints as (_ & _ & Hfk).
  - destruct (H eq_refl) as (db' & Hc & _ & _ & Hs & _ & _ & _ & Hn).
    exists db'. split; [exact Hc|]. split; [exact Hs | exact Hn].
Defined.

(** ** PATCH and DELETE /waitlists/:id *)

Lemma find_patched (id id' : string) (f : Waitlist.t -> Waitlist.t)
    (l : list Waitlist.t) :
  (forall w, Waitlist.id (f w) = Waitlist.id w) ->
  List.find (fun w => bool_decide (Waitlist.id w = id'))
    (List.map (fun w => if bool_decide (Waitlist.id w = id) then f w else w) l)
  = (fun w => if bool_decide (Waitlist.id w = id) then f w else w)
      <$> List.find (fun w => bool_decide (Waitlist.id w = id')) l.
Proof.
  intros Hf. apply find_map_preserve. intros w.
  destruct (bool_decide (Waitlist.id w = id)); [now rewrite Hf | reflexivity].
Qed.

(** X12. Patching a waitlist, where ids and slugs are unique and the slug of
    the body is absent or not empty: an unknown id gives 404; asking for
    the slug of another waitlist gives 409 ALREADY_EXISTS; both leave the
    database as it was. Every other patch succeeds, the unique slug never
    rejects it: the answer is the row with the members of the body
    written over it, that row is what the id resolves to afterwards, and
    every other waitlist and every signup is as before. *)
Theorem update_waitlist_outcomes (db : Db) (id : string) (body : WaitlistPatch.t)
    (Hid : uniqueWaitlistIds db) (Hslug : uniqueSlugs db)
    (Hbody : slugAbsentOrFilled body) :
  (findWaitlistById db id = None ->
   updateWaitlist db id body = (db, Fail Errors.WaitlistNotFound))
  /\ (forall existing, findWaitlistById db id = Some existing ->
      ((exists other, other ∈ waitlists db /\ Waitlist.id other <> id
                      /\ WaitlistPatch.slug body = Some (Waitlist.slug other)) ->
       updateWaitlist db id body = (db, Fail (AlreadyExists "Waitlist with this slug")))
      /\ ((forall other, other ∈ waitlists db -> Waitlist.id other <> id ->
             WaitlistPatch.slug body <> Some (Waitlist.slug other)) ->
          exists db',
            updateWaitlist db id body = (db', Ok (applyPatch body existing))
            /\ signups db' = signups db
            /\ findWaitlistById db' id = Some (applyPatch body existing)
            /\ (forall id', id' <> id ->
                  findWaitlistById db' id' = findWaitlistById db id'))).
Proof.
  split; [intros Hn; unfold updateWaitlist; now rewrite Hn|].
  intros existing Hex. pose proof (findWaitlistById_spec db id existing Hex) as [Hin Heid].
  split.
  - intros (other & Hother & Hne & Hs). unfold updateWaitlist. rewrite Hex, Hs.
    assert (Hfilled : Waitlist.slug other <> EmptyString)
      by (intros E; apply Hbody; now rewrite Hs, E).
    assert (Htruthy : Js.truthy (Some (Waitlist.slug other)) = true).
    { unfold Js.truthy. destruct (Waitlist.slug other); [congruence | reflexivity]. }
    assert (Hdiff : Waitlist.slug other <> Waitlist.slug existing).
    { intros E. apply Hne. rewrite <- Heid. f_equal.
      exact (NoDup_map_inj Waitlist.slug _ other existing Hslug Hother Hin E). }
    rewrite Htruthy. simpl.
    rewrite (proj2 (String.eqb_neq _ _) Hdiff). simpl.
    destruct (findWaitlistBySlug db (Waitlist.slug other)) as [w|] eqn:Hf.
    + rewrite bool_decide_eq_true_2 by eauto. reflexivity.
    + exfalso. pose proof (find_None_all _ _ Hf other Hother) as H.
      simpl in H. now rewrite bool_decide_eq_true_2 in H.
  - intros Hfree. unfold updateWaitlist. rewrite Hex.
    set (g := fun w : Waitlist.t =>
                if bool_decide (Waitlist.id w = id) then applyPatch body w else w).
    assert (Hcond : Js.truthy (WaitlistPatch.slug body)
                    && negb (String.eqb (default EmptyString (WaitlistPatch.slug body))
                                        (Waitlist.slug existing))
                    && bool_decide (is_Some (findWaitlistBySlug db
                                      (default EmptyString (WaitlistPatch.slug body))))
                    = false).
    { destruct (WaitlistPatch.slug body) as [s|] eqn:Es; [|reflexivity]. simpl.
      destruct (String.eqb_spec s (Waitlist.slug existing)) as [E|E];
        [now rewrite andb_false_r|].
      destruct (findWaitlistBySlug db s) as [w|] eqn:Hf.
      - exfalso. apply findWaitlistBySlug_elem in Hf as [Hw Hws].
        destruct (decide (Waitlist.id w = id)) as [Ew|Ew].
        + apply E. rewrite <- Hws. f_equal.
          apply (NoDup_map_inj Waitlist.id _ w existing Hid Hw Hin). congruence.
        + apply (Hfree w Hw Ew). now rewrite Hws.
      - rewrite bool_decide_eq_false_2; [now rewrite andb_false_r|].
        intros [? ?]; discriminate. }
    rewrite Hcond.
    assert (Hnd : NoDup (List.map Waitlist.slug (List.map g (waitlists db)))).
    { rewrite List.map_map.
      apply (NoDup_map_coarser Waitlist.slug); [exact Hslug|].
      intros x y Hx Hy. subst g. cbv beta.
      destruct (bool_decide (Waitlist.id x = id)) eqn:Ex,
               (bool_decide (Waitlist.id y = id)) eqn:Ey; intros E.
      - apply bool_decide_eq_true in Ex, Ey. f_equal.
        apply (NoDup_map_inj Waitlist.id _ x y Hid Hx Hy). congruence.
      - apply bool_decide_eq_false in Ey. simpl in E.
        destruct (WaitlistPatch.slug body) as [s|] eqn:Es; [|exact E].
        exfalso. apply (Hfree y Hy Ey). simpl in E. now rewrite E.
      - apply bool_decide_eq_false in Ex. simpl in E.
        destruct (WaitlistPatch.slug body) as [s|] eqn:Es; [|exact E].
        exfalso. apply (Hfree x Hx Ex). simpl in E. now rewrite <- E.
      - exact E. }
    unfold updateWaitlistRows. fold g. rewrite (bool_decide_eq_true_2 _ Hnd).
    assert (Hfind : forall id',
              findWaitlistById (withWaitlists db (List.map g (waitlists db))) id'
              = g <$> findWaitlistById db id').
    { intros id'. unfold findWaitlistById. simpl. subst g.
      apply find_patched. intros w. reflexivity. }
    rewrite Hfind, Hex. simpl.
    assert (Eg : g existing = applyPatch body existing)
      by (subst g; cbv beta; now rewrite bool_decide_eq_true_2).
    rewrite Eg. eexists. split; [reflexivity|]. split; [reflexivity|].
    split; [now rewrite Hfind, Hex; simpl; rewrite Eg|].
    intros id' Hne. rewrite Hfind.
    destruct (findWaitlistById db id') as [w|] eqn:Hw; [|reflexivity]. simpl.
    apply findWaitlistById_spec in Hw as [_ Hw]. subst g. cbv beta.
    rewrite bool_decide_eq_false_2; [reflexivity | congruence].
Qed.

Lemma update_waitlist_outcomes_witness :
  updateWaitlist Sample.db "w1" (Launch.reslug "open")
  = (Sample.db, Fail (AlreadyExists "Waitlist with this slug"))
  /\ exists db',
       updateWaitlist Sample.db "w1" (Launch.reslug "early")
       = (db', Ok (applyPatch (Launch.reslug "early") Sample.beta))
       /\ findWaitlistById db' "w2" = Some Sample.open.
Proof.
  destruct sample_constraints as (Hid & Hslug & _).
  split.
  - destruct (update_waitlist_outcomes Sample.db "w1" (Launch.reslug "open") Hid Hslug)
      as [_ H]; [discriminate|].
    destruct (H Sample.beta eq_refl) as [H1 _]. apply H1.
    exists Sample.open. split; [|split; [discriminate | reflexivity]].
    simpl. apply elem_of_cons. right. apply elem_of_cons. now left.
  - destruct (update_waitlist_outcomes Sample.db "w1" (Launch.reslug "early") Hid Hslug)
      as [_ H]; [discriminate|].
    destruct (H Sample.beta eq_refl) as [_ H2].
    destruct H2 as (db' & Hu & _ & _ & Hother).
    + intros other Ho Hne. simpl in Ho.
      apply elem_of_cons in Ho as [->|Ho]; [now elim Hne|].
      apply list_elem_of_singleton in Ho. subst other. discriminate.
    + exists db'. split; [exact Hu|]. now rewrite Hother.
Defined.

(** X13. Deleting a waitlist that exists takes its signups with it and
    touches nothing else: afterwards the id resolves to nothing and has no
    signup, every other id resolves as before and keeps its signups, a
    second delete gives 404, and, slugs being unique, so does every public
    signup to the slug of the deleted waitlist, which writes nothing. *)
Theorem delete_waitlist_cascades (env : Env) (o : Oracle) (db : Db) (id : string)
    (w : Waitlist.t) (Hw : findWaitlistById db id = Some w) (Hslug : uniqueSlugs db) :
  exists db',
    deleteWaitlist db id = (db', Ok tt)
    /\ findWaitlistById db' id = None
    /\ signupsOf db' id = []
    /\ (forall id', id' <> id ->
          findWaitlistById db' id' = findWaitlistById db id'
          /\ signupsOf db' id' = signupsOf db id')
    /\ deleteWaitlist db' id = (db', Fail Errors.WaitlistNotFound)
    /\ (forall req, Req.slug req = Waitlist.slug w ->
          signup env o db' req = (db', [], Fail Errors.WaitlistNotFound)).
Proof.
  unfold deleteWaitlist at 1. rewrite Hw. eexists. split; [reflexivity|].
  set (db' := {| waitlists := _; signups := _ |}).
  apply findWaitlistById_spec in Hw as [Hin Hwid].
  assert (Hgone : findWaitlistById db' id = None).
  { apply find_none_all. intros x Hx. simpl in Hx.
    apply elem_of_filter_list in Hx as [_ Hx].
    now destruct (bool_decide (Waitlist.id x = id)). }
  split; [exact Hgone|]. split; [|split; [|split]].
  - unfold signupsOf. apply filter_none. intros s Hs. simpl in Hs.
    apply elem_of_filter_list in Hs as [_ Hs].
    now destruct (bool_decide (Signup.waitlistId s = id)).
  - intros id' Hne. split.
    + unfold findWaitlistById. simpl. apply find_filter_implied.
      intros x Hx. apply bool_decide_eq_true in Hx.
      rewrite bool_decide_eq_false_2; [reflexivity | congruence].
    + unfold signupsOf. simpl. rewrite filter_filter_andb.
      apply List.filter_ext. intros s.
      destruct (bool_decide (Signup.waitlistId s = id')) eqn:E;
        [|now rewrite andb_false_r].
      apply bool_decide_eq_true in E.
      rewrite bool_decide_eq_false_2; [reflexivity | congruence].
  - unfold deleteWaitlist. now rewrite Hgone.
  - intros req Hreq. unfold signup. rewrite Hreq.
    replace (findWaitlistBySlug db' (Waitlist.slug w)) with (@None Waitlist.t);
      [reflexivity|].
    symmetry. apply find_none_all. intros x Hx. simpl in Hx.
    apply elem_of_filter_list in Hx as [Hx Hxid].
    apply bool_decide_eq_false_2. intros E.
    rewrite (NoDup_map_inj Waitlist.slug _ x w Hslug Hx Hin E) in Hxid.
    now rewrite bool_decide_eq_true_2 in Hxid.
Qed.

Lemma delete_waitlist_cascades_witness :
  exists db',
    deleteWaitlist Sample.db "w1" = (db', Ok tt)
    /\ signupsOf db' "w1" = []
    /\ signup Sample.env (Sample.oracle 5000 "s9" "tok-z") db'
         (Sample.request "beta" "new@example.com" None)
       = (db', [], Fail Errors.WaitlistNotFound).
Proof.
  destruct sample_constraints as (_ & Hslug & _).
  destruct (delete_waitlist_cascades Sample.env (Sample.oracle 5000 "s9" "tok-z")
              Sample.db "w1" Sample.beta eq_refl Hslug)
    as (db' & Hd & _ & Hs & _ & _ & Hreq).
  exists db'. split; [exact Hd|]. split; [exact Hs|]. now apply Hreq.
Defined.

(** ** The chain of POST /:slug/signup *)

Lemma dynamicCors_post (db : Db) (slug : string) (origin : option string) :
  dynamicCors db slug "POST" origin =
  if negb (Js.truthy origin) then CorsSkip
  else if isOriginAllowed (default EmptyString origin) (originsFor db slug)
       then CorsPass (default EmptyString origin)
       else CorsStop (Answer (Fail (Errors.Forbidden
              "This domain is not authorized to submit to this waitlist"))).
Proof.
  unfold dynamicCors, originsFor. destruct (negb (Js.truthy origin)); [reflexivity|].
  change (String.eqb "POST" "OPTIONS") with false. cbv iota.
  now destruct (isOriginAllowed _ _).
Qed.

(** X14. The gates of the signup route, in their order. In demo mode the
    request is answered 403 DEMO_MODE; outside it, a request whose Origin
    header the waitlist does not admit is answered 403 FORBIDDEN; in both
    cases nothing is written, not even the count of the rate limiter. A
    request that passes these two is counted by the limiter whatever
    happens next. And the database is written or an effect produced only
    if all four gates were passed (demo mode off, origin admitted, limit
    not exceeded, body valid), in which case the reply, the database and
    the effects are the handler's. *)
Theorem signup_route_gates (zEmail : string -> bool) (e : AppEnv) (o : Oracle)
    (tSweep t : Z) (w : World) (origin : option string) (req : Req.t) :
  (isDemoMode e = true ->
   postSignup zEmail e o tSweep t w origin req = (w, [], Answer (Fail demoModeError)))
  /\ (isDemoMode e = false ->
      originAdmitted (database w) (Req.slug req) origin = false ->
      postSignup zEmail e o tSweep t w origin req
      = (w, [], Answer (Fail (Errors.Forbidden
                  "This domain is not authorized to submit to this waitlist"))))
  /\ (isDemoMode e = false ->
      originAdmitted (database w) (Req.slug req) origin = true ->
      rateLimitStore (postSignup zEmail e o tSweep t w origin req).1.1
      = (signupRateLimit req tSweep t (rateLimitStore w)).1.1)
  /\ (database (postSignup zEmail e o tSweep t w origin req).1.1 <> database w
      \/ (postSignup zEmail e o tSweep t w origin req).1.2 <> [] ->
      isDemoMode e = false
      /\ originAdmitted (database w) (Req.slug req) origin = true
      /\ (signupRateLimit req tSweep t (rateLimitStore w)).2 = Ok tt
      /\ zEmail (Req.email (Req.json req)) = true
      /\ postSignup zEmail e o tSweep t w origin req
         = ({| database := dbOf (signup (bindings e) o (database w) req);
               rateLimitStore := (signupRateLimit req tSweep t (rateLimitStore w)).1.1 |},
            effectsOf (signup (bindings e) o (database w) req),
            Answer (outcomeOf (signup (bindings e) o (database w) req)))).
Proof.
  unfold postSignup, demoModeGuard, originAdmitted.
  change (isWriteMethod "POST") with true. rewrite andb_true_r, dynamicCors_post.
  destruct (isDemoMode e).
  { split; [reflexivity|]. split; [discriminate|]. split; [discriminate|].
    simpl. intros [H|H]; now elim H. }
  split; [discriminate|].
  destruct (negb (Js.truthy origin)); simpl orb; cbv iota.
  - split; [discriminate|].
    destruct (signupRateLimit req tSweep t (rateLimitStore w)) as [[store hs] limited].
    split; [intros _ _; destruct limited as [[]|?|?]; [destruct (zEmail _)|..]; reflexivity|].
    destruct limited as [[]|err|m]; simpl;
      [|intros [H|H]; now elim H|intros [H|H]; now elim H].
    destruct (zEmail _); simpl; [auto|intros [H|H]; now elim H].
  - destruct (isOriginAllowed _ _).
    + split; [discriminate|].
      destruct (signupRateLimit req tSweep t (rateLimitStore w)) as [[store hs] limited].
      split; [intros _ _; destruct limited as [[]|?|?]; [destruct (zEmail _)|..]; reflexivity|].
      destruct limited as [[]|err|m]; simpl;
        [|intros [H|H]; now elim H|intros [H|H]; now elim H].
      destruct (zEmail _); simpl; [auto|intros [H|H]; now elim H].
    + split; [reflexivity|]. split; [discriminate|].
      simpl. intros [H|H]; now elim H.
Qed.

(** ** GET /waitlists/:id/signups *)

Lemma insertBy_perm (leb : Signup.t -> Signup.t -> bool) (s : Signup.t)
    (l : list Signup.t) :
  Permutation (insertBy leb s l) (s :: l).
Proof.
  induction l as [|x l IH]; simpl; [reflexivity|].
  destruct (leb s x); [reflexivity|]. rewrite IH. apply perm_swap.
Qed.

Lemma orderedBy_perm (q : SignupsQuery.t) (l : list Signup.t) :
  Permutation (orderedBy q l) l.
Proof.
  unfold orderedBy. induction l as [|x l IH]; simpl; [reflexivity|].
  rewrite insertBy_perm. now constructor.
Qed.

Lemma insertBy_sorted (leb : Signup.t -> Signup.t -> bool) (s : Signup.t)
    (l : list Signup.t) :
  (forall a b, leb a b = false -> leb b a = true) ->
  Sorted (fun a b => leb a b = true) l ->
  Sorted (fun a b => leb a b = true) (insertBy leb s l).
Proof.
  intros Htot. induction l as [|x l IH]; simpl; intros Hs.
  - repeat constructor.
  - destruct (leb s x) eqn:E.
    + constructor; [exact Hs|]. now constructor.
    + apply Sorted_inv in Hs as [Hs Hhd]. constructor; [now apply IH|].
      destruct l as [|y l]; simpl.
      * constructor. now apply Htot.
      * destruct (leb s y); constructor; [now apply Htot|].
        now apply HdRel_inv in Hhd.
Qed.

Lemma columnLeb_total (sort : string) (a b : Signup.t) :
  columnLeb sort a b = false -> columnLeb sort b a = true.
Proof.
  unfold columnLeb.
  destruct (String.eqb sort "email");
    [intros H; destruct (String.leb_total (Signup.email a) (Signup.email b)); congruence|].
  destruct (String.eqb sort "status");
    [intros H; destruct (String.leb_total (statusText (Signup.status a))
                           (statusText (Signup.status b))); congruence|].
  destruct (String.eqb sort "createdAt"); lia.
Qed.

Lemma chunks_concat {A} (n : nat) (l : list A) (m : nat) :
  List.concat (List.map (fun k => List.firstn n (List.skipn (k * n) l)) (List.seq 0 m))
  = List.firstn (m * n) l.
Proof.
  induction m as [|m IH]; [reflexivity|].
  rewrite List.seq_S, List.map_app, List.concat_app, IH. simpl.
  rewrite List.app_nil_r. replace (n + m * n)%nat with (m * n + n)%nat by lia.
  apply take_take_drop.
Qed.

Lemma ceilDiv_bounds (x d : Z) :
  1 <= d -> (ceilDiv x d - 1) * d < x <= ceilDiv x d * d.
Proof.
  intros Hd. unfold ceilDiv.
  pose proof (Z.mul_div_le (- x) d ltac:(lia)).
  pose proof (Z.mul_succ_div_gt (- x) d ltac:(lia)). nia.
Qed.

Lemma limitOf_range (q : SignupsQuery.t) : 1 <= limitOf q <= 100.
Proof. unfold limitOf. lia. Qed.

Lemma pageRows_eq (db : Db) (id : string) (q : SignupsQuery.t) (w : Waitlist.t) (p : Z) :
  findWaitlistById db id = Some w -> 1 <= p ->
  pageRows db id q p
  = List.firstn (Z.to_nat (limitOf q))
      (List.skipn (Z.to_nat (p - 1) * Z.to_nat (limitOf q)) (listingRows db id q)).
Proof.
  intros Hw Hp. unfold pageRows, listSignups. rewrite Hw. simpl.
  unfold pageOf. simpl. rewrite Z.max_r by exact Hp.
  f_equal. f_equal. pose proof (limitOf_range q).
  change (limitOf (atPage q p)) with (limitOf q).
  rewrite Z2Nat.inj_mul by lia. reflexivity.
Qed.

(** X15. The pages of the listing of an existing waitlist. The limit is
    between 1 and 100 and the page at least 1, whatever numbers the
    query gives; the total is the number of rows that match the filter;
    the page holds the rows of the ordered listing from offset
    (page - 1) * limit on, limit of them or as many as are left; the
    number of pages is the least that holds them all; the pages 1 to
    totalPages, one after the other, are the whole listing, and every
    later page is empty. *)
Theorem signups_listing_pages (db : Db) (id : string) (q : SignupsQuery.t)
    (w : Waitlist.t) (Hw : findWaitlistById db id = Some w) :
  exists pg,
    listSignups db id q = Ok pg
    /\ 1 <= Page.page pg
    /\ 1 <= Page.limit pg <= 100
    /\ Page.total pg = Z.of_nat (List.length (listingRows db id q))
    /\ Page.signups pg = pageRows db id q (Page.page pg)
    /\ Z.of_nat (List.length (Page.signups pg))
       = Z.max 0 (Z.min (Page.limit pg)
                        (Page.total pg - (Page.page pg - 1) * Page.limit pg))
    /\ (Page.totalPages pg - 1) * Page.limit pg < Page.total pg
       <= Page.totalPages pg * Page.limit pg
    /\ List.concat
         (List.map (fun k => pageRows db id q (Z.of_nat k))
                   (List.seq 1 (Z.to_nat (Page.totalPages pg))))
       = listingRows db id q
    /\ (forall p, Page.totalPages pg < p -> pageRows db id q p = []).
Proof.
  pose proof (limitOf_range q) as Hl.
  assert (Hlen : List.length (List.filter (listed id q) (signups db))
                 = List.length (listingRows db id q))
    by (symmetry; apply Permutation_length, orderedBy_perm).
  unfold listSignups. rewrite Hw. eexists. split; [reflexivity|].
  cbn [Page.page Page.limit Page.total Page.totalPages Page.signups].
  rewrite Hlen.
  set (rows := listingRows db id q). set (n := limitOf q) in *.
  pose proof (ceilDiv_bounds (Z.of_nat (List.length rows)) n ltac:(lia)) as Hc.
  assert (Hp : 1 <= pageOf q) by (unfold pageOf; lia).
  split; [exact Hp|]. split; [exact Hl|]. split; [reflexivity|].
  split; [|split; [|split; [exact Hc|split]]].
  - rewrite (pageRows_eq db id q w _ Hw Hp). fold rows. fold n.
    f_equal. f_equal. rewrite Z2Nat.inj_mul by lia. reflexivity.
  - rewrite List.length_firstn, List.length_skipn. nia.
  - rewrite <- List.seq_shift, List.map_map.
    erewrite List.map_ext_in.
    + rewrite (chunks_concat (Z.to_nat n) rows). apply List.firstn_all2. nia.
    + intros k _. cbv beta. rewrite (pageRows_eq db id q w _ Hw) by lia.
      fold rows. fold n. f_equal. f_equal. f_equal. lia.
  - intros p Hlt. assert (1 <= p) by nia.
    rewrite (pageRows_eq db id q w _ Hw) by lia. fold rows. fold n.
    rewrite List.skipn_all2; [now destruct (Z.to_nat n)|].
    apply Nat2Z.inj_le. rewrite Nat2Z.inj_mul, !Z2Nat.id by lia. nia.
Qed.

Lemma signups_listing_pages_witness :
  exists pg,
    listSignups Invited.db "w2"
      {| SignupsQuery.page := Some 0; SignupsQuery.limit := Some 1;
         SignupsQuery.search := None; SignupsQuery.status := None;
         SignupsQuery.sort := None; SignupsQuery.order := None |} = Ok pg
    /\ Page.page pg = 1 /\ Page.total pg = 2 /\ Page.totalPages pg = 2
    /\ List.map Signup.id (Page.signups pg) = ["s2"].
Proof.
  destruct (signups_listing_pages Invited.db "w2"
              {| SignupsQuery.page := Some 0; SignupsQuery.limit := Some 1;
                 SignupsQuery.search := None; SignupsQuery.status := None;
                 SignupsQuery.sort := None; SignupsQuery.order := None |}
              Sample.open eq_refl) as (pg & Hpg & _).
  exists pg. split; [exact Hpg|].
  injection Hpg as <-. repeat split; reflexivity.
Defined.

(** X16. What the listing holds and in which order: exactly the signups of
    the waitlist that match the search and the status asked for, each
    once per row of the table, sorted by the chosen column (position
    unless the query names email, status or createdAt), downwards unless
    the query says [asc]. *)
Theorem signups_listing_order (db : Db) (id : string) (q : SignupsQuery.t) :
  Permutation (listingRows db id q) (List.filter (listed id q) (signups db))
  /\ (forall s, s ∈ listingRows db id q ->
        s ∈ signups db /\ Signup.waitlistId s = id
        /\ (forall st, SignupsQuery.status q = Some st -> Signup.status s = st))
  /\ (SignupsQuery.search q = None -> SignupsQuery.status q = None ->
      Permutation (listingRows db id q) (signupsOf db id))
  /\ Sorted (fun a b =>
               let sort := if Js.truthy (SignupsQuery.sort q)
                           then default EmptyString (SignupsQuery.sort q)
                           else "position" in
               if bool_decide (SignupsQuery.order q = Some "asc")
               then columnLeb sort a b = true
               else columnLeb sort b a = true)
            (listingRows db id q)
  /\ (SignupsQuery.sort q = None -> SignupsQuery.order q = None ->
      Sorted (fun a b => Signup.position b <= Signup.position a) (listingRows db id q)).
Proof.
  assert (Hperm : Permutation (listingRows db id q)
                              (List.filter (listed id q) (signups db)))
    by apply orderedBy_perm.
  assert (Hsorted : forall l,
            Sorted (fun a b =>
               (if bool_decide (SignupsQuery.order q = Some "asc")
                then columnLeb (if Js.truthy (SignupsQuery.sort q)
                                then default EmptyString (SignupsQuery.sort q)
                                else "position") a b
                else columnLeb (if Js.truthy (SignupsQuery.sort q)
                                then default EmptyString (SignupsQuery.sort q)
                                else "position") b a) = true)
              (orderedBy q l)).
  { intros l. unfold orderedBy. induction l as [|x l IH]; simpl; [constructor|].
    apply (insertBy_sorted
             (fun a b => if bool_decide (SignupsQuery.order q = Some "asc")
                         then columnLeb _ a b else columnLeb _ b a)); [|exact IH].
    intros a b. destruct (bool_decide _); apply columnLeb_total. }
  split; [exact Hperm|]. split; [|split; [|split]].
  - intros s Hs. rewrite Hperm in Hs. apply elem_of_filter_list in Hs as [Hs Hl].
    unfold listed in Hl. apply andb_prop in Hl as [Hl Hst].
    apply andb_prop in Hl as [Hl _]. apply bool_decide_eq_true in Hl.
    split; [exact Hs|]. split; [exact Hl|]. intros st E. rewrite E in Hst.
    now apply bool_decide_eq_true in Hst.
  - intros Hse Hst. rewrite Hperm. unfold signupsOf.
    erewrite List.filter_ext; [reflexivity|]. intros s. unfold listed.
    rewrite Hse, Hst. simpl. now rewrite !andb_true_r.
  - specialize (Hsorted (List.filter (listed id q) (signups db))).
    unfold listingRows. cbv zeta.
    eapply Sorted_ind with (P := fun l => Sorted _ l); [| |exact Hsorted].
    + constructor.
    + intros a l _ IH Hhd. constructor; [exact IH|].
      destruct Hhd as [|b l' Hab]; constructor.
      now destruct (bool_decide _).
  - intros Hso Hor. specialize (Hsorted (List.filter (listed id q) (signups db))).
    rewrite Hso, Hor in Hsorted. simpl in Hsorted.
    unfold listingRows.
    eapply Sorted_ind with (P := fun l => Sorted _ l); [| |exact Hsorted].
    + constructor.
    + intros a l _ IH Hhd. constructor; [exact IH|].
      destruct Hhd as [|b l' Hab]; constructor.
      unfold columnLeb in Hab. simpl in Hab. lia.
Qed.

(** ** GET /waitlists *)

Lemma insertByCreatedDesc_perm (w : Waitlist.t) (l : list Waitlist.t) :
  Permutation (insertByCreatedDesc w l) (w :: l).
Proof.
  induction l as [|x l IH]; simpl; [reflexivity|].
  destruct (createdColumn x <=? createdColumn w); [reflexivity|].
  rewrite IH. apply perm_swap.
Qed.

Lemma byCreatedDesc_perm (l : list Waitlist.t) :
  Permutation (List.fold_right insertByCreatedDesc [] l) l.
Proof.
  induction l as [|x l IH]; simpl; [reflexivity|].
  rewrite insertByCreatedDesc_perm. now constructor.
Qed.

Lemma insertByCreatedDesc_sorted (w : Waitlist.t) (l : list Waitlist.t) :
  Sorted (fun a b => createdColumn b <= createdColumn a) l ->
  Sorted (fun a b => createdColumn b <= createdColumn a)
         (insertByCreatedDesc w l).
Proof.
  induction l as [|x l IH]; simpl; intros Hs.
  - repeat constructor.
  - destruct (Z.leb_spec (createdColumn x) (createdColumn w)).
    + constructor; [exact Hs|]. now constructor.
    + apply Sorted_inv in Hs as [Hs Hhd]. constructor; [now apply IH|].
      destruct l as [|y l]; simpl.
      * constructor. lia.
      * destruct (createdColumn y <=? createdColumn w); constructor;
          [lia|]. now apply HdRel_inv in Hhd.
Qed.

Lemma byCreatedDesc_sorted (l : list Waitlist.t) :
  Sorted (fun a b => createdColumn b <= createdColumn a)
         (List.fold_right insertByCreatedDesc [] l).
Proof.
  induction l as [|x l IH]; simpl; [constructor|].
  now apply insertByCreatedDesc_sorted.
Qed.

Lemma sumZ_perm (l l' : list Z) : Permutation l l' -> sumZ l = sumZ l'.
Proof. induction 1; simpl; lia. Qed.

Lemma sumZ_map_add {A} (g h : A -> Z) (l : list A) :
  sumZ (List.map (fun x => g x + h x) l) = sumZ (List.map g l) + sumZ (List.map h l).
Proof. induction l as [|a l IH]; simpl; lia. Qed.

Lemma sum_indicator_zero {A} (f : A -> string) (x : string) (l : list A) :
  x ∉ List.map f l ->
  sumZ (List.map (fun a => if bool_decide (x = f a) then 1 else 0) l) = 0.
Proof.
  induction l as [|a l IH]; simpl; intros H; [reflexivity|].
  apply not_elem_of_cons in H as [H1 H2].
  rewrite bool_decide_eq_false_2 by exact H1. rewrite IH by exact H2. reflexivity.
Qed.

Lemma sum_indicator_one {A} (f : A -> string) (x : string) (l : list A) :
  NoDup (List.map f l) -> x ∈ List.map f l ->
  sumZ (List.map (fun a => if bool_decide (x = f a) then 1 else 0) l) = 1.
Proof.
  induction l as [|a l IH]; simpl; intros Hd Hx.
  - now apply elem_of_nil in Hx.
  - apply NoDup_cons in Hd as [Hn Hd].
    destruct (decide (x = f a)) as [E|E].
    + rewrite bool_decide_eq_true_2 by exact E.
      rewrite sum_indicator_zero; [reflexivity | now rewrite E].
    + rewrite bool_decide_eq_false_2 by exact E.
      apply elem_of_cons in Hx as [Hx|Hx]; [contradiction|].
      now rewrite IH.
Qed.

(** X17. The list of waitlists of the admin API: every waitlist once, the
    newest first; for each, the number of its signups, of which the
    confirmed count is a part and the count the public status endpoint
    shows a part of that: the confirmed count is the public count plus
    the invited signups. *)
Theorem waitlists_listing_counts (db : Db) :
  Permutation (List.map Listed.waitlist (listWaitlists db)) (waitlists db)
  /\ Sorted (fun a b => createdColumn (Listed.waitlist b)
                        <= createdColumn (Listed.waitlist a))
            (listWaitlists db)
  /\ Forall (fun e =>
               let id := Waitlist.id (Listed.waitlist e) in
               Listed.signupCount e = Z.of_nat (List.length (signupsOf db id))
               /\ Listed.confirmedCount e
                  = countConfirmed db id
                    + countWhere (fun s => bool_decide (Signup.status s = invited))
                                 (signupsOf db id)
               /\ 0 <= countConfirmed db id <= Listed.confirmedCount e
               /\ Listed.confirmedCount e <= Listed.signupCount e)
            (listWaitlists db).
Proof.
  unfold listWaitlists. split; [|split].
  - rewrite List.map_map. simpl. rewrite List.map_id. apply byCreatedDesc_perm.
  - pose proof (byCreatedDesc_sorted (waitlists db)) as H.
    induction H as [|a l _ IH Hhd]; simpl; constructor; [exact IH|].
    destruct Hhd; simpl; constructor. simpl. assumption.
  - apply Forall_forall. intros e He.
    apply list_elem_of_fmap in He as (w & -> & _). cbn.
    assert (E : confirmedOrInvitedCount db (Waitlist.id w)
                = countConfirmed db (Waitlist.id w)
                  + countWhere (fun s => bool_decide (Signup.status s = invited))
                               (signupsOf db (Waitlist.id w))).
    { unfold confirmedOrInvitedCount, countConfirmed, signupsOf.
      rewrite <- filter_filter_andb. rewrite !countWhere_length_filter.
      apply countWhere_split. intros s. unfold isConfirmedOrInvited.
      destruct (Signup.status s); reflexivity. }
    split; [reflexivity|]. split; [exact E|].
    pose proof (countWhere_nonneg (fun s => bool_decide (Signup.status s = invited))
                  (signupsOf db (Waitlist.id w))).
    assert (0 <= countConfirmed db (Waitlist.id w)) by (unfold countConfirmed; lia).
    split; [lia|].
    unfold confirmedOrInvitedCount.
    pose proof (List.filter_length_le
                  (fun s => isConfirmedOrInvited (Signup.status s))
                  (signupsOf db (Waitlist.id w))). lia.
Qed.

(** X18. Where waitlist ids are unique and every signup belongs to a
    waitlist, the signup counts of the list add up to the number of rows
    of the signups table: no signup is counted twice or left out. *)
Theorem every_signup_listed_once (db : Db)
    (Hid : uniqueWaitlistIds db) (Hfk : noOrphans db) :
  sumZ (List.map Listed.signupCount (listWaitlists db))
  = Z.of_nat (List.length (signups db)).
Proof.
  unfold listWaitlists. rewrite List.map_map. simpl.
  rewrite (sumZ_perm _ (List.map (fun w => Z.of_nat (List.length
                                     (signupsOf db (Waitlist.id w)))) (waitlists db)))
    by (apply Permutation_map, byCreatedDesc_perm).
  unfold signupsOf, noOrphans, uniqueWaitlistIds in *.
  induction (signups db) as [|s l IH].
  - simpl. clear. induction (waitlists db); simpl; lia.
  - erewrite List.map_ext.
    2:{ intros w. simpl.
        instantiate (1 := fun w =>
          (if bool_decide (Signup.waitlistId s = Waitlist.id w) then 1 else 0)
          + Z.of_nat (List.length
              (List.filter (fun s0 => bool_decide (Signup.waitlistId s0 = Waitlist.id w)) l))).
        cbv beta. destruct (bool_decide _); simpl; lia. }
    rewrite sumZ_map_add, IH.
    + rewrite (sum_indicator_one Waitlist.id); [simpl; lia | exact Hid|].
      destruct (Hfk s) as (w & Hw & E); [apply elem_of_cons; now left|].
      rewrite <- E. now apply list_elem_of_fmap_2.
    + intros s0 Hs0. apply Hfk. apply elem_of_cons. now right.
Qed.

Lemma every_signup_listed_once_witness :
  sumZ (List.map Listed.signupCount (listWaitlists Sample.db)) = 1.
Proof.
  destruct sample_constraints as (Hid & _ & Hfk).
  exact (every_signup_listed_once Sample.db Hid Hfk).
Defined.

(** ** lib/utils.ts: the hexadecimal form of generateToken *)

Lemma hexOfBytes_cons (b : Z) (bytes : list Z) :
  hexOfBytes (b :: bytes) = padStart2 (byteToString16 b) +:+ hexOfBytes bytes.
Proof.
  unfold hexOfBytes. simpl. destruct (List.map _ bytes) as [|x r] eqn:E.
  - simpl. symmetry. induction (padStart2 (byteToString16 b)) as [|c s IH];
      [reflexivity | now rewrite append_cons, IH].
  - reflexivity.
Qed.

Lemma hexValue_hexDigit (n : Z) : 0 <= n < 16 -> hexValue (hexDigit n) = Some n.
Proof.
  intros H. rewrite <- (Z2Nat.id n) by lia.
  assert (Hk : (Z.to_nat n < 16)%nat) by lia.
  revert Hk. generalize (Z.to_nat n). intros k Hk.
  do 16 (destruct k as [|k]; [reflexivity|]). lia.
Qed.

Lemma twoDigits (b : Z) :
  0 <= b < 256 ->
  padStart2 (byteToString16 b)
  = String (hexDigit (b / 16)) (String (hexDigit (b mod 16)) EmptyString).
Proof.
  intros H. unfold byteToString16. destruct (Z.ltb_spec b 16).
  - rewrite Z.div_small, Z.mod_small by lia. reflexivity.
  - reflexivity.
Qed.

Lemma bytesOfHex_hexOfBytes (bytes : list Z) :
  Forall (fun b => 0 <= b < 256) bytes -> bytesOfHex (hexOfBytes bytes) = Some bytes.
Proof.
  induction 1 as [|b bytes Hb _ IH]; [reflexivity|].
  rewrite hexOfBytes_cons, twoDigits by exact Hb. rewrite !append_cons.
  change (EmptyString +:+ hexOfBytes bytes) with (hexOfBytes bytes).
  cbn [bytesOfHex].
  rewrite !hexValue_hexDigit, IH
    by (try apply Z.mod_pos_bound; try split;
        try apply Z.div_pos; try apply Z.div_lt_upper_bound; lia).
  f_equal. f_equal. pose proof (Z.div_mod b 16 ltac:(lia)). lia.
Qed.

(** X19. The token of [generateToken] is the bytes drawn written as two
    lower-case hexadecimal digits each: twice as many characters as
    bytes, from which the bytes are read back, so that two draws give
    the same token only if they are the same bytes. *)
Theorem token_hex_round_trip (bytes : list Z)
    (H : Forall (fun b => 0 <= b < 256) bytes) :
  String.length (hexOfBytes bytes) = (2 * List.length bytes)%nat
  /\ bytesOfHex (hexOfBytes bytes) = Some bytes
  /\ URL.all (fun c => bool_decide (is_Some (hexValue c))) (hexOfBytes bytes) = true
  /\ (forall other, Forall (fun b => 0 <= b < 256) other ->
        hexOfBytes other = hexOfBytes bytes -> other = bytes).
Proof.
  split; [|split; [now apply bytesOfHex_hexOfBytes|split]].
  - induction H as [|b bytes Hb _ IH]; [reflexivity|].
    rewrite hexOfBytes_cons, twoDigits by exact Hb. rewrite !append_cons.
    change (EmptyString +:+ hexOfBytes bytes) with (hexOfBytes bytes).
    simpl. rewrite IH. lia.
  - induction H as [|b bytes Hb _ IH]; [reflexivity|].
    rewrite hexOfBytes_cons, twoDigits by exact Hb. rewrite !append_cons.
    change (EmptyString +:+ hexOfBytes bytes) with (hexOfBytes bytes).
    cbn [URL.all].
    rewrite !hexValue_hexDigit, IH
      by (try apply Z.mod_pos_bound; try split;
          try apply Z.div_pos; try apply Z.div_lt_upper_bound; lia).
    rewrite !bool_decide_eq_true_2 by eauto. reflexivity.
  - intros other Ho E. apply bytesOfHex_hexOfBytes in Ho.
    rewrite E, (bytesOfHex_hexOfBytes bytes H) in Ho. congruence.
Qed.

Lemma token_hex_round_trip_witness :
  String.length (hexOfBytes [0; 15; 16; 255; 171]) = 10%nat
  /\ bytesOfHex (hexOfBytes [0; 15; 16; 255; 171]) = Some [0; 15; 16; 255; 171].
Proof.
  destruct (token_hex_round_trip [0; 15; 16; 255; 171]) as (Hl & Hb & _).
  - repeat constructor; lia.
  - split; [exact Hl | exact Hb].
Defined.

(** ** lib/utils.ts: slugify *)

Ltac by_cases_on_char c :=
  destruct c as [[] [] [] [] [] [] [] []]; vm_compute; reflexivity.

Lemma rev_app_append (s acc : string) :
  String.rev_app s acc = String.rev_app s EmptyString +:+ acc.
Proof.
  revert acc. induction s as [|a s IH]; intros acc; [reflexivity|].
  simpl. rewrite IH, (IH (String a EmptyString)), append_assoc. reflexivity.
Qed.

Lemma rev_cons (a : ascii) (s : string) :
  String.rev (String a s) = String.rev s +:+ String a EmptyString.
Proof. unfold String.rev. simpl. apply rev_app_append. Qed.

Lemma rev_snoc (s : string) (c : ascii) :
  String.rev (s +:+ String c EmptyString) = String c (String.rev s).
Proof.
  induction s as [|a s IH]; [reflexivity|].
  rewrite append_cons, !rev_cons, IH. reflexivity.
Qed.

Lemma rev_rev (s : string) : String.rev (String.rev s) = s.
Proof.
  induction s as [|a s IH]; [reflexivity|]. now rewrite rev_cons, rev_snoc, IH.
Qed.

Lemma all_append (p : ascii -> bool) (a b : string) :
  URL.all p (a +:+ b) = URL.all p a && URL.all p b.
Proof.
  induction a as [|c a IH]; [reflexivity|].
  rewrite append_cons. simpl. now rewrite IH, andb_assoc.
Qed.

Lemma all_rev (p : ascii -> bool) (s : string) :
  URL.all p (String.rev s) = URL.all p s.
Proof.
  induction s as [|c s IH]; [reflexivity|].
  rewrite rev_cons, all_append, IH. simpl. rewrite andb_true_r. apply andb_comm.
Qed.

Lemma all_trimStart (p : ascii -> bool) (s : string) :
  (forall c, Js.isSpace c = true -> p c = true) ->
  URL.all p (Js.trimStart s) = URL.all p s.
Proof.
  intros Hp. induction s as [|c s IH]; [reflexivity|]. simpl.
  destruct (Js.isSpace c) eqn:E; [|reflexivity]. now rewrite (Hp c E), IH.
Qed.

Lemma all_trim (p : ascii -> bool) (s : string) :
  (forall c, Js.isSpace c = true -> p c = true) ->
  URL.all p (Js.trim s) = URL.all p s.
Proof.
  intros Hp. unfold Js.trim, Js.trimEnd.
  now rewrite all_rev, all_trimStart, all_rev, all_trimStart.
Qed.

Lemma all_trimStart_keeps (p : ascii -> bool) (s : string) :
  URL.all p s = true -> URL.all p (Js.trimStart s) = true.
Proof.
  induction s as [|c s IH]; [reflexivity|]. simpl. intros H.
  destruct (Js.isSpace c); [|exact H]. apply andb_prop in H as [_ H]. now apply IH.
Qed.

Lemma all_trim_keeps (p : ascii -> bool) (s : string) :
  URL.all p s = true -> URL.all p (Js.trim s) = true.
Proof.
  intros H. unfold Js.trim, Js.trimEnd. rewrite all_rev.
  apply all_trimStart_keeps. rewrite all_rev. now apply all_trimStart_keeps.
Qed.

Lemma all_impl (p q : ascii -> bool) (s : string) :
  (forall c, p c = true -> q c = true) -> URL.all p s = true -> URL.all q s = true.
Proof.
  intros Hpq. induction s as [|c s IH]; [reflexivity|]. simpl. intros H.
  apply andb_prop in H as [H1 H2]. now rewrite (Hpq c H1), IH.
Qed.

Lemma all_ext (p q : ascii -> bool) (s : string) :
  (forall c, p c = q c) -> URL.all p s = URL.all q s.
Proof.
  intros Hpq. induction s as [|c s IH]; [reflexivity|]. simpl. now rewrite Hpq, IH.
Qed.

Lemma dropLeadingHyphens_append (x y : string) :
  dropLeadingHyphens (x +:+ y)
  = match dropLeadingHyphens x with
    | EmptyString => dropLeadingHyphens y
    | String _ _ => dropLeadingHyphens x +:+ y
    end.
Proof.
  induction x as [|c x IH]; [reflexivity|].
  rewrite append_cons. simpl. destruct (Ascii.eqb c "-"); [exact IH | reflexivity].
Qed.

Lemma dropTrailingHyphens_cons (c : ascii) (r : string) :
  dropTrailingHyphens (String c r)
  = match dropTrailingHyphens r with
    | EmptyString => if Ascii.eqb c "-" then EmptyString else String c EmptyString
    | String _ _ => String c (dropTrailingHyphens r)
    end.
Proof.
  unfold dropTrailingHyphens. rewrite rev_cons, dropLeadingHyphens_append.
  destruct (dropLeadingHyphens (String.rev r)) as [|d z] eqn:E.
  - simpl. now destruct (Ascii.eqb c "-").
  - rewrite rev_snoc. destruct (String.rev (String d z)) eqn:E2; [|reflexivity].
    apply (f_equal String.rev) in E2. rewrite rev_rev in E2. discriminate.
Qed.

Lemma lowerChar_not_upper (c : ascii) : isUpper (Js.lowerChar c) = false.
Proof. by_cases_on_char c. Qed.

Lemma lowerChar_alphanumeric (c : ascii) :
  alphanumeric (Js.lowerChar c) = alphanumeric c.
Proof. by_cases_on_char c. Qed.

Lemma kept_word_is_slugChar (c : ascii) :
  implb (negb (isUpper c) && keptBySlugify c && negb (separatorChar c))
        (slugChar c && negb (Ascii.eqb c "-")) = true.
Proof. by_cases_on_char c. Qed.

Lemma separator_or_alphanumeric (c : ascii) :
  (if keptBySlugify c then Bool.eqb (separatorChar c) (negb (alphanumeric c))
   else negb (alphanumeric c)) = true.
Proof. by_cases_on_char c. Qed.

Lemma hyphen_is_separator (c : ascii) :
  implb (Ascii.eqb c "-") (separatorChar c) = true.
Proof. by_cases_on_char c. Qed.

Lemma space_not_alphanumeric (c : ascii) :
  implb (Js.isSpace c) (negb (alphanumeric c)) = true.
Proof. by_cases_on_char c. Qed.

Lemma slugChar_plain (c : ascii) :
  implb (slugChar c)
        (Ascii.eqb (Js.lowerChar c) c && negb (Js.isSpace c) && keptBySlugify c
         && Bool.eqb (separatorChar c) (Ascii.eqb c "-")) = true.
Proof. by_cases_on_char c. Qed.

Lemma all_lower (s : string) :
  URL.all (fun c => negb (isUpper c)) (Js.toLowerCase s) = true.
Proof.
  induction s as [|c s IH]; [reflexivity|]. simpl.
  now rewrite lowerChar_not_upper, IH.
Qed.

Lemma all_dropSymbols (s : string) :
  URL.all (fun c => negb (isUpper c)) s = true ->
  URL.all (fun c => negb (isUpper c) && keptBySlugify c) (dropSymbols s) = true.
Proof.
  induction s as [|c s IH]; [reflexivity|]. simpl. intros H.
  apply andb_prop in H as [H1 H2]. fold (keptBySlugify c).
  destruct (keptBySlugify c) eqn:E; [|now apply IH].
  simpl. now rewrite H1, E, IH.
Qed.

Lemma hyphenate_single (s : string) (inRun : bool) :
  URL.all (fun c => negb (isUpper c) && keptBySlugify c) s = true ->
  hyphensSingle (hyphenate s inRun) inRun = true.
Proof.
  revert inRun. induction s as [|c s IH]; intros inRun H; [reflexivity|].
  simpl in H. apply andb_prop in H as [Hc H]. simpl.
  destruct (separatorChar c) eqn:E.
  - destruct inRun; [now apply IH|]. simpl. now rewrite IH.
  - pose proof (kept_word_is_slugChar c) as K. rewrite Hc, E in K. simpl in K.
    apply andb_prop in K as [K1 K2]. apply negb_true_iff in K2.
    simpl. rewrite K1, K2. simpl. now apply IH.
Qed.

Lemma dropLeadingHyphens_single (s : string) :
  hyphensSingle s false = true -> hyphensSingle (dropLeadingHyphens s) true = true.
Proof.
  destruct s as [|c s]; [reflexivity|]. simpl.
  destruct (Ascii.eqb c "-") eqn:E.
  - intros H. apply andb_prop in H as [_ H]. simpl in H.
    destruct s as [|d s]; [reflexivity|]. simpl in *.
    destruct (Ascii.eqb d "-") eqn:Ed.
    + apply andb_prop in H as [_ H]. discriminate.
    + simpl. now rewrite Ed.
  - intros H. simpl. now rewrite E.
Qed.

Lemma dropTrailingHyphens_body (s : string) (a : bool) :
  hyphensSingle s a = true ->
  dropTrailingHyphens s = EmptyString \/ slugBody (dropTrailingHyphens s) a = true.
Proof.
  revert a. induction s as [|c s IH]; intros a H; [now left|].
  simpl in H. apply andb_prop in H as [Hc H].
  rewrite dropTrailingHyphens_cons.
  destruct (Ascii.eqb c "-") eqn:E.
  - apply andb_prop in H as [Ha H]. destruct (IH true H) as [E0|Hb].
    + rewrite E0. now left.
    + destruct (dropTrailingHyphens s) as [|d z] eqn:Ed; [now left|]. right.
      cbn [slugBody]. rewrite Hc, E, Ha. exact Hb.
  - destruct (IH false H) as [E0|Hb].
    + rewrite E0. right. simpl. now rewrite Hc, E.
    + destruct (dropTrailingHyphens s) as [|d z] eqn:Ed; right;
        cbn [slugBody]; rewrite Hc, E; [reflexivity | exact Hb].
Qed.

Lemma slugify_shaped (s : string) : slugShaped (slugify s) = true.
Proof.
  unfold slugify.
  set (t := hyphenate _ false).
  assert (Ht : hyphensSingle t false = true).
  { apply hyphenate_single, all_dropSymbols, all_trim_keeps, all_lower. }
  apply dropLeadingHyphens_single in Ht.
  destruct (dropTrailingHyphens_body _ _ Ht) as [->|H]; [reflexivity|].
  unfold slugShaped. now destruct (dropTrailingHyphens _).
Qed.

Lemma slugBody_chars (s : string) (a : bool) :
  slugBody s a = true -> URL.all slugChar s = true.
Proof.
  revert a. induction s as [|c s IH]; intros a H; [reflexivity|].
  simpl in *. apply andb_prop in H as [Hc H]. rewrite Hc. simpl.
  destruct (Ascii.eqb c "-"); [apply andb_prop in H as [_ H]|]; eauto.
Qed.

Lemma toLowerCase_fixed (s : string) :
  URL.all slugChar s = true -> Js.toLowerCase s = s.
Proof.
  induction s as [|c s IH]; [reflexivity|]. simpl. intros H.
  apply andb_prop in H as [Hc H]. rewrite IH by exact H. f_equal.
  pose proof (slugChar_plain c) as K. rewrite Hc in K. simpl in K.
  apply andb_prop in K as [K _]. apply andb_prop in K as [K _].
  apply andb_prop in K as [K _]. now apply Ascii.eqb_eq in K.
Qed.

Lemma trimStart_fixed (s : string) :
  URL.all (fun c => negb (Js.isSpace c)) s = true -> Js.trimStart s = s.
Proof.
  destruct s as [|c s]; [reflexivity|]. simpl. intros H.
  apply andb_prop in H as [Hc _]. apply negb_true_iff in Hc. now rewrite Hc.
Qed.

Lemma trim_fixed (s : string) :
  URL.all slugChar s = true -> Js.trim s = s.
Proof.
  intros H.
  assert (Hs : URL.all (fun c => negb (Js.isSpace c)) s = true).
  { apply (all_impl slugChar); [|exact H]. intros c Hc.
    pose proof (slugChar_plain c) as K. rewrite Hc in K. simpl in K.
    apply andb_prop in K as [K _]. apply andb_prop in K as [K _].
    now apply andb_prop in K as [_ K]. }
  unfold Js.trim, Js.trimEnd. rewrite (trimStart_fixed s Hs).
  rewrite trimStart_fixed by now rewrite all_rev. apply rev_rev.
Qed.

Lemma dropSymbols_fixed (s : string) :
  URL.all slugChar s = true -> dropSymbols s = s.
Proof.
  induction s as [|c s IH]; [reflexivity|]. simpl. intros H.
  apply andb_prop in H as [Hc H]. rewrite IH by exact H.
  pose proof (slugChar_plain c) as K. rewrite Hc in K. simpl in K.
  apply andb_prop in K as [K _]. apply andb_prop in K as [_ K].
  unfold keptBySlugify in K. now rewrite K.
Qed.

Lemma hyphenate_fixed (s : string) (a : bool) :
  slugBody s a = true -> hyphenate s a = s.
Proof.
  revert a. induction s as [|c s IH]; intros a H; [reflexivity|].
  simpl in H. apply andb_prop in H as [Hc H]. simpl.
  pose proof (slugChar_plain c) as K. rewrite Hc in K. simpl in K.
  apply andb_prop in K as [_ K]. apply Bool.eqb_prop in K. rewrite K.
  destruct (Ascii.eqb_spec c "-") as [->|Hne].
  - apply andb_prop in H as [Ha H]. apply negb_true_iff in Ha. rewrite Ha.
    now rewrite IH.
  - now rewrite IH.
Qed.

Lemma dropTrailingHyphens_fixed (s : string) (a : bool) :
  slugBody s a = true -> dropTrailingHyphens s = s.
Proof.
  revert a. induction s as [|c s IH]; intros a H; [reflexivity|].
  simpl in H. apply andb_prop in H as [Hc H]. rewrite dropTrailingHyphens_cons.
  destruct (Ascii.eqb c "-").
  - apply andb_prop in H as [_ H]. rewrite (IH true H).
    destruct s; [discriminate | reflexivity].
  - rewrite (IH false H). now destruct s.
Qed.

Lemma slugify_fixed (u : string) : slugShaped u = true -> slugify u = u.
Proof.
  destruct u as [|c u]; [reflexivity|]. unfold slugShaped. intros H.
  pose proof (slugBody_chars _ _ H) as Hc. unfold slugify.
  rewrite (toLowerCase_fixed _ Hc), (trim_fixed _ Hc), (dropSymbols_fixed _ Hc).
  assert (Hh : hyphenate (String c u) false = String c u).
  { simpl in H. apply andb_prop in H as [Hsc H]. simpl.
    pose proof (slugChar_plain c) as K. rewrite Hsc in K. simpl in K.
    apply andb_prop in K as [_ K]. apply Bool.eqb_prop in K. rewrite K.
    destruct (Ascii.eqb c "-"); [discriminate|]. now rewrite hyphenate_fixed. }
  rewrite Hh.
  assert (Hl : dropLeadingHyphens (String c u) = String c u).
  { simpl in H. apply andb_prop in H as [_ H]. simpl.
    now destruct (Ascii.eqb c "-"). }
  rewrite Hl. now apply (dropTrailingHyphens_fixed _ true).
Qed.

Lemma dropLeadingHyphens_empty (s : string) :
  dropLeadingHyphens s = EmptyString
  <-> URL.all (fun c => Ascii.eqb c "-") s = true.
Proof.
  induction s as [|c s IH]; [easy|]. simpl.
  destruct (Ascii.eqb c "-"); [exact IH | easy].
Qed.

Lemma dropTrailingHyphens_empty (s : string) :
  dropTrailingHyphens s = EmptyString
  <-> URL.all (fun c => Ascii.eqb c "-") s = true.
Proof.
  induction s as [|c s IH]; [easy|]. rewrite dropTrailingHyphens_cons. simpl.
  destruct (dropTrailingHyphens s) as [|d z].
  - destruct (Ascii.eqb c "-"); [|easy]. simpl. rewrite <- IH. easy.
  - destruct (Ascii.eqb c "-"); [|easy]. simpl. rewrite <- IH. easy.
Qed.

Lemma all_hyphens_dropLeading (s : string) :
  URL.all (fun c => Ascii.eqb c "-") (dropLeadingHyphens s)
  = URL.all (fun c => Ascii.eqb c "-") s.
Proof.
  induction s as [|c s IH]; [reflexivity|]. simpl.
  destruct (Ascii.eqb c "-") eqn:E; [exact IH|]. simpl. now rewrite E.
Qed.

Lemma all_hyphens_hyphenate (s : string) (inRun : bool) :
  URL.all (fun c => Ascii.eqb c "-") (hyphenate s inRun) = URL.all separatorChar s.
Proof.
  revert inRun. induction s as [|c s IH]; intros inRun; [reflexivity|]. simpl.
  destruct (separatorChar c) eqn:E.
  - destruct inRun; simpl; apply IH.
  - simpl. pose proof (hyphen_is_separator c) as K. rewrite E in K.
    now destruct (Ascii.eqb c "-").
Qed.

Lemma all_separators_dropSymbols (s : string) :
  URL.all separatorChar (dropSymbols s)
  = URL.all (fun c => negb (alphanumeric c)) s.
Proof.
  induction s as [|c s IH]; [reflexivity|]. simpl. fold (keptBySlugify c).
  pose proof (separator_or_alphanumeric c) as K.
  destruct (keptBySlugify c).
  - simpl. apply Bool.eqb_prop in K. now rewrite K, IH.
  - now rewrite K, IH.
Qed.

Lemma slugify_empty (s : string) :
  slugify s = EmptyString <-> URL.all (fun c => negb (alphanumeric c)) s = true.
Proof.
  unfold slugify.
  rewrite dropTrailingHyphens_empty, all_hyphens_dropLeading, all_hyphens_hyphenate,
          all_separators_dropSymbols.
  rewrite all_trim.
  - assert (E : forall x, URL.all (fun c => negb (alphanumeric c)) (Js.toLowerCase x)
                          = URL.all (fun c => negb (alphanumeric c)) x).
    { induction x as [|c x IH]; [reflexivity|]. simpl.
      now rewrite lowerChar_alphanumeric, IH. }
    now rewrite E.
  - intros c Hc. pose proof (space_not_alphanumeric c) as K. now rewrite Hc in K.
Qed.

(** X20. What [slugify] makes of a string of 8-bit characters: a slug, that
    is lower-case ASCII letters, digits and single hyphens, none at
    either end; it leaves every such slug as it is, so that applying it
    twice changes nothing more; and the slug is empty exactly when the
    string holds no ASCII letter or digit. A waitlist created without a
    slug gets the slug made of its name. *)
Theorem slugify_makes_slugs (s : string) :
  slugShaped (slugify s) = true
  /\ (forall u, slugShaped u = true -> slugify u = u)
  /\ slugify (slugify s) = slugify s
  /\ (slugify s = EmptyString
      <-> URL.all (fun c => negb (alphanumeric c)) s = true)
  /\ (forall o body, NewWaitlist.name body = s -> NewWaitlist.slug body = None ->
        Waitlist.slug (newWaitlistRow o body) = slugify s).
Proof.
  split; [apply slugify_shaped|]. split; [apply slugify_fixed|].
  split; [apply slugify_fixed, slugify_shaped|]. split; [apply slugify_empty|].
  intros o body <- Hn. simpl. unfold createdSlug. now rewrite Hn.
Qed.

(** ** middleware/rate-limit.ts: one request, and the sweep *)

Lemma cleanup_lookup_None (t : Z) (store : gmap string RateRecord) (k : string) :
  cleanupExpiredIfNeeded t store !! k = None ->
  store !! k = None \/ exists r, store !! k = Some r /\ resetAt r < t.
Proof.
  unfold cleanupExpiredIfNeeded. destruct (1000 <? _); [|auto].
  intros H. destruct (store !! k) as [r|] eqn:E; [|now left]. right.
  exists r. split; [reflexivity|].
  destruct (Z.lt_ge_cases (resetAt r) t) as [Hlt|Hge]; [exact Hlt|].
  assert (Hf : filter (fun kv : string * RateRecord => ¬ (resetAt kv.2 < t)) store !! k
               = Some r)
    by (apply map_lookup_filter_Some; split; [exact E | simpl; lia]).
  rewrite Hf in H. discriminate.
Qed.

(** X21. One request to a limiter, the sweep reading the clock no later than
    the middleware: the record of the key, the answer and the headers
    are what the record found in the store gives, whether or not the
    sweep ran (a window that ended before [t] is reopened with count 1,
    a live one is counted up, and the request is refused exactly when
    the count passes the maximum). The request never touches a live
    window of another key and never makes up a record for one; and
    while the store holds at most 1000 keys, no other key changes. *)
Theorem sweep_never_changes_an_answer
    (opts : RateLimitOptions) (key : string) (tSweep t : Z)
    (store : gmap string RateRecord) (Hclock : tSweep <= t) :
  let res := rateLimit opts key tSweep t store in
  let record :=
    match store !! key with
    | Some r => if resetAt r <? t then {| count := 1; resetAt := t + windowMs opts |}
                else {| count := count r + 1; resetAt := resetAt r |}
    | None => {| count := 1; resetAt := t + windowMs opts |}
    end in
  res.1.1 !! key = Some record
  /\ res.2 = (if max opts <? count record then Fail Errors.RateLimited else Ok tt)
  /\ header "X-RateLimit-Remaining" res.1.2
     = Some (Js.numToString (Z.max 0 (max opts - count record)))
  /\ header "X-RateLimit-Reset" res.1.2
     = Some (Js.numToString (ceilDiv (resetAt record) 1000))
  /\ (is_Some (header "Retry-After" res.1.2) <-> res.2 = Fail Errors.RateLimited)
  /\ (forall k r, k <> key -> res.1.1 !! k = Some r -> store !! k = Some r)
  /\ (forall k r, k <> key -> store !! k = Some r -> tSweep <= resetAt r ->
        res.1.1 !! k = Some r)
  /\ (Z.of_nat (size store) <= 1000 ->
      forall k, k <> key -> res.1.1 !! k = store !! k).
Proof.
  cbv zeta. unfold rateLimit.
  set (fresh := {| count := 1; resetAt := t + windowMs opts |}).
  assert (Hrec : match cleanupExpiredIfNeeded tSweep store !! key with
                 | Some r => if resetAt r <? t then fresh
                             else {| count := count r + 1; resetAt := resetAt r |}
                 | None => fresh
                 end
                 = match store !! key with
                   | Some r => if resetAt r <? t then fresh
                               else {| count := count r + 1; resetAt := resetAt r |}
                   | None => fresh
                   end).
  { destruct (cleanupExpiredIfNeeded tSweep store !! key) as [r|] eqn:E.
    - now rewrite (cleanup_lookup_Some _ _ _ _ E).
    - apply cleanup_lookup_None in E as [->|(r & -> & Hr)]; [reflexivity|].
      destruct (Z.ltb_spec (resetAt r) t); [reflexivity | lia]. }
  rewrite Hrec.
  set (record := match store !! key with
                 | Some r => _
                 | None => fresh
                 end).
  destruct (max opts <? count record) eqn:Emax; cbn [fst snd].
  - split; [apply lookup_insert_eq|]. split; [reflexivity|].
    split; [reflexivity|]. split; [reflexivity|].
    split; [split; [reflexivity | intros _; eexists; reflexivity]|].
    split; [|split].
    + intros k r Hk H. rewrite lookup_insert_ne in H by congruence.
      now apply cleanup_lookup_Some in H.
    + intros k r Hk H Hlive. rewrite lookup_insert_ne by congruence.
      now apply cleanup_lookup_live.
    + intros Hsize k Hk. rewrite lookup_insert_ne by congruence.
      unfold cleanupExpiredIfNeeded.
      destruct (Z.ltb_spec 1000 (Z.of_nat (size store))); [lia | reflexivity].
  - split; [apply lookup_insert_eq|]. split; [reflexivity|].
    split; [reflexivity|]. split; [reflexivity|].
    split; [split; [intros [x Hx]; discriminate | discriminate]|].
    split; [|split].
    + intros k r Hk H. rewrite lookup_insert_ne in H by congruence.
      now apply cleanup_lookup_Some in H.
    + intros k r Hk H Hlive. rewrite lookup_insert_ne by congruence.
      now apply cleanup_lookup_live.
    + intros Hsize k Hk. rewrite lookup_insert_ne by congruence.
      unfold cleanupExpiredIfNeeded.
      destruct (Z.ltb_spec 1000 (Z.of_nat (size store))); [lia | reflexivity].
Qed.

Lemma sweep_never_changes_an_answer_witness :
  (rateLimit signupOptions "signup:203.0.113.7" 5000 5000
     {[ "signup:203.0.113.7" := {| count := 10; resetAt := 9000 |} ]}).2
  = Fail Errors.RateLimited.
Proof.
  destruct (sweep_never_changes_an_answer signupOptions "signup:203.0.113.7" 5000 5000
              {[ "signup:203.0.113.7" := {| count := 10; resetAt := 9000 |} ]})
    as (_ & H & _); [lia|].
  rewrite H. rewrite lookup_singleton_eq. reflexivity.
Defined.

(** ** lib/utils.ts: normalizeEmail, and the emails of the table *)

Lemma trimStart_append (x y : string) :
  Js.trimStart (x +:+ y)
  = match Js.trimStart x with
    | EmptyString => Js.trimStart y
    | String _ _ => Js.trimStart x +:+ y
    end.
Proof.
  induction x as [|c x IH]; [reflexivity|].
  rewrite append_cons. simpl. destruct (Js.isSpace c); [exact IH | reflexivity].
Qed.

Lemma trimEnd_cons (c : ascii) (r : string) :
  Js.trimEnd (String c r)
  = match Js.trimEnd r with
    | EmptyString => if Js.isSpace c then EmptyString else String c EmptyString
    | String _ _ => String c (Js.trimEnd r)
    end.
Proof.
  unfold Js.trimEnd. rewrite rev_cons, trimStart_append.
  destruct (Js.trimStart (String.rev r)) as [|d z] eqn:E.
  - simpl. now destruct (Js.isSpace c).
  - rewrite rev_snoc. destruct (String.rev (String d z)) eqn:E2; [|reflexivity].
    apply (f_equal String.rev) in E2. rewrite rev_rev in E2. discriminate.
Qed.

Lemma trimStart_head (x : string) :
  match Js.trimStart x with
  | String c _ => Js.isSpace c = false
  | EmptyString => True
  end.
Proof.
  induction x as [|c x IH]; [exact I|]. simpl.
  destruct (Js.isSpace c) eqn:E; [exact IH | exact E].
Qed.

Lemma trimStart_idem (x : string) : Js.trimStart (Js.trimStart x) = Js.trimStart x.
Proof.
  pose proof (trimStart_head x) as H. destruct (Js.trimStart x) as [|c r]; [reflexivity|].
  simpl. now rewrite H.
Qed.

Lemma trim_idem (x : string) : Js.trim (Js.trim x) = Js.trim x.
Proof.
  unfold Js.trim.
  assert (Hs : Js.trimStart (Js.trimEnd (Js.trimStart x)) = Js.trimEnd (Js.trimStart x)).
  { pose proof (trimStart_head x) as H.
    destruct (Js.trimStart x) as [|c r]; [reflexivity|].
    rewrite trimEnd_cons. destruct (Js.trimEnd r).
    - rewrite H. simpl. now rewrite H.
    - simpl. now rewrite H. }
  rewrite Hs. unfold Js.trimEnd. now rewrite rev_rev, trimStart_idem.
Qed.

Lemma lowerChar_idem (c : ascii) : Js.lowerChar (Js.lowerChar c) = Js.lowerChar c.
Proof. by_cases_on_char c. Qed.

Lemma lowerChar_space (c : ascii) : Js.isSpace (Js.lowerChar c) = Js.isSpace c.
Proof. by_cases_on_char c. Qed.

Lemma toLowerCase_append (a b : string) :
  Js.toLowerCase (a +:+ b) = Js.toLowerCase a +:+ Js.toLowerCase b.
Proof.
  induction a as [|c a IH]; [reflexivity|].
  rewrite append_cons. simpl. now rewrite IH.
Qed.

Lemma toLowerCase_rev (s : string) :
  Js.toLowerCase (String.rev s) = String.rev (Js.toLowerCase s).
Proof.
  induction s as [|c s IH]; [reflexivity|].
  simpl. rewrite !rev_cons, toLowerCase_append, IH. reflexivity.
Qed.

Lemma toLowerCase_trimStart (s : string) :
  Js.toLowerCase (Js.trimStart s) = Js.trimStart (Js.toLowerCase s).
Proof.
  induction s as [|c s IH]; [reflexivity|]. simpl. rewrite lowerChar_space.
  destruct (Js.isSpace c); [exact IH | reflexivity].
Qed.

Lemma toLowerCase_trim (s : string) :
  Js.toLowerCase (Js.trim s) = Js.trim (Js.toLowerCase s).
Proof.
  unfold Js.trim, Js.trimEnd.
  now rewrite toLowerCase_rev, toLowerCase_trimStart, toLowerCase_rev,
              toLowerCase_trimStart.
Qed.

Lemma toLowerCase_idem (s : string) :
  Js.toLowerCase (Js.toLowerCase s) = Js.toLowerCase s.
Proof.
  induction s as [|c s IH]; [reflexivity|]. simpl. now rewrite lowerChar_idem, IH.
Qed.

Lemma normalizeEmail_idem (e : string) :
  normalizeEmail (normalizeEmail e) = normalizeEmail e.
Proof.
  unfold normalizeEmail. now rewrite toLowerCase_trim, toLowerCase_idem, trim_idem.
Qed.

Lemma signup_db_email (env : Env) (o : Oracle) (db : Db) (req : Req.t) :
  List.map Signup.email (signups (dbOf (signup env o db req)))
  = List.map Signup.email (signups db)
  \/ (isValidEmail (normalizeEmail (Req.email (Req.json req))) = true
      /\ List.map Signup.email (signups (dbOf (signup env o db req)))
         = List.map Signup.email (signups db)
           ++ [normalizeEmail (Req.email (Req.json req))]).
Proof.
  unfold signup.
  destruct (findWaitlistBySlug db (Req.slug req)) as [w|]; [|now left].
  destruct (isValidEmail _) eqn:Hv; [|now left]. simpl.
  destruct (validateCustomFields _ _) as [cd|e|m]; [|now left|now left].
  destruct (findSignupByEmail db (Waitlist.id w) _) as [existing|] eqn:Hf.
  - left. destruct (signupExisting_db env o db w existing) as [->|[_ ->]];
      [reflexivity|].
    unfold updateSignup. simpl. rewrite List.map_map. apply List.map_ext.
    intros s. now destruct (bool_decide _).
  - pose proof (signupNew_db env o db w req
                  (normalizeEmail (Req.email (Req.json req))) cd) as H.
    simpl in H. destruct (insertSignup db _) as [db'|] eqn:Hi; rewrite H;
      [|now left].
    apply insertSignup_Some in Hi as [-> _]. right. split; [reflexivity|].
    simpl. now rewrite List.map_app.
Qed.

Lemma map_identity_emails (l l' : list Signup.t) :
  List.map identity l = List.map identity l' ->
  List.map Signup.email l = List.map Signup.email l'.
Proof.
  revert l'. induction l as [|a l IH]; intros [|b l']; simpl; try discriminate; auto.
  intros [= H1 H2 H3 H4 H5 H]. now rewrite H3, (IH l' H).
Qed.

(** X22. Normalising an email twice is normalising it once; and the emails
    of the table stay valid and normalised: the signup stores the
    normalised email it has checked, and neither it nor the confirmation
    or the admin patch rewrites the email of a row. So the lookup by
    normalised email, which decides whether an address is already on a
    waitlist, compares like with like. *)
Theorem stored_emails_valid_and_normalized (env : Env) (o : Oracle) (db : Db)
    (H : emailsClean db) :
  (forall e, normalizeEmail (normalizeEmail e) = normalizeEmail e)
  /\ emailsClean {| waitlists := waitlists db; signups := [] |}
  /\ (forall req, emailsClean (dbOf (signup env o db req)))
  /\ (forall slug token, emailsClean (dbOf (confirm env o db slug token)))
  /\ (forall id signupId body, emailsClean (fst (patchSignup o db id signupId body))).
Proof.
  split; [apply normalizeEmail_idem|]. split; [constructor|].
  split; [|split].
  - intros req. unfold emailsClean.
    destruct (signup_db_email env o db req) as [->|[Hv ->]]; [exact H|].
    apply Forall_app. split; [exact H|]. constructor; [|constructor].
    split; [exact Hv | apply normalizeEmail_idem].
  - intros slug token. unfold emailsClean.
    now rewrite (map_identity_emails _ _ (confirm_identity env o db slug token)).
  - intros id signupId body. unfold emailsClean.
    now rewrite (map_identity_emails _ _ (patchSignup_identity o db id signupId body)).
Qed.

Lemma stored_emails_valid_and_normalized_witness :
  emailsClean
    (dbOf (signup Sample.env (Sample.oracle 5000 "s9" "tok-z") Sample.db
             (Sample.request "beta" "New@Example.COM" None))).
Proof.
  apply (stored_emails_valid_and_normalized Sample.env (Sample.oracle 5000 "s9" "tok-z")
           Sample.db).
  repeat constructor.
Defined.

(** ** middleware/auth.ts *)

(** X23. The gates of an admin route, in their order. In demo mode a writing
    method is answered 403 DEMO_MODE, signed in or not. Otherwise, with
    Cloudflare Access not configured every request reaches the handler;
    with it configured, a request without a token, or whose token does
    not verify, is answered 401 UNAUTHORIZED. The handler runs, and so
    the database can change, only past both gates. *)
Theorem admin_route_gates
    (jwtVerify : string -> string -> string -> option AccessUser.t) {A : Type}
    (e : AppEnv) (a : Access) (req : AdminReq.t)
    (handler : Db -> Db * Outcome A) (db : Db) :
  (isDemoMode e = true -> isWriteMethod (AdminReq.method req) = true ->
   adminRoute jwtVerify e a req handler db = (db, Fail demoModeError))
  /\ (isDemoMode e && isWriteMethod (AdminReq.method req) = false ->
      (accessConfigured a = false ->
       adminRoute jwtVerify e a req handler db = handler db)
      /\ (accessConfigured a = true ->
          (Js.truthy (accessToken req) = false ->
           adminRoute jwtVerify e a req handler db = (db, Fail Unauthorized))
          /\ (forall tok,
                accessToken req = Some tok ->
                jwtVerify tok (default EmptyString (CF_ACCESS_TEAM_DOMAIN a))
                          (default EmptyString (CF_ACCESS_AUD a)) = None ->
                adminRoute jwtVerify e a req handler db = (db, Fail Unauthorized))
          /\ (forall tok user,
                accessToken req = Some tok -> tok <> EmptyString ->
                jwtVerify tok (default EmptyString (CF_ACCESS_TEAM_DOMAIN a))
                          (default EmptyString (CF_ACCESS_AUD a)) = Some user ->
                adminRoute jwtVerify e a req handler db = handler db)))
  /\ (fst (adminRoute jwtVerify e a req handler db) <> db ->
      isDemoMode e && isWriteMethod (AdminReq.method req) = false
      /\ (accessConfigured a = false
          \/ exists tok user,
               accessToken req = Some tok /\ tok <> EmptyString
               /\ jwtVerify tok (default EmptyString (CF_ACCESS_TEAM_DOMAIN a))
                            (default EmptyString (CF_ACCESS_AUD a)) = Some user)
      /\ adminRoute jwtVerify e a req handler db = handler db).
Proof.
  unfold adminRoute, demoModeGuard, requireAuth, accessConfigured.
  split; [intros -> ->; reflexivity|].
  destruct (isDemoMode e && isWriteMethod (AdminReq.method req)) eqn:Eg.
  { split; [discriminate|]. simpl. intros H. now elim H. }
  split.
  - intros _. split.
    + intros Hc. rewrite <- negb_andb, Hc. reflexivity.
    + intros Hc. rewrite <- negb_andb, Hc. cbn [negb]. split; [|split].
      * intros Ht. now rewrite Ht.
      * intros tok Ht Hv. rewrite Ht.
        change (default EmptyString (Some tok)) with tok.
        rewrite Hv. now destruct (negb _).
      * intros tok user Ht Hne Hv. rewrite Ht.
        change (default EmptyString (Some tok)) with tok. cbn [Js.truthy].
        rewrite Hv. now rewrite (proj2 (String.eqb_neq _ _) Hne).
  - rewrite <- negb_andb.
    destruct (Js.truthy (CF_ACCESS_TEAM_DOMAIN a) && Js.truthy (CF_ACCESS_AUD a));
      cbn [negb]; [|intros _; split; [reflexivity|]; split; [now left | reflexivity]].
    destruct (accessToken req) as [tok|] eqn:Ht; cbn [Js.truthy];
      [|simpl; intros H; now elim H].
    change (default EmptyString (Some tok)) with tok.
    destruct (String.eqb_spec tok EmptyString) as [->|Hne]; cbn [negb];
      [simpl; intros H; now elim H|].
    destruct (jwtVerify tok _ _) as [user|] eqn:Hv; [|simpl; intros H; now elim H].
    intros _. split; [reflexivity|]. split; [|reflexivity].
    right. exists tok, user. auto.
Qed.

Lemma splitOn_free (sep : ascii) (x : string) :
  URL.all (fun c => negb (Ascii.eqb c sep)) x = true -> splitOn sep x = [x].
Proof.
  induction x as [|c x IH]; [reflexivity|]. simpl. intros H.
  apply andb_prop in H as [Hc H]. apply negb_true_iff in Hc.
  now rewrite Hc, IH.
Qed.

Lemma splitOn_app_sep (sep : ascii) (x y : string) :
  URL.all (fun c => negb (Ascii.eqb c sep)) x = true ->
  splitOn sep (x +:+ String sep y) = x :: splitOn sep y.
Proof.
  induction x as [|c x IH]; intros H; simpl in H.
  - change (EmptyString +:+ String sep y) with (String sep y). simpl.
    now rewrite Ascii.eqb_refl.
  - apply andb_prop in H as [Hc H]. apply negb_true_iff in Hc.
    rewrite append_cons. simpl. now rewrite Hc, IH.
Qed.

Lemma trim_spacefree (s : string) :
  URL.all (fun c => negb (Js.isSpace c)) s = true -> Js.trim s = s.
Proof.
  intros Hs. unfold Js.trim, Js.trimEnd. rewrite (trimStart_fixed s Hs).
  rewrite trimStart_fixed by now rewrite all_rev. apply rev_rev.
Qed.

Lemma cookieText_parts (s : string) :
  cookieText s = true ->
  URL.all (fun c => negb (Js.isSpace c)) s = true
  /\ URL.all (fun c => negb (Ascii.eqb c ";")) s = true
  /\ URL.all (fun c => negb (Ascii.eqb c "=")) s = true.
Proof.
  intros H. repeat split; (eapply all_impl; [|exact H]); intros c Hc; cbv beta in Hc;
    apply andb_prop in Hc as [Hc H3]; apply andb_prop in Hc as [H1 H2]; assumption.
Qed.

Lemma cookie_pair_parts (k v : string) :
  cookieText k = true -> cookieText v = true ->
  URL.all (fun c => negb (Js.isSpace c)) (k +:+ "=" +:+ v) = true
  /\ URL.all (fun c => negb (Ascii.eqb c ";")) (k +:+ "=" +:+ v) = true
  /\ splitOn "=" (k +:+ "=" +:+ v) = [k; v].
Proof.
  intros Hk Hv. apply cookieText_parts in Hk as (K1 & K2 & K3).
  apply cookieText_parts in Hv as (V1 & V2 & V3).
  rewrite !all_append, K1, K2, V1, V2. repeat split.
  change ("=" +:+ v) with (String "=" v).
  now rewrite splitOn_app_sep, splitOn_free.
Qed.

Lemma splitOn_join (items : list string) :
  Forall (fun x => URL.all (fun c => negb (Ascii.eqb c ";")) x = true) items ->
  splitOn ";" (Js.join "; " items)
  = match items with
    | [] => [EmptyString]
    | x :: r => x :: List.map (String " ") r
    end.
Proof.
  induction 1 as [|x r Hx Hr IH]; [reflexivity|].
  destruct r as [|y r'].
  - simpl. now apply splitOn_free.
  - change (Js.join "; " (x :: y :: r'))
      with (x +:+ String ";" (String " " (Js.join "; " (y :: r')))).
    rewrite splitOn_app_sep by exact Hx.
    change (splitOn ";" (String " " (Js.join "; " (y :: r'))))
      with (match splitOn ";" (Js.join "; " (y :: r')) with
            | h :: t => String " " h :: t
            | [] => [String " " EmptyString]
            end).
    now rewrite IH.
Qed.

(** X24. Reading a cookie back from a Cookie header as a browser writes it,
    names and values free of white space, semicolons and equals signs:
    [getCookie] gives the value of the first pair with that name, and
    nothing when there is none. *)
Theorem cookie_header_lookup (pairs : list (string * string)) (name : string)
    (H : Forall (fun kv => cookieText kv.1 = true /\ cookieText kv.2 = true) pairs) :
  getCookie (Some (cookieHeaderOf pairs)) name = firstValue name pairs.
Proof.
  unfold getCookie, cookieHeaderOf. destruct pairs as [|[k v] rest]; [reflexivity|].
  set (items := List.map (fun kv => kv.1 +:+ "=" +:+ kv.2) ((k, v) :: rest)).
  assert (Hitems : Forall (fun x => URL.all (fun c => negb (Js.isSpace c)) x = true
                                    /\ URL.all (fun c => negb (Ascii.eqb c ";")) x = true)
                          items).
  { subst items. apply Forall_forall. intros x Hx.
    apply list_elem_of_fmap in Hx as ([k' v'] & -> & Hin).
    rewrite Forall_forall in H. destruct (H _ Hin) as [Hk Hv].
    destruct (cookie_pair_parts k' v' Hk Hv) as (H1 & H2 & _). now split. }
  assert (Htruthy : Js.truthy (Some (Js.join "; " items)) = true).
  { subst items. simpl. destruct rest; simpl.
    - destruct k; reflexivity.
    - destruct k; reflexivity. }
  rewrite Htruthy. cbn [negb].
  change (default EmptyString (Some (Js.join "; " items))) with (Js.join "; " items).
  rewrite splitOn_join by (eapply Forall_impl; [exact Hitems | now intros x [_ Hx]]).
  assert (Htrim : List.map Js.trim
                    (match items with
                     | [] => [EmptyString]
                     | x :: r => x :: List.map (String " ") r
                     end) = items).
  { destruct items as [|x r]; [discriminate|].
    apply Forall_cons in Hitems as [[Hx _] Hr]. simpl.
    rewrite (trim_spacefree x Hx). f_equal.
    rewrite List.map_map. rewrite <- (List.map_id r) at 2.
    apply List.map_ext_in. intros y Hy.
    rewrite Forall_forall in Hr. apply list_elem_of_In in Hy.
    destruct (Hr y Hy) as [Hs _].
    unfold Js.trim. simpl. exact (trim_spacefree y Hs). }
  rewrite Htrim. subst items. clear Htruthy Htrim Hitems.
  induction H as [|[k' v'] rest' [Hk Hv] _ IH]; [reflexivity|].
  simpl in Hk, Hv. cbn [List.map findCookie firstValue fst snd].
  destruct (cookie_pair_parts k' v' Hk Hv) as (_ & _ & ->).
  destruct (String.eqb k' name); [reflexivity | exact IH].
Qed.

Lemma cookie_header_lookup_witness :
  getCookie (Some "theme=dark; CF_Authorization=abc.def.ghi; lang=en") "CF_Authorization"
  = Some "abc.def.ghi".
Proof.
  apply (cookie_header_lookup
           [("theme", "dark"); ("CF_Authorization", "abc.def.ghi"); ("lang", "en")]
           "CF_Authorization").
  repeat constructor.
Defined.

(** ** GET /stats: the counts of the overview *)

Lemma inWindow_inPeriod (f t : Z) (s : Signup.t) :
  inWindow f t s = inPeriod (Signup.waitlistId s) f t s.
Proof. unfold inWindow, inPeriod. now rewrite bool_decide_eq_true_2. Qed.

Lemma inPeriod_inWindow (id : string) (f t : Z) (s : Signup.t) :
  inPeriod id f t s = bool_decide (Signup.waitlistId s = id) && inWindow f t s.
Proof. unfold inWindow, inPeriod. now rewrite andb_assoc. Qed.

Lemma inWindow_as_days (fromDay toDay : Z) (s : Signup.t) :
  inWindow (fromDay * 86400) ((toDay * 86400000 + 86399999) / 1000) s
  = (fromDay <=? dayOf s) && (dayOf s <=? toDay).
Proof.
  rewrite inWindow_inPeriod, inPeriod_as_days. now rewrite bool_decide_eq_true_2.
Qed.

Lemma dailyEntry_of_rows (rows : list Signup.t) (d : Z) :
  dailyEntry
    (dateMapOf
       (List.map (fun y =>
          {| Daily.date := y;
             Daily.count := countWhere (fun s => dayOf s =? y) rows;
             Daily.confirmed :=
               countWhere (fun s => (dayOf s =? y)
                                    && isConfirmedOrInvited (Signup.status s)) rows |})
          (distinctDays rows))) d
  = {| Daily.date := d;
       Daily.count := countWhere (fun s => dayOf s =? d) rows;
       Daily.confirmed :=
         countWhere (fun s => (dayOf s =? d)
                              && isConfirmedOrInvited (Signup.status s)) rows |}.
Proof.
  unfold dailyEntry, dateMapOf.
  rewrite (dateMapOf_lookup
             (fun y => countWhere (fun s => dayOf s =? y) rows)
             (fun y => countWhere (fun s => (dayOf s =? y)
                                            && isConfirmedOrInvited (Signup.status s)) rows)).
  rewrite lookup_empty.
  destruct (decide (d ∈ distinctDays rows)) as [Hin|Hnin]; simpl; [reflexivity|].
  assert (Hno : forall s, s ∈ rows -> (dayOf s =? d) = false).
  { intros s Hs. apply Z.eqb_neq. intros E. apply Hnin.
    apply elem_of_distinctDays. eauto. }
  f_equal; symmetry; apply countWhere_none; intros s Hs; now rewrite (Hno s Hs).
Qed.

Lemma countWhere_all (rows : list Signup.t) :
  countWhere (fun _ => true) rows = Z.of_nat (List.length rows).
Proof.
  unfold countWhere. induction rows as [|s l IH]; [reflexivity|]. simpl. lia.
Qed.

Lemma countWhere_le_length (p : Signup.t -> bool) (rows : list Signup.t) :
  countWhere p rows <= Z.of_nat (List.length rows).
Proof.
  unfold countWhere. pose proof (List.filter_length_le p rows). lia.
Qed.

Lemma sum_by_waitlist (q : Signup.t -> bool) (ws : list Waitlist.t)
    (rows : list Signup.t) :
  NoDup (List.map Waitlist.id ws) ->
  (forall s, s ∈ rows -> exists w, w ∈ ws /\ Waitlist.id w = Signup.waitlistId s) ->
  sumZ (List.map (fun w => countWhere
                    (fun s => bool_decide (Signup.waitlistId s = Waitlist.id w) && q s)
                    rows) ws)
  = countWhere q rows.
Proof.
  intros Hid. induction rows as [|s l IH]; intros Hfk.
  - unfold countWhere. simpl. clear. induction ws; simpl; lia.
  - erewrite List.map_ext.
    2:{ intros w. rewrite countWhere_cons.
        instantiate (1 := fun w =>
          (if bool_decide (Signup.waitlistId s = Waitlist.id w)
           then (if q s then 1 else 0) else 0)
          + countWhere (fun s0 => bool_decide (Signup.waitlistId s0 = Waitlist.id w)
                                  && q s0) l).
        cbv beta. now destruct (bool_decide _), (q s). }
    rewrite sumZ_map_add, IH, countWhere_cons.
    + f_equal. destruct (q s).
      * apply (sum_indicator_one Waitlist.id); [exact Hid|].
        destruct (Hfk s) as (w & Hw & E); [apply elem_of_cons; now left|].
        rewrite <- E. now apply list_elem_of_fmap_2.
      * clear. induction ws as [|w ws IH]; [reflexivity|]. simpl.
        rewrite IH. now destruct (bool_decide _).
    + intros s0 Hs0. apply Hfk. apply elem_of_cons. now right.
Qed.

(** X25. The counts of the overview: the number of waitlists; the signups
    created on the days from..to, of which the confirmed count is a
    part; a daily series with one entry per day of the range whose two
    columns add up to the two counts; the previous counts zero unless
    [compare=true]; and the current and the previous totals together
    within the all-time total, which is the number of rows of the
    signups table. *)
Theorem overview_counts_add_up (db : Db) (fromDay toDay : Z) (compare : option string) :
  Overview.waitlists (globalStats db fromDay toDay compare)
  = Z.of_nat (List.length (waitlists db))
  /\ Totals.total (Overview.current (globalStats db fromDay toDay compare))
     = countWhere (fun s => (fromDay <=? dayOf s) && (dayOf s <=? toDay)) (signups db)
  /\ 0 <= Totals.confirmed (Overview.current (globalStats db fromDay toDay compare))
       <= Totals.total (Overview.current (globalStats db fromDay toDay compare))
  /\ List.map Daily.date (Overview.dailySignups (globalStats db fromDay toDay compare))
     = daysBetween fromDay toDay
  /\ sumZ (List.map Daily.count
             (Overview.dailySignups (globalStats db fromDay toDay compare)))
     = Totals.total (Overview.current (globalStats db fromDay toDay compare))
  /\ sumZ (List.map Daily.confirmed
             (Overview.dailySignups (globalStats db fromDay toDay compare)))
     = Totals.confirmed (Overview.current (globalStats db fromDay toDay compare))
  /\ Totals.total (Overview.allTime (globalStats db fromDay toDay compare))
     = Z.of_nat (List.length (signups db))
  /\ (compare <> Some "true" ->
      Overview.previous (globalStats db fromDay toDay compare) = Totals.zero)
  /\ Totals.total (Overview.current (globalStats db fromDay toDay compare))
     + Totals.total (Overview.previous (globalStats db fromDay toDay compare))
     <= Totals.total (Overview.allTime (globalStats db fromDay toDay compare)).
Proof.
  unfold globalStats.
  cbn [Overview.waitlists Overview.current Overview.previous Overview.allTime
       Overview.dailySignups].
  set (toTs := (toDay * 86400000 + 86399999) / 1000).
  set (rows := List.filter (inWindow (fromDay * 86400) toTs) (signups db)).
  assert (Hrows : forall p, countWhere p rows
                  = countWhere (fun s => (fromDay <=? dayOf s) && (dayOf s <=? toDay)
                                         && p s) (signups db)).
  { intros p. subst rows. rewrite countWhere_filter. apply countWhere_ext.
    intros s. subst toTs. now rewrite inWindow_as_days. }
  assert (Hdays : fillDailySignups
                    (dateMapOf (dailySignupsAll db (fromDay * 86400) toTs)) fromDay toDay
                  = List.map (fun d =>
                      {| Daily.date := d;
                         Daily.count := countWhere (fun s => dayOf s =? d) rows;
                         Daily.confirmed :=
                           countWhere (fun s => (dayOf s =? d)
                                        && isConfirmedOrInvited (Signup.status s)) rows |})
                      (daysBetween fromDay toDay)).
  { rewrite (fillDailySignups_days _ _ fromDay toDay eq_refl).
    apply List.map_ext. intros d. apply dailyEntry_of_rows. }
  rewrite Hdays, !List.map_map. cbn [Daily.date Daily.count Daily.confirmed totalsQuery
                                      Totals.total Totals.confirmed].
  split; [reflexivity|]. split; [|split; [|split; [|split; [|split; [|split; [|split]]]]]].
  - rewrite <- (countWhere_all rows), Hrows. apply countWhere_ext.
    intros s. now rewrite andb_true_r.
  - pose proof (countWhere_nonneg (fun s => isConfirmedOrInvited (Signup.status s)) rows).
    pose proof (List.filter_length_le
                  (fun s => isConfirmedOrInvited (Signup.status s)) rows).
    unfold countWhere in *. lia.
  - apply List.map_id.
  - erewrite List.map_ext.
    2:{ intros d. rewrite Hrows.
        instantiate (1 := fun d => countWhere
          (fun s => ((fromDay <=? dayOf s) && (dayOf s <=? toDay)) && (dayOf s =? d))
          (signups db)). reflexivity. }
    rewrite (sum_over_days _ (signups db) _ fromDay toDay eq_refl).
    rewrite <- (countWhere_all rows), Hrows. apply countWhere_ext. intros s.
    destruct (fromDay <=? dayOf s), (dayOf s <=? toDay); reflexivity.
  - erewrite List.map_ext.
    2:{ intros d. rewrite Hrows.
        instantiate (1 := fun d => countWhere
          (fun s => ((fromDay <=? dayOf s) && (dayOf s <=? toDay)
                     && isConfirmedOrInvited (Signup.status s)) && (dayOf s =? d))
          (signups db)).
        apply countWhere_ext. intros s.
        destruct (fromDay <=? dayOf s), (dayOf s <=? toDay), (dayOf s =? d),
                 (isConfirmedOrInvited (Signup.status s)); reflexivity. }
    rewrite (sum_over_days _ (signups db) _ fromDay toDay eq_refl).
    rewrite Hrows. apply countWhere_ext. intros s.
    destruct (fromDay <=? dayOf s), (dayOf s <=? toDay),
             (isConfirmedOrInvited (Signup.status s)); reflexivity.
  - reflexivity.
  - intros Hc. now rewrite bool_decide_eq_false_2.
  - match goal with
    | |- _ + Totals.total ?p <= _ =>
        assert (Hprev : Totals.total p
                        <= countWhere (inWindow (fromDay * 86400 - (toTs - fromDay * 86400))
                                                (fromDay * 86400 - 1)) (signups db))
    end.
    { destruct (bool_decide _); [cbn; unfold countWhere; lia | apply countWhere_nonneg]. }
    etransitivity; [apply Z.add_le_mono_l; exact Hprev|].
    subst rows. rewrite countWhere_length_filter, <- countWhere_split.
    + apply countWhere_le_length.
    + intros s. unfold inWindow.
      destruct (Z.leb_spec (fromDay * 86400) (createdAtColumn s)),
               (Z.leb_spec (createdAtColumn s) (fromDay * 86400 - 1));
        try reflexivity; try lia.
      all: now rewrite ?andb_false_r.
Qed.

(** X26. Where waitlist ids are unique and every signup belongs to a
    waitlist, the overview agrees with the stats of the single
    waitlists: its total of the window is the sum of theirs, and so is
    the sum of the signup counts of the window over all waitlists. *)
Theorem overview_is_the_sum_of_the_waitlists
    (db : Db) (fromDay toDay : Z) (compare : option string)
    (Hid : uniqueWaitlistIds db) (Hfk : noOrphans db) :
  Totals.total (Overview.current (globalStats db fromDay toDay compare))
  = sumZ (List.map (currentTotalOf db fromDay toDay compare) (waitlists db))
  /\ Totals.total (Overview.current (globalStats db fromDay toDay compare))
     = sumZ (List.map (fun w =>
               Listed.signupCount
                 (windowEntry db (fromDay * 86400)
                    ((toDay * 86400000 + 86399999) / 1000) w))
               (waitlists db))
  /\ Totals.confirmed (Overview.current (globalStats db fromDay toDay compare))
     = sumZ (List.map (fun w =>
               Listed.confirmedCount
                 (windowEntry db (fromDay * 86400)
                    ((toDay * 86400000 + 86399999) / 1000) w))
               (waitlists db)).
Proof.
  unfold globalStats. cbn [Overview.current totalsQuery Totals.total Totals.confirmed].
  set (toTs := (toDay * 86400000 + 86399999) / 1000).
  assert (Hsum : Z.of_nat (List.length (List.filter (inWindow (fromDay * 86400) toTs)
                                                    (signups db)))
                 = sumZ (List.map (fun w =>
                     countWhere (fun s => bool_decide (Signup.waitlistId s = Waitlist.id w)
                                          && inWindow (fromDay * 86400) toTs s)
                                (signups db)) (waitlists db))).
  { rewrite countWhere_length_filter. symmetry.
    now apply (sum_by_waitlist (inWindow (fromDay * 86400) toTs)). }
  split; [|split].
  - rewrite Hsum. f_equal. apply List.map_ext_in. intros w Hw.
    apply list_elem_of_In in Hw.
    unfold currentTotalOf, waitlistStats.
    destruct (findWaitlistById db (Waitlist.id w)) as [w'|] eqn:E.
    + cbn [Stats.current]. rewrite tally_statusCounts. cbn [Counts.total].
      rewrite countWhere_length_filter. apply countWhere_ext. intros s.
      symmetry. apply inPeriod_inWindow.
    + exfalso. pose proof (find_None_all _ _ E w Hw) as H. simpl in H.
      now rewrite bool_decide_eq_true_2 in H.
  - exact Hsum.
  - rewrite countWhere_filter.
    rewrite <- (sum_by_waitlist
                  (fun s => inWindow (fromDay * 86400) toTs s
                            && isConfirmedOrInvited (Signup.status s))
                  (waitlists db) (signups db) Hid Hfk).
    f_equal. apply List.map_ext. intros w. unfold windowEntry.
    cbn [Listed.confirmedCount].
    apply countWhere_ext. intros s. now rewrite andb_assoc.
Qed.

Lemma overview_is_the_sum_of_the_waitlists_witness :
  Totals.total (Overview.current (globalStats Sample.db 0 10 None))
  = sumZ (List.map (currentTotalOf Sample.db 0 10 None) (waitlists Sample.db)).
Proof.
  destruct sample_constraints as (Hid & _ & Hfk).
  exact (proj1 (overview_is_the_sum_of_the_waitlists Sample.db 0 10 None Hid Hfk)).
Defined.

Lemma insertByCountDesc_perm (e : Listed.t) (l : list Listed.t) :
  Permutation (insertByCountDesc e l) (e :: l).
Proof.
  induction l as [|x l IH]; simpl; [reflexivity|].
  destruct (Listed.signupCount x <? Listed.signupCount e); [reflexivity|].
  rewrite IH. apply perm_swap.
Qed.

Lemma byCountDesc_perm (l : list Listed.t) :
  Permutation (List.fold_right insertByCountDesc [] l) l.
Proof.
  induction l as [|x l IH]; simpl; [reflexivity|].
  rewrite insertByCountDesc_perm. now constructor.
Qed.

Lemma insertByCountDesc_sorted (e : Listed.t) (l : list Listed.t) :
  Sorted (fun a b => Listed.signupCount b <= Listed.signupCount a) l ->
  Sorted (fun a b => Listed.signupCount b <= Listed.signupCount a)
         (insertByCountDesc e l).
Proof.
  induction l as [|x l IH]; simpl; intros Hs.
  - repeat constructor.
  - destruct (Z.ltb_spec (Listed.signupCount x) (Listed.signupCount e)).
    + constructor; [exact Hs|]. constructor. lia.
    + apply Sorted_inv in Hs as [Hs Hhd]. constructor; [now apply IH|].
      destruct l as [|y l]; simpl.
      * constructor. lia.
      * destruct (Listed.signupCount y <? Listed.signupCount e); constructor;
          [lia|]. now apply HdRel_inv in Hhd.
Qed.

Lemma byCountDesc_sorted (l : list Listed.t) :
  StronglySorted (fun a b => Listed.signupCount b <= Listed.signupCount a)
                 (List.fold_right insertByCountDesc [] l).
Proof.
  apply Sorted_StronglySorted; [intros a b c; lia|].
  induction l as [|x l IH]; simpl; [constructor|].
  now apply insertByCountDesc_sorted.
Qed.

Lemma StronglySorted_app_order {A} (R : A -> A -> Prop) (l1 l2 : list A) :
  StronglySorted R (l1 ++ l2) ->
  StronglySorted R l1 /\ forall a b, a ∈ l1 -> b ∈ l2 -> R a b.
Proof.
  induction l1 as [|x l1 IH]; simpl; intros H.
  - split; [constructor|]. intros a b Ha. now apply elem_of_nil in Ha.
  - apply StronglySorted_inv in H as [H Hx]. destruct (IH H) as [IH1 IH2].
    split.
    + constructor; [exact IH1|]. rewrite List.Forall_forall in *.
      intros y Hy. apply Hx. apply List.in_or_app. now left.
    + intros a b Ha Hb. apply elem_of_cons in Ha as [->|Ha]; [|now apply IH2].
      rewrite List.Forall_forall in Hx. apply Hx. apply List.in_or_app. right.
      now apply list_elem_of_In.
Qed.

(** X27. The top waitlists of the overview: at most five, each a waitlist of
    the table with its signups of the window and the confirmed ones
    among them, the counts falling along the list; all the waitlists
    when there are no more than five; and no waitlist left out has more
    signups in the window than one that is listed. *)
Theorem top_waitlists_are_the_top (db : Db) (fromTimestamp toTimestamp : Z) :
  (List.length (topWaitlists db fromTimestamp toTimestamp) <= 5)%nat
  /\ List.length (topWaitlists db fromTimestamp toTimestamp)
     = Nat.min 5 (List.length (waitlists db))
  /\ StronglySorted (fun a b => Listed.signupCount b <= Listed.signupCount a)
                    (topWaitlists db fromTimestamp toTimestamp)
  /\ (forall e, e ∈ topWaitlists db fromTimestamp toTimestamp ->
        exists w, w ∈ waitlists db /\ e = windowEntry db fromTimestamp toTimestamp w
                  /\ 0 <= Listed.confirmedCount e <= Listed.signupCount e)
  /\ ((List.length (waitlists db) <= 5)%nat ->
      Permutation (topWaitlists db fromTimestamp toTimestamp)
                  (List.map (windowEntry db fromTimestamp toTimestamp) (waitlists db)))
  /\ (forall w e,
        w ∈ waitlists db ->
        windowEntry db fromTimestamp toTimestamp w
          ∉ topWaitlists db fromTimestamp toTimestamp ->
        e ∈ topWaitlists db fromTimestamp toTimestamp ->
        Listed.signupCount (windowEntry db fromTimestamp toTimestamp w)
        <= Listed.signupCount e).
Proof.
  unfold topWaitlists.
  set (all := List.map (windowEntry db fromTimestamp toTimestamp) (waitlists db)).
  set (sorted := List.fold_right insertByCountDesc [] all).
  pose proof (byCountDesc_perm all) as Hperm. fold sorted in Hperm.
  pose proof (byCountDesc_sorted all) as Hss. fold sorted in Hss.
  rewrite <- (List.firstn_skipn 5 sorted) in Hss.
  apply StronglySorted_app_order in Hss as [Htop Hord].
  assert (Hlen : List.length sorted = List.length (waitlists db)).
  { rewrite (Permutation_length Hperm). subst all. apply List.length_map. }
  split; [apply List.firstn_le_length|].
  split; [now rewrite List.length_firstn, Hlen|].
  split; [exact Htop|]. split; [|split].
  - intros e He.
    assert (Hin : e ∈ all).
    { rewrite <- Hperm. rewrite <- (List.firstn_skipn 5 sorted).
      apply elem_of_app. now left. }
    subst all. apply list_elem_of_fmap in Hin as (w & -> & Hw).
    exists w. split; [exact Hw|]. split; [reflexivity|].
    unfold windowEntry. cbn [Listed.confirmedCount Listed.signupCount].
    split; [apply countWhere_nonneg|]. apply countWhere_le. intros s H.
    now apply andb_prop in H as [H _].
  - intros Hfive. rewrite List.firstn_all2 by lia. exact Hperm.
  - intros w e Hw Hout He. apply (Hord e); [exact He|].
    assert (Hin : windowEntry db fromTimestamp toTimestamp w ∈ sorted).
    { rewrite Hperm. subst all. now apply list_elem_of_fmap_2. }
    rewrite <- (List.firstn_skipn 5 sorted) in Hin.
    apply elem_of_app in Hin as [Hin|Hin]; [contradiction | exact Hin].
Qed.

(** ** The answers of the signup route *)

Lemma signup_answer (env : Env) (o : Oracle) (db : Db) (req : Req.t) :
  match outcomeOf (signup env o db req) with
  | Ok r =>
      exists wl row,
        findWaitlistBySlug db (Req.slug req) = Some wl
        /\ findSignupByEmail (dbOf (signup env o db req)) (Waitlist.id wl)
             (normalizeEmail (Req.email (Req.json req))) = Some row
        /\ field "success" r = Some (JBool true)
        /\ field "position" r = Some (JNum (Signup.position row))
  | Fail err =>
      List.In (status err, code err)
        [(404, "WAITLIST_NOT_FOUND"); (400, "INVALID_EMAIL"); (400, "VALIDATION_ERROR");
         (409, "ALREADY_SIGNED_UP")]
  | Throw _ => True
  end.
Proof.
  unfold signup.
  destruct (findWaitlistBySlug db (Req.slug req)) as [w|] eqn:Hw; [|simpl; auto].
  destruct (isValidEmail _) eqn:Hv; [|simpl; auto]. cbn [negb].
  destruct (validateCustomFields _ _) as [cd|e|m] eqn:Hcf; [| |exact I].
  2:{ unfold validateCustomFields in Hcf.
      destruct (fold_validateField_Fail _ _ _ _ Hcf) as (_ & f & _ & _ & _ & _ & _ & ->).
      simpl. auto. }
  set (email := normalizeEmail (Req.email (Req.json req))).
  destruct (findSignupByEmail db (Waitlist.id w) email) as [existing|] eqn:Hf.
  - unfold signupExisting.
    destruct (isConfirmedOrInvited (Signup.status existing)); [simpl; auto 6|].
    destruct (_ && _) eqn:Hc; [|simpl; auto 6].
    apply andb_prop in Hc as [Hc _]. apply andb_prop in Hc as [_ Hp].
    apply bool_decide_eq_true in Hp.
    unfold sendConfirmationEmail.
    destruct (negb _ || negb _); [exact I|].
    destruct (confirmationSends o); [|exact I].
    cbn [outcomeOf dbOf fst snd].
    exists w, (Signup.setToken (Some (generateToken o)) existing).
    split; [reflexivity|]. split.
    + unfold findSignupByEmail, updateSignup. simpl.
      rewrite (find_map_preserve _
                 (fun s => if bool_decide (Signup.id s = Signup.id existing)
                           then Signup.setToken (Some (generateToken o)) s else s)).
      * fold (findSignupByEmail db (Waitlist.id w) email). rewrite Hf. simpl.
        now rewrite bool_decide_eq_true_2.
      * intros s. now destruct (bool_decide (Signup.id s = Signup.id existing)).
    + split; reflexivity.
  - unfold signupNew. cbv zeta.
    set (dbl := Js.truthyb (Waitlist.doubleOptIn w) && isEmailConfigured env).
    set (row := newSignupRow o w req email cd dbl (nextPosition db (Waitlist.id w))).
    destruct (insertSignup db row) as [db'|] eqn:Hi; [|exact I].
    apply insertSignup_Some in Hi as [-> _].
    assert (Hrow : findSignupByEmail (withSignups db (signups db ++ [row]))
                     (Waitlist.id w) email = Some row).
    { unfold findSignupByEmail. simpl. apply find_app_last; [exact Hf|].
      simpl. now rewrite !bool_decide_eq_true_2. }
    destruct dbl eqn:Edbl.
    + unfold sendConfirmationEmail.
      destruct (negb _ || negb _); [exact I|].
      destruct (confirmationSends o); [|exact I].
      cbn [outcomeOf dbOf fst snd]. exists w, row.
      split; [reflexivity|]. split; [exact Hrow|]. split; reflexivity.
    + cbn [outcomeOf dbOf fst snd]. exists w, row.
      split; [reflexivity|]. split; [exact Hrow|]. split; reflexivity.
Qed.

(** X28. Every answer of the signup route. It is never a bare preflight
    reply. A body the validator rejects writes nothing to the database.
    An error answer carries one of eight pairs of status and code:
    403 DEMO_MODE, 403 FORBIDDEN, 429 RATE_LIMITED, 404
    WAITLIST_NOT_FOUND, 400 INVALID_EMAIL, 400 VALIDATION_ERROR, 409
    ALREADY_SIGNED_UP and 500 INTERNAL_ERROR. A success answer says
    success, and the waitlist then holds a row for the normalised email
    whose position is the position answered. *)
Theorem signup_route_answers (zEmail : string -> bool) (e : AppEnv) (o : Oracle)
    (tSweep t : Z) (w : World) (origin : option string) (req : Req.t) :
  match (postSignup zEmail e o tSweep t w origin req).2 with
  | Preflight _ _ => False
  | Invalid =>
      database (postSignup zEmail e o tSweep t w origin req).1.1 = database w
      /\ (postSignup zEmail e o tSweep t w origin req).1.2 = []
  | Answer out =>
      match onError out with
      | Some answer => List.In answer signupErrors
      | None =>
          exists r wl row,
            out = Ok r
            /\ findWaitlistBySlug (database w) (Req.slug req) = Some wl
            /\ findSignupByEmail
                 (database (postSignup zEmail e o tSweep t w origin req).1.1)
                 (Waitlist.id wl) (normalizeEmail (Req.email (Req.json req)))
               = Some row
            /\ field "success" r = Some (JBool true)
            /\ field "position" r = Some (JNum (Signup.position row))
      end
  end.
Proof.
  assert (Hhandler :
    match onError (outcomeOf (signup (bindings e) o (database w) req)) with
    | Some answer => List.In answer signupErrors
    | None =>
        exists r wl row,
          outcomeOf (signup (bindings e) o (database w) req) = Ok r
          /\ findWaitlistBySlug (database w) (Req.slug req) = Some wl
          /\ findSignupByEmail (dbOf (signup (bindings e) o (database w) req))
               (Waitlist.id wl) (normalizeEmail (Req.email (Req.json req))) = Some row
          /\ field "success" r = Some (JBool true)
          /\ field "position" r = Some (JNum (Signup.position row))
    end).
  { pose proof (signup_answer (bindings e) o (database w) req) as H.
    destruct (outcomeOf (signup (bindings e) o (database w) req)) as [r|err|m]; simpl.
    - destruct H as (wl & row & H). exists r, wl, row. tauto.
    - unfold signupErrors. simpl in H. simpl. tauto.
    - destruct (Js.includes m "Validation"); unfold signupErrors; simpl; tauto. }
  unfold postSignup, demoModeGuard.
  change (isWriteMethod "POST") with true. rewrite andb_true_r, dynamicCors_post.
  destruct (isDemoMode e); [simpl; auto|].
  assert (Hrest :
    match
      (let '(store, _, limited) := signupRateLimit req tSweep t (rateLimitStore w) in
       match limited with
       | Ok _ =>
           if zEmail (Req.email (Req.json req))
           then
             ({| database := dbOf (signup (bindings e) o (database w) req);
                 rateLimitStore := store |},
              effectsOf (signup (bindings e) o (database w) req),
              Answer (outcomeOf (signup (bindings e) o (database w) req)))
           else ({| database := database w; rateLimitStore := store |}, [], Invalid)
       | Fail err =>
           ({| database := database w; rateLimitStore := store |}, [], Answer (Fail err))
       | Throw m =>
           ({| database := database w; rateLimitStore := store |}, [], Answer (Throw m))
       end) with
    | (w', effects, Preflight _ _) => False
    | (w', effects, Invalid) => database w' = database w /\ effects = []
    | (w', effects, Answer out) =>
        match onError out with
        | Some answer => List.In answer signupErrors
        | None =>
            exists r wl row,
              out = Ok r
              /\ findWaitlistBySlug (database w) (Req.slug req) = Some wl
              /\ findSignupByEmail (database w') (Waitlist.id wl)
                   (normalizeEmail (Req.email (Req.json req))) = Some row
              /\ field "success" r = Some (JBool true)
              /\ field "position" r = Some (JNum (Signup.position row))
        end
    end).
  { unfold signupRateLimit, rateLimit.
    destruct (max signupOptions <? _); cbn [fst snd].
    - simpl. auto.
    - destruct (zEmail _); [exact Hhandler | now split]. }
  destruct (negb (Js.truthy origin)); cbn [orb].
  - destruct (signupRateLimit req tSweep t (rateLimitStore w)) as [[store hs] limited].
    destruct limited as [[]|err|m]; [destruct (zEmail _)| |]; exact Hrest.
  - destruct (isOriginAllowed _ _).
    + destruct (signupRateLimit req tSweep t (rateLimitStore w)) as [[store hs] limited].
      destruct limited as [[]|err|m]; [destruct (zEmail _)| |]; exact Hrest.
    + simpl. auto.
Qed.

(** ** The buckets of the limiter do not interfere *)

Lemma record_ignores_sweep (opts : RateLimitOptions) (k : string) (tSweep t : Z)
    (s : gmap string RateRecord) :
  tSweep <= t ->
  match cleanupExpiredIfNeeded tSweep s !! k with
  | Some r => if resetAt r <? t then {| count := 1; resetAt := t + windowMs opts |}
              else {| count := count r + 1; resetAt := resetAt r |}
  | None => {| count := 1; resetAt := t + windowMs opts |}
  end
  = match s !! k with
    | Some r => if resetAt r <? t then {| count := 1; resetAt := t + windowMs opts |}
                else {| count := count r + 1; resetAt := resetAt r |}
    | None => {| count := 1; resetAt := t + windowMs opts |}
    end.
Proof.
  intros Hclock. destruct (cleanupExpiredIfNeeded tSweep s !! k) as [r|] eqn:E.
  - now rewrite (cleanup_lookup_Some _ _ _ _ E).
  - apply cleanup_lookup_None in E as [->|(r & -> & Hr)]; [reflexivity|].
    destruct (Z.ltb_spec (resetAt r) t); [reflexivity | lia].
Qed.

Lemma rateLimit_same_bucket (opts : RateLimitOptions) (k : string) (T tSweep t : Z)
    (s s' : gmap string RateRecord) :
  sameBucket k T s s' -> T <= tSweep -> tSweep <= t ->
  (rateLimit opts k tSweep t s).1.2 = (rateLimit opts k tSweep t s').1.2
  /\ (rateLimit opts k tSweep t s).2 = (rateLimit opts k tSweep t s').2
  /\ (rateLimit opts k tSweep t s).1.1 !! k = (rateLimit opts k tSweep t s').1.1 !! k.
Proof.
  intros Hsame HT Hclock. unfold rateLimit.
  rewrite !(record_ignores_sweep opts k tSweep t) by exact Hclock.
  assert (E : match s !! k with
              | Some r => if resetAt r <? t
                          then {| count := 1; resetAt := t + windowMs opts |}
                          else {| count := count r + 1; resetAt := resetAt r |}
              | None => {| count := 1; resetAt := t + windowMs opts |}
              end
              = match s' !! k with
                | Some r => if resetAt r <? t
                            then {| count := 1; resetAt := t + windowMs opts |}
                            else {| count := count r + 1; resetAt := resetAt r |}
                | None => {| count := 1; resetAt := t + windowMs opts |}
                end).
  { destruct Hsame as [->|[H1 H2]]; [reflexivity|].
    destruct (s !! k) as [r|], (s' !! k) as [r'|]; try reflexivity.
    - specialize (H1 r eq_refl). specialize (H2 r' eq_refl).
      destruct (Z.ltb_spec (resetAt r) t), (Z.ltb_spec (resetAt r') t);
        try reflexivity; lia.
    - specialize (H1 r eq_refl). destruct (Z.ltb_spec (resetAt r) t); [reflexivity | lia].
    - specialize (H2 r' eq_refl). destruct (Z.ltb_spec (resetAt r') t); [reflexivity | lia]. }
  rewrite E. destruct (max opts <? _); cbn [fst snd]; rewrite !lookup_insert_eq; auto.
Qed.

Lemma rateLimit_other_bucket (opts : RateLimitOptions) (k k' : string) (T tSweep t : Z)
    (s s' : gmap string RateRecord) :
  k' <> k -> sameBucket k T s s' -> T <= tSweep -> tSweep <= t ->
  sameBucket k t (rateLimit opts k' tSweep t s).1.1 s'.
Proof.
  intros Hne Hsame HT Hclock.
  assert (Hlook : (rateLimit opts k' tSweep t s).1.1 !! k
                  = cleanupExpiredIfNeeded tSweep s !! k).
  { unfold rateLimit. destruct (max opts <? _); cbn [fst];
      now rewrite lookup_insert_ne by exact Hne. }
  unfold sameBucket. rewrite Hlook.
  destruct (cleanupExpiredIfNeeded tSweep s !! k) as [r|] eqn:E.
  - apply cleanup_lookup_Some in E. destruct Hsame as [H|[H1 H2]].
    + left. now rewrite <- H.
    + right. split.
      * intros r0 [= <-]. specialize (H1 r E). lia.
      * intros r0 Hr0. specialize (H2 r0 Hr0). lia.
  - apply cleanup_lookup_None in E as [E|(r & E & Hr)].
    + destruct Hsame as [H|[H1 H2]].
      * left. now rewrite <- H.
      * right. split; [discriminate|]. intros r0 Hr0. specialize (H2 r0 Hr0). lia.
    + right. split; [discriminate|]. intros r0 Hr0.
      destruct Hsame as [H|[H1 H2]].
      * rewrite <- H, E in Hr0. injection Hr0 as <-. lia.
      * specialize (H2 r0 Hr0). lia.
Qed.

Lemma buckets_simulate (k : string) (reqs : list (Req.t * Z * Z)) :
  forall T s s',
    sameBucket k T s s' -> clockOrdered T reqs ->
    answersFor k reqs (runSignupLimiter reqs s).2
    = (runSignupLimiter
         (List.filter (fun q => bool_decide (signupKey q.1.1 = k)) reqs) s').2.
Proof.
  induction reqs as [|[[r ts] t] rest IH]; intros T s s' Hsame Hclock; [reflexivity|].
  destruct Hclock as (HT & Hts & Hrest).
  rewrite runSignupLimiter_cons. cbn [List.filter fst snd answersFor].
  destruct (decide (signupKey r = k)) as [E|E].
  - rewrite bool_decide_eq_true_2 by exact E.
    rewrite runSignupLimiter_cons. cbn [snd].
    unfold signupRateLimit. rewrite E.
    destruct (rateLimit_same_bucket signupOptions k T ts t s s' Hsame HT Hts)
      as (Hh & Ho & Hl).
    rewrite Hh, Ho. f_equal.
    apply (IH t); [now left | exact Hrest].
  - rewrite bool_decide_eq_false_2 by exact E.
    apply (IH t); [|exact Hrest].
    now apply (rateLimit_other_bucket signupOptions k (signupKey r) T).
Qed.

(** X29. The buckets of the signup limiter do not interfere. Over any
    run of requests during which the clock does not run backwards, the
    requests of one key get, one by one, the same answers (outcome and
    headers) as if the requests of all other keys had never been made:
    neither their counting nor the sweep of the store they may trigger
    changes an answer. So requests are limited per key only, the key
    being the client address the headers give. *)
Theorem limiter_buckets_do_not_interfere
    (k : string) (T : Z) (reqs : list (Req.t * Z * Z))
    (store : gmap string RateRecord) (Hclock : clockOrdered T reqs) :
  answersFor k reqs (runSignupLimiter reqs store).2
  = (runSignupLimiter
       (List.filter (fun q => bool_decide (signupKey q.1.1 = k)) reqs) store).2.
Proof. apply (buckets_simulate k reqs T); [now left | exact Hclock]. Qed.

Lemma limiter_buckets_do_not_interfere_witness :
  answersFor (signupKey Burst.bob) ((Burst.alice, 0, 0) :: Burst.rest)
    (runSignupLimiter ((Burst.alice, 0, 0) :: Burst.rest) ∅).2
  = (runSignupLimiter [(Burst.bob, 200000, 200000)] ∅).2.
Proof.
  apply (limiter_buckets_do_not_interfere (signupKey Burst.bob) 0
           ((Burst.alice, 0, 0) :: Burst.rest) ∅).
  simpl. lia.
Defined.

(** ** What the requests send, and to whom *)

Lemma effectAbout_same (w : Waitlist.t) (row row' : Signup.t) (ev : string)
    (effs : list Effect) :
  Signup.email row' = Signup.email row ->
  Forall (fun eff => isConfirmationEmail eff = false) effs ->
  Forall (effectAbout w row ev) effs -> Forall (effectAbout w row' ev) effs.
Proof.
  intros He Hn H. rewrite Forall_forall in *. intros eff Hin.
  specialize (H eff Hin). specialize (Hn eff Hin).
  destruct eff; simpl in *; try congruence; try exact H.
Qed.

Lemma sendWelcomeAndNotify_about (tag : string) (env : Env) (w : Waitlist.t)
    (o : Oracle) (s : Signup.t) (ev : string) :
  Forall (effectAbout w s ev) (sendWelcomeAndNotify tag env w o s)
  /\ Forall (fun eff => isConfirmationEmail eff = false
                        /\ isWebhook eff = false)
            (sendWelcomeAndNotify tag env w o s).
Proof.
  unfold sendWelcomeAndNotify, sendWelcomeEmail, sendAdminNotificationEmail.
  destruct (negb _ || negb _), (negb (Js.truthyb _)), (welcomeSends o), (adminSends o);
    simpl; split; repeat constructor.
Qed.

Lemma triggerWebhook_about (w : Waitlist.t) (row : Signup.t) (ev : string) :
  Forall (effectAbout w row ev) (triggerWebhook w ev)
  /\ Forall (fun eff => isConfirmationEmail eff = false) (triggerWebhook w ev).
Proof.
  unfold triggerWebhook. destruct (Waitlist.webhookUrl w) as [url|] eqn:E; simpl.
  - destruct (negb (String.eqb url EmptyString)); split; repeat constructor.
    simpl. now rewrite E.
  - split; constructor.
Qed.

(** X30. What the public requests send, and to whom. Every mail of a
    signup request goes to, or is about, the normalised address of the
    request, for which the waitlist then holds a row; a confirmation
    mail carries the very token that row holds; the webhook called is
    the waitlist's, with the event "signup.created", and only when the
    request succeeds. A confirmation request sends no confirmation mail;
    its welcome and notification mails are about the address of the row
    that held the token, its webhook event is "signup.confirmed", and it
    never fails because a mail could not be sent. *)
Theorem effects_concern_the_signup (env : Env) (o : Oracle) (db : Db) :
  (forall req,
      Forall (fun eff => isLog eff = true) (effectsOf (signup env o db req))
      \/ exists wl row,
           findWaitlistBySlug db (Req.slug req) = Some wl
           /\ findSignupByEmail (dbOf (signup env o db req)) (Waitlist.id wl)
                (normalizeEmail (Req.email (Req.json req))) = Some row
           /\ Forall (effectAbout wl row "signup.created")
                     (effectsOf (signup env o db req))
           /\ (List.existsb isWebhook (effectsOf (signup env o db req)) = true ->
               isOk (outcomeOf (signup env o db req)) = true))
  /\ (forall slug token,
        (forall m, outcomeOf (confirm env o db slug token) <> Throw m)
        /\ Forall (fun eff => isConfirmationEmail eff = false)
                  (effectsOf (confirm env o db slug token))
        /\ (effectsOf (confirm env o db slug token) = []
            \/ exists wl s,
                 findWaitlistBySlug db slug = Some wl
                 /\ findSignupByToken db (Waitlist.id wl) token = Some s
                 /\ Signup.status s = pending
                 /\ Forall (effectAbout wl s "signup.confirmed")
                           (effectsOf (confirm env o db slug token)))).
Proof.
  split.
  - intros req. unfold signup.
    destruct (findWaitlistBySlug db (Req.slug req)) as [w|] eqn:Hw; [|left; constructor].
    destruct (isValidEmail _) eqn:Hv; [|left; constructor]. cbn [negb].
    destruct (validateCustomFields _ _) as [cd|e|m];
      [|left; constructor|left; constructor].
    set (email := normalizeEmail (Req.email (Req.json req))).
    destruct (findSignupByEmail db (Waitlist.id w) email) as [existing|] eqn:Hf.
    + unfold signupExisting.
      destruct (isConfirmedOrInvited (Signup.status existing)); [left; constructor|].
      destruct (_ && _); [|left; constructor].
      unfold sendConfirmationEmail.
      destruct (negb _ || negb _); [left; constructor|].
      destruct (confirmationSends o); [|left; constructor].
      right. cbn [effectsOf dbOf outcomeOf fst snd].
      exists w, (Signup.setToken (Some (generateToken o)) existing).
      split; [reflexivity|]. split.
      * unfold findSignupByEmail, updateSignup. simpl.
        rewrite (find_map_preserve _
                   (fun s => if bool_decide (Signup.id s = Signup.id existing)
                             then Signup.setToken (Some (generateToken o)) s else s)).
        -- fold (findSignupByEmail db (Waitlist.id w) email). rewrite Hf. simpl.
           now rewrite bool_decide_eq_true_2.
        -- intros s. now destruct (bool_decide (Signup.id s = Signup.id existing)).
      * split; [|discriminate]. repeat constructor.
    + unfold signupNew. cbv zeta.
      set (dbl := Js.truthyb (Waitlist.doubleOptIn w) && isEmailConfigured env).
      set (row := newSignupRow o w req email cd dbl (nextPosition db (Waitlist.id w))).
      set (warn := if Js.truthyb (Waitlist.doubleOptIn w) && negb (isEmailConfigured env)
                   then _ else []).
      assert (Hwarn : Forall (fun eff => isLog eff = true) warn
                      /\ Forall (effectAbout w row "signup.created") warn
                      /\ List.existsb isWebhook warn = false).
      { subst warn. destruct (_ && negb _); repeat constructor. }
      destruct Hwarn as (Hlog & Habout & Hnoweb).
      destruct (insertSignup db row) as [db'|] eqn:Hi; [|left; exact Hlog].
      apply insertSignup_Some in Hi as [-> _].
      assert (Hrow : findSignupByEmail (withSignups db (signups db ++ [row]))
                       (Waitlist.id w) email = Some row).
      { unfold findSignupByEmail. simpl. apply find_app_last; [exact Hf|].
        simpl. now rewrite !bool_decide_eq_true_2. }
      destruct (triggerWebhook_about w row "signup.created") as [Hweb _].
      destruct dbl eqn:Edbl.
      * unfold sendConfirmationEmail.
        destruct (negb _ || negb _);
          [left; cbn [effectsOf fst snd]; now rewrite List.app_nil_r|].
        destruct (confirmationSends o);
          [|left; cbn [effectsOf fst snd]; now rewrite List.app_nil_r].
        right. cbn [effectsOf dbOf outcomeOf fst snd]. exists w, row.
        split; [reflexivity|]. split; [exact Hrow|]. split; [|reflexivity].
        apply Forall_app. split; [exact Habout|]. constructor; [|exact Hweb].
        subst row. simpl. auto.
      * right. cbn [effectsOf dbOf outcomeOf fst snd]. exists w, row.
        split; [reflexivity|]. split; [exact Hrow|]. split; [|reflexivity].
        apply Forall_app. split; [exact Habout|].
        apply Forall_app. split; [|exact Hweb].
        destruct (isEmailConfigured env); [|constructor].
        apply sendWelcomeAndNotify_about.
  - intros slug token. unfold confirm.
    destruct (findWaitlistBySlug db slug) as [w|] eqn:Hw;
      [|split; [discriminate|]; split; [constructor | now left]].
    destruct (findSignupByToken db (Waitlist.id w) token) as [s|] eqn:Hf;
      [|split; [discriminate|]; split; [constructor | now left]].
    destruct (isConfirmedOrInvited (Signup.status s)) eqn:Hst;
      [split; [discriminate|]; split; [constructor | now left]|].
    cbn [effectsOf dbOf outcomeOf fst snd].
    set (confirmedSignup := Signup.setConfirmedAt (Some (now o))
                              (Signup.setStatus confirmed s)).
    destruct (sendWelcomeAndNotify_about "[Confirm] Failed to send emails:" env w o
                confirmedSignup "signup.confirmed") as [Hmail Hkind].
    destruct (triggerWebhook_about w s "signup.confirmed") as [Hweb Hwebkind].
    split; [discriminate|]. split.
    + apply Forall_app. split; [|exact Hwebkind].
      eapply Forall_impl; [exact Hkind|]. now intros eff [H _].
    + right. exists w, s. split; [reflexivity|]. split; [exact Hf|]. split.
      * unfold isConfirmedOrInvited in Hst. now destruct (Signup.status s).
      * apply Forall_app. split; [|exact Hweb].
        apply (effectAbout_same w confirmedSignup s); [reflexivity| |exact Hmail].
        eapply Forall_impl; [exact Hkind|]. now intros eff [H _].
Qed.
